(** * GitHub file-operations MCP server: the [commit_files] and
    [delete_files] tools of [src/mcp/github-file-ops-server.ts].

    The two tool handlers are embedded as functions in a small state and
    exception monad.  Everything the handlers cannot decide themselves is
    supplied by a [Host]: the process environment, the local file system,
    the platform's [path.join], the order in which concurrent reads
    settle, and the remote HTTP service, which is an arbitrary state
    machine answering each request.  The state threaded through a handler
    is the remote's state together with the trace of HTTP exchanges made
    so far.

    The [console.error] diagnostics and [logDetailedError] are not part of
    the model: they write to stderr and never influence a request, a
    result or an error value. *)

From Stdlib Require Import Ascii.
From stdpp Require Import base option list strings pretty gmap.

(** ** JavaScript strings

    A JavaScript string is a sequence of code units; [string] plays that
    role, one character per code unit. *)

(** [s.startsWith(p)] *)
Definition startsWith (s p : string) : bool := String.prefix p s.

(** [s.slice(n)] for a non-negative [n]: the code units from index [n] on,
    empty when [n] exceeds the length. *)
Fixpoint slice (n : nat) (s : string) : string :=
  match n, s with
  | O, _ => s
  | S _, EmptyString => EmptyString
  | S n', String _ s' => slice n' s'
  end.

(** [s.includes(sub)] *)
Fixpoint includes (s sub : string) : bool :=
  String.prefix sub s ||
  match s with
  | EmptyString => false
  | String _ s' => includes s' sub
  end.

Definition newline : ascii := ascii_of_nat 10.

(** [s.split('\n')[0]] *)
Fixpoint first_line (s : string) : string :=
  match s with
  | EmptyString => EmptyString
  | String c s' => if Ascii.eqb c newline then EmptyString else String c (first_line s')
  end.

(** Truthiness of a string: non-empty. *)
Definition truthy (s : string) : bool := negb (String.eqb s "").

(** ** Thrown values

    What a [catch] clause can observe of the value it caught: whether it is
    an [Error] instance, its [message] and [stack] properties when they are
    strings, and the result of [String(value)].  The libraries called here
    ([fetch], [Response], [readFile]) reject with objects, so reading a
    property of a caught value does not itself throw. *)
Record Thrown := {
  instanceof_Error : bool;
  err_message : option string;
  err_stack : option string;
  to_String : string
}.

Inductive Outcome (A : Type) : Type :=
| Returned (a : A)
| Threw (t : Thrown).
Arguments Returned {A} a.
Arguments Threw {A} t.

(** ** Data model: the types declared at the top of the source file

    A reply whose body parses is taken at the type the source casts it to
    ([as GitHubRef] and so on); the nested objects are flattened, so
    [ref_object_sha] is [refData.object.sha] and [nc_author_name] is
    [newCommitData.author.name]. *)

Record GitHubRef := { ref_object_sha : string }.
Record GitHubCommit := { commit_tree_sha : string }.
Record GitHubTree := { tree_sha : string }.
Record GitHubNewCommit := {
  nc_sha : string;
  nc_message : string;
  nc_author_name : string;
  nc_author_date : string
}.

(** A tree entry as the handlers build it: [commit_files] gives the file's
    text as [content], [delete_files] gives [sha: null]. *)
Inductive EntryBlob :=
| content (text : string)
| sha_null.

Record TreeEntry := {
  entry_path : string;
  entry_mode : string;
  entry_type : string;
  entry_blob : EntryBlob
}.

(** ** HTTP requests and responses *)

Inductive Method := GET | POST | PATCH.

(** The object handed to [JSON.stringify] as the request body. *)
Inductive Body :=
| TreeBody (base_tree : string) (tree : list TreeEntry)
| CommitBody (message : string) (tree : string) (parents : list string)
| RefBody (sha : string) (force : bool).

Record Request := {
  method : Method;
  url : string;
  headers : list (string * string);
  body : option Body
}.

(** The five calls of the protocol; each fixes the type its JSON reply is
    cast to in the source. *)
Inductive Endpoint := EGetRef | EGetCommit | EPostTree | EPostCommit | EPatchRef.

Definition payload (e : Endpoint) : Type :=
  match e with
  | EGetRef => GitHubRef
  | EGetCommit => GitHubCommit
  | EPostTree => GitHubTree
  | EPostCommit => GitHubNewCommit
  | EPatchRef => GitHubRef
  end.

(** A response: [ok], [status], and what awaiting [text()] and [json()]
    gives (either may reject). *)
Record Response (A : Type) := {
  ok : bool;
  status : nat;
  text : Outcome string;
  json : Outcome A
}.
Arguments ok {A} r.
Arguments status {A} r.
Arguments text {A} r.
Arguments json {A} r.

(** One HTTP exchange: the request and what [await fetch(...)] produced,
    a response or a rejection. *)
Inductive Exchange :=
| Exch (e : Endpoint) (req : Request) (res : Outcome (Response (payload e))).

Definition exch_request (x : Exchange) : Request :=
  match x with Exch _ req _ => req end.

(** ** The host *)

Record Env := {
  GITHUB_API_URL : string;
  GITHUB_TOKEN : option string;
  REPO_OWNER : string;
  REPO_NAME : string;
  BRANCH_NAME : string;
  REPO_DIR : string;
  cwd : string
}.

Record Host (S : Type) := {
  env : Env;
  (** [path.join] of the platform *)
  join : string -> string -> string;
  (** [readFile(path, "utf-8")] *)
  readFile : string -> Outcome string;
  (** which of several rejected promises settles first *)
  race : nat;
  (** the [stack] the engine records for [new Error(message)] *)
  capture_stack : string -> option string;
  (** the remote service *)
  respond : forall e : Endpoint, S -> Request -> Outcome (Response (payload e)) * S
}.
Arguments env {S} h.
Arguments join {S} h.
Arguments readFile {S} h.
Arguments race {S} h.
Arguments capture_stack {S} h.
Arguments respond {S} h e.

Record World (S : Type) := {
  remote : S;
  trace : list Exchange
}.
Arguments remote {S} w.
Arguments trace {S} w.

(** ** The monad of the handlers *)

Definition M (S A : Type) : Type := World S -> Outcome A * World S.

Definition ret {S A} (a : A) : M S A := fun w => (Returned a, w).

Definition throw {S A} (t : Thrown) : M S A := fun w => (Threw t, w).

Definition bind {S A B} (m : M S A) (k : A -> M S B) : M S B :=
  fun w =>
    match m w with
    | (Returned a, w') => k a w'
    | (Threw t, w') => (Threw t, w')
    end.

Definition try_catch {S A} (m : M S A) (handler : Thrown -> M S A) : M S A :=
  fun w =>
    match m w with
    | (Returned a, w') => (Returned a, w')
    | (Threw t, w') => handler t w'
    end.

(** An outcome that is already determined: awaiting a settled promise, or
    evaluating an expression that returns or throws without touching the
    remote. *)
Definition await {S A} (o : Outcome A) : M S A := fun w => (o, w).

Notation "'let*' x ':=' m 'in' k" := (bind m (fun x => k))
  (at level 10, x name, m at level 100, k at level 200).

Section Handlers.
Context {S : Type} (h : Host S).

(** [new Error(message)] *)
Definition new_Error (message : string) : Thrown :=
  {| instanceof_Error := true;
     err_message := Some message;
     err_stack := capture_stack h message;
     to_String := if truthy message then "Error: " +:+ message else "Error" |}.

(** [await fetch(url, init)] *)
Definition fetch (e : Endpoint) (req : Request) : M S (Response (payload e)) :=
  fun w =>
    let '(res, s') := respond h e (remote w) req in
    (res, {| remote := s'; trace := trace w ++ [Exch e req res] |}).

Definition base_headers (githubToken : string) : list (string * string) :=
  [("Accept", "application/vnd.github+json");
   ("Authorization", "Bearer " +:+ githubToken);
   ("X-GitHub-Api-Version", "2022-11-28")].

Definition json_headers (githubToken : string) : list (string * string) :=
  base_headers githubToken ++ [("Content-Type", "application/json")].

Definition repo_url : string :=
  GITHUB_API_URL (env h) +:+ "/repos/" +:+ REPO_OWNER (env h) +:+ "/" +:+ REPO_NAME (env h).

(** [`${GITHUB_API_URL}/repos/${owner}/${repo}/git/refs/heads/${branch}`] *)
Definition refUrl : string := repo_url +:+ "/git/refs/heads/" +:+ BRANCH_NAME (env h).
Definition commitUrl (baseSha : string) : string := repo_url +:+ "/git/commits/" +:+ baseSha.
Definition treeUrl : string := repo_url +:+ "/git/trees".
Definition newCommitUrl : string := repo_url +:+ "/git/commits".
Definition updateRefUrl : string := refUrl.

Definition token_error : Thrown :=
  new_Error "GITHUB_TOKEN environment variable is required".

(** [const githubToken = process.env.GITHUB_TOKEN; if (!githubToken) throw ...] *)
Definition githubToken_required : M S string :=
  match GITHUB_TOKEN (env h) with
  | Some githubToken => if truthy githubToken then ret githubToken else throw token_error
  | None => throw token_error
  end.

(** [error.message || error], interpolated into a template string *)
Definition message_or_value (error : Thrown) : string :=
  match err_message error with
  | Some m => if truthy m then m else to_String error
  | None => to_String error
  end.

(** [fetchError?.message || 'Unknown fetch error'] *)
Definition message_or_unknown (fetchError : Thrown) : string :=
  match err_message fetchError with
  | Some m => if truthy m then m else "Unknown fetch error"
  | None => "Unknown fetch error"
  end.

(** [Promise.all]: the values in order when every promise fulfils, else the
    rejection that settles first. *)
Definition rejections {A} (l : list (Outcome A)) : list Thrown :=
  omap (fun o => match o with Threw t => Some t | Returned _ => None end) l.

Definition fulfilments {A} (l : list (Outcome A)) : list A :=
  omap (fun o => match o with Returned a => Some a | Threw _ => None end) l.

Definition Promise_all {A} (l : list (Outcome A)) : Outcome (list A) :=
  match rejections l with
  | [] => Returned (fulfilments l)
  | t :: ts => Threw (nth (race h `mod` length (t :: ts)) (t :: ts) t)
  end.

(** *** The requests, as the objects passed to [fetch] *)

Definition ref_request (githubToken : string) : Request :=
  {| method := GET; url := refUrl; headers := base_headers githubToken; body := None |}.

Definition commit_request (githubToken baseSha : string) : Request :=
  {| method := GET; url := commitUrl baseSha; headers := base_headers githubToken;
     body := None |}.

Definition tree_request (githubToken baseTreeSha : string) (treeEntries : list TreeEntry)
  : Request :=
  {| method := POST; url := treeUrl; headers := json_headers githubToken;
     body := Some (TreeBody baseTreeSha treeEntries) |}.

Definition new_commit_request (githubToken message treeSha baseSha : string) : Request :=
  {| method := POST; url := newCommitUrl; headers := json_headers githubToken;
     body := Some (CommitBody message treeSha [baseSha]) |}.

Definition update_ref_request (githubToken newCommitSha : string) : Request :=
  {| method := PATCH; url := updateRefUrl; headers := json_headers githubToken;
     body := Some (RefBody newCommitSha false) |}.

(** *** Steps 1, 2, 4, 5 and 6, textually the same in both tools *)

(** 1. Get the branch reference (lines 109-126 and 369-386) *)
Definition get_branch_reference (githubToken : string) : M S string :=
  let* refResponse := fetch EGetRef (ref_request githubToken) in
  if negb (ok refResponse) then
    throw (new_Error ("Failed to get branch reference: " +:+ pretty (status refResponse)))
  else
    let* refData := await (json refResponse) in
    ret (ref_object_sha refData).

(** 2. Get the base commit (lines 128-143 and 388-403) *)
Definition get_base_commit (githubToken baseSha : string) : M S string :=
  let* commitResponse := fetch EGetCommit (commit_request githubToken baseSha) in
  if negb (ok commitResponse) then
    throw (new_Error ("Failed to get base commit: " +:+ pretty (status commitResponse)))
  else
    let* commitData := await (json commitResponse) in
    ret (commit_tree_sha commitData).

(** 4. Create a new tree (lines 167-190 and 413-436) *)
Definition create_tree (githubToken baseTreeSha : string) (treeEntries : list TreeEntry)
  : M S GitHubTree :=
  let* treeResponse :=
    fetch EPostTree (tree_request githubToken baseTreeSha treeEntries) in
  if negb (ok treeResponse) then
    let* errorText := await (text treeResponse) in
    throw (new_Error ("Failed to create tree: " +:+ pretty (status treeResponse)
                      +:+ " - " +:+ errorText))
  else
    await (json treeResponse).

(** 5. Create a new commit (lines 192-216 and 438-462) *)
Definition create_commit (githubToken message treeSha baseSha : string)
  : M S GitHubNewCommit :=
  let* newCommitResponse :=
    fetch EPostCommit (new_commit_request githubToken message treeSha baseSha) in
  if negb (ok newCommitResponse) then
    let* errorText := await (text newCommitResponse) in
    throw (new_Error ("Failed to create commit: " +:+ pretty (status newCommitResponse)
                      +:+ " - " +:+ errorText))
  else
    await (json newCommitResponse).

(** 6. Update the reference to point to the new commit (lines 218-288
    and 464-534) *)

(** The error thrown when the PATCH itself rejects, lines 243-247 and
    489-493. *)
Definition network_error (fetchError : Thrown) : Thrown :=
  new_Error ("Network error during reference update: " +:+ message_or_unknown fetchError).

(** The error thrown when the PATCH is answered with a non-2xx status,
    lines 252-288 and 498-534. *)
Definition update_rejected_error (updateRefResponse : Response GitHubRef) : Thrown :=
  let errorText :=
    match text updateRefResponse with
    | Returned t => t
    | Threw textError => "Unable to read error response"
    end in
  new_Error ("Failed to update reference: " +:+ pretty (status updateRefResponse)
             +:+ " - " +:+ errorText).

Definition update_reference (githubToken newCommitSha : string) : M S unit :=
  let* updateRefResponse :=
    try_catch
      (fetch EPatchRef (update_ref_request githubToken newCommitSha))
      (fun fetchError => throw (network_error fetchError)) in
  if negb (ok updateRefResponse) then throw (update_rejected_error updateRefResponse)
  else ret tt.

(** The error step 6 ends with for a given outcome of the PATCH, if any. *)
Definition update_failure (res : Outcome (Response GitHubRef)) : option Thrown :=
  match res with
  | Threw fetchError => Some (network_error fetchError)
  | Returned updateRefResponse =>
      if ok updateRefResponse then None else Some (update_rejected_error updateRefResponse)
  end.

(** The outer [catch] of both tools (lines 311-327 and 557-573); [tool] is
    ["commit"] or ["delete"]. *)
Definition rethrow_normalized {A} (tool : string) (error : Thrown) : M S A :=
  let errorMessage :=
    if instanceof_Error error then default "" (err_message error) else to_String error in
  if negb (truthy errorMessage) || String.eqb errorMessage "undefined"
     || String.eqb errorMessage "[object Object]" then
    let fallbackMessage :=
      match instanceof_Error error, err_stack error with
      | true, Some stack =>
          if truthy stack then "Failed to " +:+ tool +:+ " files: " +:+ first_line stack
          else "Failed to " +:+ tool +:+ " files: Unknown error occurred"
      | _, _ => "Failed to " +:+ tool +:+ " files: Unknown error occurred"
      end in
    throw (new_Error fallbackMessage)
  else throw (new_Error errorMessage).

(** *** [commit_files] *)

Record CommitSummary := {
  cs_sha : string;
  cs_message : string;
  cs_author : string;
  cs_date : string
}.

(** [simplifiedResult], the object serialised into the tool's reply. *)
Record CommitFilesResult := {
  cf_commit : CommitSummary;
  cf_files : list string;
  cf_tree_sha : string
}.

(** [files.map(...)], lines 102-107 *)
Definition processedFile (filePath : string) : string :=
  if startsWith filePath "/" then slice 1 filePath else filePath.

(** lines 148-150 *)
Definition fullPath (filePath : string) : string :=
  if startsWith filePath "/" then filePath else join h (REPO_DIR (env h)) filePath.

(** The callback mapped over [processedFiles] in step 3, lines 147-164. *)
Definition read_tree_entry (filePath : string) : Outcome TreeEntry :=
  match readFile h (fullPath filePath) with
  | Returned text =>
      Returned {| entry_path := filePath; entry_mode := "100644"; entry_type := "blob";
                  entry_blob := content text |}
  | Threw error =>
      Threw (new_Error ("Failed to read file '" +:+ fullPath filePath +:+ "': "
                        +:+ message_or_value error))
  end.

Definition commit_files_try (files : list string) (message : string)
  : M S CommitFilesResult :=
  let* githubToken := githubToken_required in
  let processedFiles := map processedFile files in
  let* baseSha := get_branch_reference githubToken in
  let* baseTreeSha := get_base_commit githubToken baseSha in
  (* 3. Create tree entries for all files *)
  let* treeEntries := await (Promise_all (map read_tree_entry processedFiles)) in
  let* treeData := create_tree githubToken baseTreeSha treeEntries in
  let* newCommitData := create_commit githubToken message (tree_sha treeData) baseSha in
  let* _ := update_reference githubToken (nc_sha newCommitData) in
  ret {| cf_commit := {| cs_sha := nc_sha newCommitData;
                         cs_message := nc_message newCommitData;
                         cs_author := nc_author_name newCommitData;
                         cs_date := nc_author_date newCommitData |};
         cf_files := processedFiles;
         cf_tree_sha := tree_sha treeData |}.

Definition commit_files (files : list string) (message : string) : M S CommitFilesResult :=
  try_catch (commit_files_try files message) (rethrow_normalized "commit").

(** *** [delete_files] *)

Record DeleteFilesResult := {
  df_commit : CommitSummary;
  df_deletedFiles : list string;
  df_tree_sha : string
}.

Definition path_error (filePath : string) : Thrown :=
  new_Error ("Path '" +:+ filePath +:+
    "' must be relative to repository root or within current working directory").

(** The callback of [paths.map(...)], lines 355-367. *)
Definition processedPath (filePath : string) : Outcome string :=
  if startsWith filePath "/" then
    if startsWith filePath (cwd (env h)) then
      Returned (slice (String.length (cwd (env h)) + 1) filePath)
    else Threw (path_error filePath)
  else Returned filePath.

(** [Array.prototype.map] with a callback that may throw: the first throw,
    in list order, ends the loop. *)
Fixpoint map_throwing {A B} (f : A -> Outcome B) (l : list A) : Outcome (list B) :=
  match l with
  | [] => Returned []
  | x :: l' =>
      match f x with
      | Threw t => Threw t
      | Returned y =>
          match map_throwing f l' with
          | Threw t => Threw t
          | Returned ys => Returned (y :: ys)
          end
      end
  end.

(** lines 406-411 *)
Definition deletion_entry (path : string) : TreeEntry :=
  {| entry_path := path; entry_mode := "100644"; entry_type := "blob";
     entry_blob := sha_null |}.

Definition delete_files_try (paths : list string) (message : string)
  : M S DeleteFilesResult :=
  let* githubToken := githubToken_required in
  let* processedPaths := await (map_throwing processedPath paths) in
  let* baseSha := get_branch_reference githubToken in
  let* baseTreeSha := get_base_commit githubToken baseSha in
  (* 3. Create tree entries for file deletions (setting SHA to null) *)
  let treeEntries := map deletion_entry processedPaths in
  let* treeData := create_tree githubToken baseTreeSha treeEntries in
  let* newCommitData := create_commit githubToken message (tree_sha treeData) baseSha in
  let* _ := update_reference githubToken (nc_sha newCommitData) in
  ret {| df_commit := {| cs_sha := nc_sha newCommitData;
                         cs_message := nc_message newCommitData;
                         cs_author := nc_author_name newCommitData;
                         cs_date := nc_author_date newCommitData |};
         df_deletedFiles := processedPaths;
         df_tree_sha := tree_sha treeData |}.

Definition delete_files (paths : list string) (message : string) : M S DeleteFilesResult :=
  try_catch (delete_files_try paths message) (rethrow_normalized "delete").

End Handlers.

(** ** Transcripts of completed runs

    What the remote answered at each of the five calls of a run that went
    through, and the JSON each reply decoded to. *)
Record Transcript := {
  refResponse : Response GitHubRef;
  refData : GitHubRef;
  commitResponse : Response GitHubCommit;
  commitData : GitHubCommit;
  treeEntries : list TreeEntry;
  treeResponse : Response GitHubTree;
  treeData : GitHubTree;
  newCommitResponse : Response GitHubNewCommit;
  newCommitData : GitHubNewCommit;
  updateRefResponse : Response GitHubRef
}.

Definition baseSha (t : Transcript) : string := ref_object_sha (refData t).
Definition baseTreeSha (t : Transcript) : string := commit_tree_sha (commitData t).

(** Every reply was a success and decoded to the recorded JSON. *)
Definition acknowledged (t : Transcript) : Prop :=
  (ok (refResponse t) = true /\ json (refResponse t) = Returned (refData t)) /\
  (ok (commitResponse t) = true /\ json (commitResponse t) = Returned (commitData t)) /\
  (ok (treeResponse t) = true /\ json (treeResponse t) = Returned (treeData t)) /\
  (ok (newCommitResponse t) = true /\
   json (newCommitResponse t) = Returned (newCommitData t)) /\
  ok (updateRefResponse t) = true.

(** The five exchanges of a completed run, in order. *)
Definition exchanges {S} (h : Host S) (githubToken message : string) (t : Transcript)
  : list Exchange :=
  [ Exch EGetRef (ref_request h githubToken) (Returned (refResponse t));
    Exch EGetCommit (commit_request h githubToken (baseSha t))
      (Returned (commitResponse t));
    Exch EPostTree (tree_request h githubToken (baseTreeSha t) (treeEntries t))
      (Returned (treeResponse t));
    Exch EPostCommit
      (new_commit_request h githubToken message (tree_sha (treeData t)) (baseSha t))
      (Returned (newCommitResponse t));
    Exch EPatchRef (update_ref_request h githubToken (nc_sha (newCommitData t)))
      (Returned (updateRefResponse t)) ].

Definition summary (t : Transcript) : CommitSummary :=
  {| cs_sha := nc_sha (newCommitData t);
     cs_message := nc_message (newCommitData t);
     cs_author := nc_author_name (newCommitData t);
     cs_date := nc_author_date (newCommitData t) |}.

(** The entry [commit_files] submits for a path whose file holds [text]. *)
Definition blob_entry (path text : string) : TreeEntry :=
  {| entry_path := path; entry_mode := "100644"; entry_type := "blob";
     entry_blob := content text |}.

(** ** The remote's tree arithmetic *)

(** Modelled from the spec: the remote computes a tree from a base tree and
    a list of entries (data model, Tree): the new tree inherits every entry
    of the base that is not overridden, an entry with content sets its
    path, and an entry with a null sha deletes its path.  A tree is a map
    from paths to file contents. *)
Definition overlay_entry (tree : gmap string string) (e : TreeEntry) : gmap string string :=
  match entry_blob e with
  | content text => <[entry_path e := text]> tree
  | sha_null => delete (entry_path e) tree
  end.

Definition overlay (base : gmap string string) (entries : list TreeEntry)
  : gmap string string :=
  foldl overlay_entry base entries.

(** ** The server: its two registered tools *)

Inductive ToolCall :=
| commit_files_call (files : list string) (message : string)
| delete_files_call (paths : list string) (message : string).

Inductive ToolOutput :=
| commit_files_output (r : CommitFilesResult)
| delete_files_output (r : DeleteFilesResult).

Definition call_tool {S} (h : Host S) (call : ToolCall) : M S ToolOutput :=
  match call with
  | commit_files_call files message =>
      let* r := commit_files h files message in ret (commit_files_output r)
  | delete_files_call paths message =>
      let* r := delete_files h paths message in ret (delete_files_output r)
  end.

(** The commit sha a tool reports. *)
Definition output_sha (out : ToolOutput) : string :=
  match out with
  | commit_files_output r => cs_sha (cf_commit r)
  | delete_files_output r => cs_sha (df_commit r)
  end.

(** ** Observations on traces and errors *)

Definition is_PATCH (m : Method) : bool :=
  match m with PATCH => true | _ => false end.

Definition is_GET (m : Method) : bool :=
  match m with GET => true | _ => false end.

(** Some GET follows a PATCH: what a read-back of the reference after the
    update would leave in the trace. *)
Fixpoint reads_back (xs : list Exchange) : bool :=
  match xs with
  | [] => false
  | x :: rest =>
      if is_PATCH (method (exch_request x))
      then existsb (fun y => is_GET (method (exch_request y))) rest
      else reads_back rest
  end.

(** The string [s] occurs in one of the strings an error value holds. *)
Definition mentions (t : Thrown) (s : string) : bool :=
  includes (default "" (err_message t)) s
  || includes (default "" (err_stack t)) s
  || includes (to_String t) s.

(** ** A concrete host for worked examples

    The remote is scripted: it answers each of the five calls with a fixed
    outcome, whatever the request. *)

Record Script := {
  on_get_ref : Outcome (Response GitHubRef);
  on_get_commit : Outcome (Response GitHubCommit);
  on_post_tree : Outcome (Response GitHubTree);
  on_post_commit : Outcome (Response GitHubNewCommit);
  on_patch_ref : Outcome (Response GitHubRef)
}.

Definition scripted (sc : Script) (e : Endpoint) (s : unit) (req : Request)
  : Outcome (Response (payload e)) * unit :=
  (match e return Outcome (Response (payload e)) with
   | EGetRef => on_get_ref sc
   | EGetCommit => on_get_commit sc
   | EPostTree => on_post_tree sc
   | EPostCommit => on_post_commit sc
   | EPatchRef => on_patch_ref sc
   end, tt).

(** An [Error] object as the platform libraries throw them. *)
Definition library_error (message : string) : Thrown :=
  {| instanceof_Error := true;
     err_message := Some message;
     err_stack := Some ("Error: " +:+ message);
     to_String := "Error: " +:+ message |}.

(** A 2xx reply carrying JSON. *)
Definition reply {A} (code : nat) (data : A) : Response A :=
  {| ok := true; status := code; text := Returned ""; json := Returned data |}.

(** A non-2xx reply with a text body that is not JSON. *)
Definition refusal {A} (code : nat) (body : string) : Response A :=
  {| ok := false; status := code; text := Returned body;
     json := Threw (library_error "Unexpected token in JSON") |}.

Definition demo_env : Env :=
  {| GITHUB_API_URL := "https://api.github.com";
     GITHUB_TOKEN := Some "ghs_secret";
     REPO_OWNER := "octo";
     REPO_NAME := "demo";
     BRANCH_NAME := "main";
     REPO_DIR := "/repo";
     cwd := "/repo" |}.

(** The local disk of the examples: two files. *)
Definition demo_readFile (path : string) : Outcome string :=
  if String.eqb path "/repo/README.md" then Returned "# demo"
  else if String.eqb path "/etc/hosts" then Returned "127.0.0.1 localhost"
  else Threw (library_error ("ENOENT: no such file or directory, open '" +:+ path +:+ "'")).

(** A remote on which every call succeeds. *)
Definition happy : Script :=
  {| on_get_ref := Returned (reply 200 {| ref_object_sha := "base1" |});
     on_get_commit := Returned (reply 200 {| commit_tree_sha := "tree0" |});
     on_post_tree := Returned (reply 201 {| tree_sha := "tree1" |});
     on_post_commit := Returned (reply 201
       {| nc_sha := "c2"; nc_message := "update docs";
          nc_author_name := "bot"; nc_author_date := "2025-01-01T00:00:00Z" |});
     on_patch_ref := Returned (reply 200 {| ref_object_sha := "c2" |}) |}.

(** The remote answers the reference update with a server fault. *)
Definition update_500 : Script :=
  {| on_get_ref := on_get_ref happy;
     on_get_commit := on_get_commit happy;
     on_post_tree := on_post_tree happy;
     on_post_commit := on_post_commit happy;
     on_patch_ref := Returned (refusal 500 "Internal Server Error") |}.

(** The reference update never reaches the remote. *)
Definition update_unreachable : Script :=
  {| on_get_ref := on_get_ref happy;
     on_get_commit := on_get_commit happy;
     on_post_tree := on_post_tree happy;
     on_post_commit := on_post_commit happy;
     on_patch_ref := Threw (library_error "socket hang up") |}.

(** The branch does not exist. *)
Definition no_branch : Script :=
  {| on_get_ref := Returned (refusal 404 "Not Found");
     on_get_commit := on_get_commit happy;
     on_post_tree := on_post_tree happy;
     on_post_commit := on_post_commit happy;
     on_patch_ref := on_patch_ref happy |}.

(** The first call rejects with an error whose message is empty. *)
Definition silent_failure : Script :=
  {| on_get_ref := Threw
       {| instanceof_Error := true;
          err_message := Some "";
          err_stack := Some ("FetchError" +:+ String newline "    at ClientRequest");
          to_String := "FetchError" |};
     on_get_commit := on_get_commit happy;
     on_post_tree := on_post_tree happy;
     on_post_commit := on_post_commit happy;
     on_patch_ref := on_patch_ref happy |}.

(** Runs of slashes collapsed into one. *)
Fixpoint collapse_slashes (s : string) : string :=
  match s with
  | EmptyString => EmptyString
  | String c rest =>
      match rest with
      | String c' _ =>
          if Ascii.eqb c "/" && Ascii.eqb c' "/" then collapse_slashes rest
          else String c (collapse_slashes rest)
      | EmptyString => String c EmptyString
      end
  end.

(** [path.join(dir, p)] on POSIX, for a non-empty [dir] and arguments
    without [.] and [..] segments: the two joined by a slash and
    normalised. *)
Definition posix_join (dir p : string) : string :=
  if String.eqb p "" then collapse_slashes dir
  else collapse_slashes (dir +:+ "/" +:+ p).

Definition demo_host (sc : Script) (e : Env) : Host unit :=
  {| env := e;
     join := posix_join;
     readFile := demo_readFile;
     race := 0;
     capture_stack := fun message => Some ("Error: " +:+ message);
     respond := scripted sc |}.

Definition fresh : World unit := {| remote := tt; trace := [] |}.

(** ** The remote's rule for reference updates *)

Section ReferenceRule.
Context {S : Type} (tip : S -> string) (parents : S -> string -> list string).

(** [in_history s a c]: in the remote state [s], commit [a] is [c] or lies
    on the parent chain of [c]. *)
Inductive in_history (s : S) (a : string) : string -> Prop :=
| history_here : in_history s a a
| history_parent c p : p ∈ parents s c -> in_history s a p -> in_history s a c.

(** Modelled from the spec: the invariant of a Reference in the data model.
    An update must supply the sha of a commit whose parent chain includes
    the reference's current value, or the remote rejects it (fast-forward
    only, no force).  [tip] reads the branch reference off the remote's
    state and [parents] the parents of a commit; a rejected update leaves
    the state as it was. *)
Definition fast_forward_only (h : Host S) : Prop :=
  forall s req sha,
    body req = Some (RefBody sha false) ->
    ~ in_history s (tip s) sha ->
    exists resp, respond h EPatchRef s req = (Returned resp, s) /\ ok resp = false.

End ReferenceRule.

(** A remote that keeps the branch reference and the parents of the commits
    it knows, applies the rule above to reference updates, records the
    parents of each commit it creates, and otherwise answers from a
    script. *)
Record Repo := {
  repo_tip : string;
  repo_parents : gmap string (list string)
}.

Definition parents_of (s : Repo) (c : string) : list string :=
  default [] (repo_parents s !! c).

Fixpoint reachable (fuel : nat) (s : Repo) (a c : string) : bool :=
  String.eqb a c ||
  match fuel with
  | O => false
  | Datatypes.S n => existsb (reachable n s a) (parents_of s c)
  end.

Definition repo_respond (sc : Script) (e : Endpoint) (s : Repo) (req : Request)
  : Outcome (Response (payload e)) * Repo :=
  match e return Outcome (Response (payload e)) * Repo with
  | EGetRef => (on_get_ref sc, s)
  | EGetCommit => (on_get_commit sc, s)
  | EPostTree => (on_post_tree sc, s)
  | EPostCommit =>
      match body req, on_post_commit sc with
      | Some (CommitBody _ _ ps), Returned resp =>
          match json resp with
          | Returned created =>
              (Returned resp,
               {| repo_tip := repo_tip s;
                  repo_parents := <[nc_sha created := ps]> (repo_parents s) |})
          | Threw _ => (Returned resp, s)
          end
      | _, res => (res, s)
      end
  | EPatchRef =>
      match body req with
      | Some (RefBody sha force) =>
          if force || reachable (size (repo_parents s)) s (repo_tip s) sha
          then (Returned (reply 200 {| ref_object_sha := sha |}),
                {| repo_tip := sha; repo_parents := repo_parents s |})
          else (Returned (refusal 422 "Update is not a fast forward"), s)
      | _ => (Returned (refusal 422 "Invalid request"), s)
      end
  end.

Definition repo_host (sc : Script) (e : Env) : Host Repo :=
  {| env := e;
     join := posix_join;
     readFile := demo_readFile;
     race := 0;
     capture_stack := fun message => Some ("Error: " +:+ message);
     respond := repo_respond sc |}.

(** The branch was at [base1] when step 1 read it; since then another
    writer has put the commit [x9] on top of it. *)
Definition moved_on : World Repo :=
  {| remote := {| repo_tip := "x9";
                  repo_parents := {[ "x9" := ["base1"]; "base1" := [] ]} |};
     trace := [] |}.

(** The same remote once step 5 has created the commit [c2] on [base1]. *)
Definition moved_on_with_commit : World Repo :=
  {| remote := {| repo_tip := "x9";
                  repo_parents :=
                    {[ "c2" := ["base1"]; "x9" := ["base1"]; "base1" := [] ]} |};
     trace := [] |}.

(** ** Where the protocol can stop

    The exchanges made by steps 1 and 2, with the base commit and base tree
    shas when both succeeded; and the exchanges made by steps 4 to 6 for
    given tree entries, with the outcome of the PATCH and the created tree
    and commit when step 6 was reached. *)

Definition is_Threw {A} (r : Outcome A) : Prop :=
  match r with Threw _ => True | Returned _ => False end.

(** A call that did not produce decoded JSON from a 2xx reply. *)
Definition declined {A} (res : Outcome (Response A)) : Prop :=
  match res with
  | Threw _ => True
  | Returned resp => ok resp = false \/ is_Threw (json resp)
  end.

Definition exch_declined (x : Exchange) : Prop :=
  match x with Exch _ _ res => declined res end.

Inductive ReadsEnd {S} (h : Host S) (githubToken : string)
  : list Exchange -> option (string * string) -> Prop :=
| reads_ref_failed res1 :
    declined res1 ->
    ReadsEnd h githubToken [Exch EGetRef (ref_request h githubToken) res1] None
| reads_commit_failed resp1 refD res2 :
    ok resp1 = true -> json resp1 = Returned refD ->
    declined res2 ->
    ReadsEnd h githubToken
      [Exch EGetRef (ref_request h githubToken) (Returned resp1);
       Exch EGetCommit (commit_request h githubToken (ref_object_sha refD)) res2] None
| reads_done resp1 refD resp2 commitD :
    ok resp1 = true -> json resp1 = Returned refD ->
    ok resp2 = true -> json resp2 = Returned commitD ->
    ReadsEnd h githubToken
      [Exch EGetRef (ref_request h githubToken) (Returned resp1);
       Exch EGetCommit (commit_request h githubToken (ref_object_sha refD))
         (Returned resp2)]
      (Some (ref_object_sha refD, commit_tree_sha commitD)).

Inductive WritesEnd {S} (h : Host S) (githubToken message base baseTree : string)
  (entries : list TreeEntry)
  : list Exchange ->
    option (Outcome (Response GitHubRef) * GitHubTree * GitHubNewCommit) -> Prop :=
| writes_tree_failed res3 :
    declined res3 ->
    WritesEnd h githubToken message base baseTree entries
      [Exch EPostTree (tree_request h githubToken baseTree entries) res3] None
| writes_commit_failed resp3 treeD res4 :
    declined res4 ->
    WritesEnd h githubToken message base baseTree entries
      [Exch EPostTree (tree_request h githubToken baseTree entries) (Returned resp3);
       Exch EPostCommit (new_commit_request h githubToken message (tree_sha treeD) base)
         res4] None
| writes_update resp3 treeD resp4 newCommitD res5 :
    WritesEnd h githubToken message base baseTree entries
      [Exch EPostTree (tree_request h githubToken baseTree entries) (Returned resp3);
       Exch EPostCommit (new_commit_request h githubToken message (tree_sha treeD) base)
         (Returned resp4);
       Exch EPatchRef (update_ref_request h githubToken (nc_sha newCommitD)) res5]
      (Some (res5, treeD, newCommitD)).

(** The outcome of an exchange when it is the reference update. *)
Definition update_outcome (x : Exchange) : option (Outcome (Response GitHubRef)) :=
  match x with
  | Exch EPatchRef _ res => Some res
  | Exch _ _ _ => None
  end.

(** An exchange that is not the reference update and carries no
    reference-update body. *)
Definition quiet (x : Exchange) : Prop :=
  update_outcome x = None /\
  is_PATCH (method (exch_request x)) = false /\
  forall sha force, body (exch_request x) <> Some (RefBody sha force).

(** The two shapes a run's exchanges can have: the run threw before step 6,
    or its last exchange is the reference update, whose outcome decides
    the result. *)
Inductive RunShape {S} (h : Host S) {A} : list Exchange -> Outcome A -> Prop :=
| shape_stopped xs t :
    Forall quiet xs -> RunShape h xs (Threw t)
| shape_update pre githubToken sha res5 r :
    Forall quiet pre ->
    match update_failure h res5 with
    | Some t => r = Threw t
    | None => exists a, r = Returned a
    end ->
    RunShape h (pre ++ [Exch EPatchRef (update_ref_request h githubToken sha) res5]) r.

(** * Further observations on the two tools *)

Definition exch_endpoint (x : Exchange) : Endpoint :=
  match x with Exch e _ _ => e end.

(** The five calls in the order the tools make them. *)
Definition protocol : list Endpoint :=
  [EGetRef; EGetCommit; EPostTree; EPostCommit; EPatchRef].

Definition tool_name (call : ToolCall) : string :=
  match call with
  | commit_files_call _ _ => "commit"
  | delete_files_call _ _ => "delete"
  end.

Section CallFailures.
Context {S : Type} (h : Host S).

(** What steps 1 and 2 throw for an outcome of their call: the rejection of
    [fetch], the stage error for a non-2xx status, or the rejection of
    [json()]; nothing when the reply decodes. *)
Definition read_failure (stage : string) {A} (res : Outcome (Response A)) : option Thrown :=
  match res with
  | Threw t => Some t
  | Returned resp =>
      if ok resp then
        match json resp with
        | Threw t => Some t
        | Returned _ => None
        end
      else Some (new_Error h ("Failed to " +:+ stage +:+ ": " +:+ pretty (status resp)))
  end.

(** The same for steps 4 and 5, whose stage error also quotes the body. *)
Definition write_failure (stage : string) {A} (res : Outcome (Response A)) : option Thrown :=
  match res with
  | Threw t => Some t
  | Returned resp =>
      if ok resp then
        match json resp with
        | Threw t => Some t
        | Returned _ => None
        end
      else
        match text resp with
        | Returned errorText =>
            Some (new_Error h ("Failed to " +:+ stage +:+ ": " +:+ pretty (status resp)
                               +:+ " - " +:+ errorText))
        | Threw t => Some t
        end
  end.

(** What the step that made an exchange throws for it, if anything. *)
Definition exch_failure (x : Exchange) : option Thrown :=
  match x with
  | Exch EGetRef _ res => read_failure "get branch reference" res
  | Exch EGetCommit _ res => read_failure "get base commit" res
  | Exch EPostTree _ res => write_failure "create tree" res
  | Exch EPostCommit _ res => write_failure "create commit" res
  | Exch EPatchRef _ res => update_failure h res
  end.

(** A request as every step builds it: the three headers of lines 112-116,
    a URL below the repository's git database, and a JSON body exactly
    when the method is not GET. *)
Definition proper_request (githubToken : string) (x : Exchange) : Prop :=
  let req := exch_request x in
  ("Accept", "application/vnd.github+json") ∈ headers req /\
  ("Authorization", "Bearer " +:+ githubToken) ∈ headers req /\
  ("X-GitHub-Api-Version", "2022-11-28") ∈ headers req /\
  startsWith (url req)
    (GITHUB_API_URL (env h) +:+ "/repos/" +:+ REPO_OWNER (env h) +:+ "/"
     +:+ REPO_NAME (env h) +:+ "/git/") = true /\
  match method req with
  | GET => body req = None
  | _ => ("Content-Type", "application/json") ∈ headers req /\ body req <> None
  end.

(** The exchanges [new] of a run with outcome [r] follow a list [es] of
    calls: they are a prefix of it, each satisfies [P], none but the last
    failed, a failed last one decides the outcome, and a run that returns
    made them all. *)
Definition Orderly (P : Exchange -> Prop) (es : list Endpoint)
    (new : list Exchange) {A} (r : Outcome A) : Prop :=
  (exists n, n <= length es /\ map exch_endpoint new = take n es) /\
  Forall P new /\
  (forall i x, new !! i = Some x -> i + 1 < length new -> exch_failure x = None) /\
  (forall x t, last new = Some x -> exch_failure x = Some t -> r = Threw t) /\
  (forall a, r = Returned a ->
     map exch_endpoint new = es /\ Forall (fun x => exch_failure x = None) new).

Definition orderly_run (P : Exchange -> Prop) (es : list Endpoint) {A} (m : M S A) : Prop :=
  forall w r w', m w = (r, w') ->
  exists new, trace w' = trace w ++ new /\ Orderly P es new r.

End CallFailures.

(** The remote cannot be reached at all. *)
Definition offline : Script :=
  {| on_get_ref := Threw (library_error "getaddrinfo ENOTFOUND api.github.com");
     on_get_commit := on_get_commit happy;
     on_post_tree := on_post_tree happy;
     on_post_commit := on_post_commit happy;
     on_patch_ref := on_patch_ref happy |}.

(** The remote refuses the new tree. *)
Definition tree_refused : Script :=
  {| on_get_ref := on_get_ref happy;
     on_get_commit := on_get_commit happy;
     on_post_tree := Returned (refusal 422 "Unprocessable Entity");
     on_post_commit := on_post_commit happy;
     on_patch_ref := on_patch_ref happy |}.

(** The environment of a server started without a credential. *)
Definition anonymous_env : Env :=
  {| GITHUB_API_URL := "https://api.github.com";
     GITHUB_TOKEN := None;
     REPO_OWNER := "octo";
     REPO_NAME := "demo";
     BRANCH_NAME := "main";
     REPO_DIR := "/repo";
     cwd := "/repo" |}.

(** * The prepare entrypoint and the provider checks

    [src/entrypoints/prepare.ts] and the three functions of
    [github/validation/provider].  The functions [run] imports from other
    modules are taken as they are given: each is an operation of the
    outside world that answers or rejects, and may change that world.  What
    [run] itself does is recorded in a journal: the lines it logs, the
    imported functions it calls with the arguments that are plain data and
    what they answered, the action output it sets, the failure it reports
    and the exit of the process. *)

(** [a || b] for an environment variable [a] and a string [b] *)
Definition or_else (a : option string) (b : string) : string :=
  match a with
  | Some s => if truthy s then s else b
  | None => b
  end.

(** [process.env.NAME === value] *)
Definition env_is (penv : gmap string string) (name value : string) : bool :=
  match penv !! name with
  | Some s => String.eqb s value
  | None => false
  end.

(** What [setupBranch] resolves to, as far as [run] reads it. *)
Record BranchInfo := {
  claudeBranch : option string;
  defaultBranch : string;
  currentBranch : string
}.

Inductive PrepareCall :=
| SetupGitHubToken
| CreateOctokit (githubToken : string)
| ParseGitHubContext
| CheckWritePermissions
| CheckTriggerAction
| CheckHumanActor
| CreateInitialComment
| FetchGitHubData (repository prNumber : string) (isPR : bool)
| SetupBranch
| UpdateTrackingComment (commentId : nat) (claudeBranch : string)
| CreatePrompt (commentId : nat) (defaultBranch : string) (claudeBranch : option string)
| PrepareMcpConfig (githubToken owner repo currentBranch : string).

(** What a call answered, as far as it is plain data. *)
Inductive Answer :=
| AUnit
| ABool (b : bool)
| AString (s : string)
| ANumber (n : nat)
| ABranch (info : BranchInfo)
| AObject.

Inductive Event :=
| Log (line : string)
| Called (c : PrepareCall) (res : Outcome Answer)
| SetOutput (name value : string)
| SetFailed (message : string)
| Exit (code : nat).

(** How the process ends: the promise of [run] resolves, or [process.exit]. *)
Inductive Ending := Resolved | Exited (code : nat).

(** The imported functions a call went to, in order. *)
Definition calls (evs : list Event) : list PrepareCall :=
  omap (fun e => match e with Called c _ => Some c | _ => None end) evs.

(** The calls that rejected, with what they rejected with. *)
Definition rejected (evs : list Event) : list (PrepareCall * Thrown) :=
  omap (fun e => match e with Called c (Threw t) => Some (c, t) | _ => None end) evs.

(** The state of a run: the world outside and the journal of what the run
    did so far, a list of events of type [E]. *)
Record Job (W E : Type) := {
  outside : W;
  journal : list E
}.
Arguments outside {W E} _.
Arguments journal {W E} _.

Definition Act (W E A : Type) : Type := Job W E -> Outcome A * Job W E.

Definition act_ret {W E A} (a : A) : Act W E A := fun j => (Returned a, j).

Definition act_throw {W E A} (t : Thrown) : Act W E A := fun j => (Threw t, j).

Definition act_bind {W E A B} (m : Act W E A) (k : A -> Act W E B) : Act W E B :=
  fun j =>
    match m j with
    | (Returned a, j') => k a j'
    | (Threw t, j') => (Threw t, j')
    end.

Notation "'do*' x ':=' m 'in' k" := (act_bind m (fun x => k))
  (at level 10, x name, m at level 100, k at level 200).

Definition emit {W E} (e : E) : Act W E unit :=
  fun j => (Returned tt, {| outside := outside j; journal := journal j ++ [e] |}).

(** A call of an imported function [f], entered in the journal with what it
    answered, [shown] as plain data. *)
Definition invoke {W A} (c : PrepareCall) (shown : A -> Answer)
    (f : W -> Outcome A * W) : Act W Event A :=
  fun j =>
    let '(res, s) := f (outside j) in
    (res, {| outside := s;
             journal := journal j ++
               [Called c match res with
                         | Returned a => Returned (shown a)
                         | Threw t => Threw t
                         end] |}).

(** The imported functions, the environment of the process and the fields
    of the parsed context that [run] reads. *)
Record Imports (W Octokit GitHubContext GitHubData : Type) := {
  process_env : gmap string string;
  stack_of : string -> option string;
  repository_owner : GitHubContext -> string;
  repository_repo : GitHubContext -> string;
  entityNumber_toString : GitHubContext -> string;
  context_isPR : GitHubContext -> bool;
  setupGitHubToken : W -> Outcome string * W;
  createOctokit : string -> W -> Outcome Octokit * W;
  parseGitHubContext : W -> Outcome GitHubContext * W;
  checkWritePermissions : Octokit -> GitHubContext -> W -> Outcome bool * W;
  checkTriggerAction : GitHubContext -> W -> Outcome bool * W;
  checkHumanActor : Octokit -> GitHubContext -> W -> Outcome unit * W;
  createInitialComment : Octokit -> GitHubContext -> W -> Outcome nat * W;
  fetchGitHubData :
    Octokit -> string -> string -> bool -> W -> Outcome GitHubData * W;
  setupBranch : Octokit -> GitHubData -> GitHubContext -> W -> Outcome BranchInfo * W;
  updateTrackingComment :
    Octokit -> GitHubContext -> nat -> string -> W -> Outcome unit * W;
  createPrompt :
    nat -> string -> option string -> GitHubData -> GitHubContext -> W
    -> Outcome unit * W;
  prepareMcpConfig : string -> string -> string -> string -> W -> Outcome string * W
}.
Arguments process_env {W Octokit GitHubContext GitHubData} _.
Arguments stack_of {W Octokit GitHubContext GitHubData} _ _.
Arguments repository_owner {W Octokit GitHubContext GitHubData} _ _.
Arguments repository_repo {W Octokit GitHubContext GitHubData} _ _.
Arguments entityNumber_toString {W Octokit GitHubContext GitHubData} _ _.
Arguments context_isPR {W Octokit GitHubContext GitHubData} _ _.
Arguments setupGitHubToken {W Octokit GitHubContext GitHubData} _ _.
Arguments createOctokit {W Octokit GitHubContext GitHubData} _ _ _.
Arguments parseGitHubContext {W Octokit GitHubContext GitHubData} _ _.
Arguments checkWritePermissions {W Octokit GitHubContext GitHubData} _ _ _ _.
Arguments checkTriggerAction {W Octokit GitHubContext GitHubData} _ _ _.
Arguments checkHumanActor {W Octokit GitHubContext GitHubData} _ _ _ _.
Arguments createInitialComment {W Octokit GitHubContext GitHubData} _ _ _ _.
Arguments fetchGitHubData {W Octokit GitHubContext GitHubData} _ _ _ _ _ _.
Arguments setupBranch {W Octokit GitHubContext GitHubData} _ _ _ _ _.
Arguments updateTrackingComment {W Octokit GitHubContext GitHubData} _ _ _ _ _ _.
Arguments createPrompt {W Octokit GitHubContext GitHubData} _ _ _ _ _ _ _.
Arguments prepareMcpConfig {W Octokit GitHubContext GitHubData} _ _ _ _ _ _.

Section PrepareEntrypoint.
Context {W Octokit GitHubContext GitHubData : Type}.
Context (I : Imports W Octokit GitHubContext GitHubData).

(** [new Error(message)] *)
Definition Error_of (message : string) : Thrown :=
  {| instanceof_Error := true;
     err_message := Some message;
     err_stack := stack_of I message;
     to_String := if truthy message then "Error: " +:+ message else "Error" |}.

Definition multiple_providers_message : string :=
  "Cannot use multiple authentication methods simultaneously. Please set only one of: use_bedrock, use_vertex, or use_max_plan.".

Definition github_hosted_message : string :=
  "Max plan authentication requires a self-hosted runner. GitHub-hosted runners do not have persistent authentication state. "
  +:+ "Please set up a self-hosted runner with pre-authenticated Claude Code.".

(** At least two of the three provider switches are set to ["true"]. *)
Definition several_providers : Prop :=
  (process_env I !! "USE_BEDROCK" = Some "true" /\
   process_env I !! "USE_VERTEX" = Some "true") \/
  (process_env I !! "USE_BEDROCK" = Some "true" /\
   process_env I !! "USE_MAX_PLAN" = Some "true") \/
  (process_env I !! "USE_VERTEX" = Some "true" /\
   process_env I !! "USE_MAX_PLAN" = Some "true").

(** [validateProviderSelection()] *)
Definition validateProviderSelection : Act W Event unit :=
  let useBedrock := env_is (process_env I) "USE_BEDROCK" "true" in
  let useVertex := env_is (process_env I) "USE_VERTEX" "true" in
  let useMaxPlan := env_is (process_env I) "USE_MAX_PLAN" "true" in
  let providersCount :=
    length (List.filter (fun b : bool => b) [useBedrock; useVertex; useMaxPlan]) in
  if 1 <? providersCount then act_throw (Error_of multiple_providers_message)
  else if useMaxPlan then
    emit (Log "Using Max plan authentication. Ensure Claude Code is pre-authenticated on this self-hosted runner.")
  else if useBedrock then emit (Log "Using AWS Bedrock authentication.")
  else if useVertex then emit (Log "Using Google Vertex AI authentication.")
  else emit (Log "Using direct Anthropic API authentication.").

(** [isUsingMaxPlan()] *)
Definition isUsingMaxPlan : bool := env_is (process_env I) "USE_MAX_PLAN" "true".

(** [validateMaxPlanRunner()] *)
Definition validateMaxPlanRunner : Act W Event unit :=
  if negb isUsingMaxPlan then act_ret tt
  else
    if env_is (process_env I) "RUNNER_ENVIRONMENT" "github-hosted" then
      act_throw (Error_of github_hosted_message)
    else emit (Log "Running on self-hosted runner with Max plan authentication.").

(** The [try] block of [run], lines 29-114. *)
Definition run_try : Act W Event unit :=
  (* Step 1: Validate provider selection *)
  do* _ := validateProviderSelection in
  do* _ := validateMaxPlanRunner in
  (* Step 2: Setup GitHub token *)
  do* githubToken :=
    (if isUsingMaxPlan then
       let githubToken :=
         or_else (process_env I !! "OVERRIDE_GITHUB_TOKEN")
                 (or_else (process_env I !! "GITHUB_TOKEN") "") in
       if negb (truthy githubToken) then
         act_throw (Error_of "GitHub token is required when using Max plan authentication")
       else act_ret githubToken
     else invoke SetupGitHubToken AString (setupGitHubToken I)) in
  do* octokit :=
    invoke (CreateOctokit githubToken) (fun _ => AObject) (createOctokit I githubToken) in
  (* Step 3: Parse GitHub context *)
  do* context := invoke ParseGitHubContext (fun _ => AObject) (parseGitHubContext I) in
  (* Step 4: Check write permissions *)
  do* hasWritePermissions :=
    invoke CheckWritePermissions ABool (checkWritePermissions I octokit context) in
  if negb hasWritePermissions then
    act_throw (Error_of "Actor does not have write permissions to the repository")
  else
  (* Step 5: Check trigger conditions *)
  do* containsTrigger := invoke CheckTriggerAction ABool (checkTriggerAction I context) in
  if negb containsTrigger then emit (Log "No trigger found, skipping remaining steps")
  else
  (* Step 6: Check if actor is human *)
  do* _ := invoke CheckHumanActor (fun _ => AUnit) (checkHumanActor I octokit context) in
  (* Step 7: Create initial tracking comment *)
  do* commentId :=
    invoke CreateInitialComment ANumber (createInitialComment I octokit context) in
  (* Step 8: Fetch GitHub data *)
  let repository := repository_owner I context +:+ "/" +:+ repository_repo I context in
  let prNumber := entityNumber_toString I context in
  do* githubData :=
    invoke (FetchGitHubData repository prNumber (context_isPR I context))
           (fun _ => AObject)
           (fetchGitHubData I octokit repository prNumber (context_isPR I context)) in
  (* Step 9: Setup branch *)
  do* branchInfo :=
    invoke SetupBranch ABranch (setupBranch I octokit githubData context) in
  (* Step 10: Update initial comment with branch link *)
  do* _ :=
    match claudeBranch branchInfo with
    | Some branch =>
        if truthy branch then
          invoke (UpdateTrackingComment commentId branch) (fun _ => AUnit)
                 (updateTrackingComment I octokit context commentId branch)
        else act_ret tt
    | None => act_ret tt
    end in
  (* Step 11: Create prompt file *)
  do* _ :=
    invoke (CreatePrompt commentId (defaultBranch branchInfo) (claudeBranch branchInfo))
           (fun _ => AUnit)
           (createPrompt I commentId (defaultBranch branchInfo) (claudeBranch branchInfo)
                         githubData context) in
  (* Step 12: Get MCP configuration *)
  do* mcpConfig :=
    invoke (PrepareMcpConfig githubToken (repository_owner I context)
                             (repository_repo I context) (currentBranch branchInfo))
           AString
           (prepareMcpConfig I githubToken (repository_owner I context)
                             (repository_repo I context) (currentBranch branchInfo)) in
  emit (SetOutput "mcp_config" mcpConfig).

(** [run()]: the [try] block and its [catch], lines 115-118. *)
Definition run (j : Job W Event) : Ending * Job W Event :=
  match run_try j with
  | (Returned _, j') => (Resolved, j')
  | (Threw error, j') =>
      (Exited 1,
       {| outside := outside j';
          journal := journal j' ++
            [SetFailed ("Prepare step failed with error: " +:+ to_String error);
             Exit 1] |})
  end.

End PrepareEntrypoint.

(** ** Scripted imports for worked examples

    Every imported function answers with a fixed outcome. *)

Record PrepareScript := {
  on_token : Outcome string;
  on_octokit : Outcome unit;
  on_context : Outcome unit;
  on_permissions : Outcome bool;
  on_trigger : Outcome bool;
  on_human : Outcome unit;
  on_comment : Outcome nat;
  on_data : Outcome unit;
  on_branch : Outcome BranchInfo;
  on_tracking : Outcome unit;
  on_prompt : Outcome unit;
  on_config : Outcome string
}.

Definition scripted_imports (penv : gmap string string) (sc : PrepareScript)
  : Imports unit unit unit unit :=
  {| process_env := penv;
     stack_of := fun message => Some ("Error: " +:+ message);
     repository_owner := fun _ => "octo";
     repository_repo := fun _ => "demo";
     entityNumber_toString := fun _ => "7";
     context_isPR := fun _ => false;
     setupGitHubToken := fun s => (on_token sc, s);
     createOctokit := fun _ s => (on_octokit sc, s);
     parseGitHubContext := fun s => (on_context sc, s);
     checkWritePermissions := fun _ _ s => (on_permissions sc, s);
     checkTriggerAction := fun _ s => (on_trigger sc, s);
     checkHumanActor := fun _ _ s => (on_human sc, s);
     createInitialComment := fun _ _ s => (on_comment sc, s);
     fetchGitHubData := fun _ _ _ _ s => (on_data sc, s);
     setupBranch := fun _ _ _ s => (on_branch sc, s);
     updateTrackingComment := fun _ _ _ _ s => (on_tracking sc, s);
     createPrompt := fun _ _ _ _ _ s => (on_prompt sc, s);
     prepareMcpConfig := fun _ _ _ _ s => (on_config sc, s) |}.

(** Everything succeeds, on an issue for which a branch is created. *)
Definition smooth : PrepareScript :=
  {| on_token := Returned "ghs_exchanged";
     on_octokit := Returned tt;
     on_context := Returned tt;
     on_permissions := Returned true;
     on_trigger := Returned true;
     on_human := Returned tt;
     on_comment := Returned 42;
     on_data := Returned tt;
     on_branch := Returned {| claudeBranch := Some "claude/issue-7";
                              defaultBranch := "main";
                              currentBranch := "claude/issue-7" |};
     on_tracking := Returned tt;
     on_prompt := Returned tt;
     on_config := Returned "{}" |}.

(** The actor may not write to the repository. *)
Definition read_only_actor : PrepareScript :=
  {| on_token := on_token smooth; on_octokit := on_octokit smooth;
     on_context := on_context smooth;
     on_permissions := Returned false;
     on_trigger := on_trigger smooth; on_human := on_human smooth;
     on_comment := on_comment smooth; on_data := on_data smooth;
     on_branch := on_branch smooth; on_tracking := on_tracking smooth;
     on_prompt := on_prompt smooth; on_config := on_config smooth |}.


(** The data of the issue cannot be fetched. *)
Definition data_unavailable : PrepareScript :=
  {| on_token := on_token smooth; on_octokit := on_octokit smooth;
     on_context := on_context smooth; on_permissions := on_permissions smooth;
     on_trigger := on_trigger smooth; on_human := on_human smooth;
     on_comment := on_comment smooth;
     on_data := Threw (library_error "Bad credentials");
     on_branch := on_branch smooth; on_tracking := on_tracking smooth;
     on_prompt := on_prompt smooth; on_config := on_config smooth |}.

Definition direct_api_env : gmap string string := ∅.

Definition max_plan_env : gmap string string :=
  {[ "USE_MAX_PLAN" := "true"; "GITHUB_TOKEN" := "ghp_workflow" ]}.

Definition max_plan_hosted_env : gmap string string :=
  {[ "USE_MAX_PLAN" := "true"; "RUNNER_ENVIRONMENT" := "github-hosted";
     "GITHUB_TOKEN" := "ghp_workflow" ]}.

Definition max_plan_no_token_env : gmap string string :=
  {[ "USE_MAX_PLAN" := "true"; "GITHUB_TOKEN" := "" ]}.

Definition two_providers_env : gmap string string :=
  {[ "USE_MAX_PLAN" := "true"; "USE_BEDROCK" := "true" ]}.

Definition fresh_job : Job unit Event := {| outside := tt; journal := [] |}.

(** * Start-up of the file operations server

    The top level of [github-file-ops-server.ts], lines 10 and 37-48: what
    the process reads from its environment before it registers the two
    tools. *)

(** [!value] for an environment variable *)
Definition unset (value : option string) : bool :=
  match value with
  | Some s => negb (truthy s)
  | None => true
  end.

(** The server goes on to serve tool calls in an environment, or the
    process exits with a code after a line on the error stream. *)
Inductive Startup :=
| Serving (e : Env)
| Stopped (code : nat) (error_line : string).

Definition start_server (penv : gmap string string) (process_cwd : string) : Startup :=
  let api_url := or_else (penv !! "GITHUB_API_URL") "https://api.github.com" in
  let repo_owner := penv !! "REPO_OWNER" in
  let repo_name := penv !! "REPO_NAME" in
  let branch_name := penv !! "BRANCH_NAME" in
  let repo_dir := or_else (penv !! "REPO_DIR") process_cwd in
  if unset repo_owner || unset repo_name || unset branch_name then
    Stopped 1
      "Error: REPO_OWNER, REPO_NAME, and BRANCH_NAME environment variables are required"
  else
    Serving {| GITHUB_API_URL := api_url;
               GITHUB_TOKEN := penv !! "GITHUB_TOKEN";
               REPO_OWNER := default "" repo_owner;
               REPO_NAME := default "" repo_name;
               BRANCH_NAME := default "" branch_name;
               REPO_DIR := repo_dir;
               cwd := process_cwd |}.

(** The environment of a server started with the three required variables
    only. *)
Definition minimal_env : gmap string string :=
  {[ "REPO_OWNER" := "octo"; "REPO_NAME" := "demo"; "BRANCH_NAME" := "main" ]}.

(** * The revert script

    [revert-test-commit.ts].  The replies of the remote are untyped JSON
    there, so the values the script takes out of them are kept abstract:
    reading a property, converting to a string inside a template, calling
    a method and comparing are operations of the runtime, and those that
    can throw return an outcome.  The journal of a run holds the requests
    sent, with what came back, and the lines printed. *)

Inductive Verb := VGET | VPATCH.

(** The JSON body the script sends: [{sha, force}]. *)
Inductive ScriptBody (Val : Type) :=
| BReset (sha : Val) (force : bool).
Arguments BReset {Val} sha force.

Record ScriptRequest (Val : Type) := {
  sr_method : Verb;
  sr_url : string;
  sr_headers : list (string * string);
  sr_body : option (ScriptBody Val)
}.
Arguments sr_method {Val} _.
Arguments sr_url {Val} _.
Arguments sr_headers {Val} _.
Arguments sr_body {Val} _.

Inductive ScriptEvent (Val : Type) :=
| Sent (req : ScriptRequest Val) (res : Outcome (Response Val))
| Printed (error_stream : bool) (line : string).
Arguments Sent {Val} req res.
Arguments Printed {Val} error_stream line.

(** The requests of a journal, in order. *)
Definition sent {Val} (evs : list (ScriptEvent Val))
  : list (ScriptRequest Val * Outcome (Response Val)) :=
  omap (fun e => match e with Sent req res => Some (req, res) | _ => None end) evs.

Record Runtime (S Val : Type) := {
  (** [fetch] *)
  answer : S -> ScriptRequest Val -> Outcome (Response Val) * S;
  (** [value.name] and [value[0]] *)
  prop : Val -> string -> Outcome Val;
  (** [`${value}`] *)
  template : Val -> Outcome string;
  (** [value.includes(text)] *)
  includes_call : Val -> string -> Outcome bool;
  (** [value === 0] *)
  is_zero : Val -> bool;
  (** [a === b] *)
  strictly_equal : Val -> Val -> bool;
  (** how [console.log] and [console.error] print a value that is not
      their first argument *)
  inspect : Val -> string;
  inspect_thrown : Thrown -> string
}.
Arguments answer {S Val} _ _ _.
Arguments prop {S Val} _ _ _.
Arguments template {S Val} _ _.
Arguments includes_call {S Val} _ _ _.
Arguments is_zero {S Val} _ _.
Arguments strictly_equal {S Val} _ _ _.
Arguments inspect {S Val} _ _.
Arguments inspect_thrown {S Val} _ _.

Definition act_catch {W E A} (m : Act W E A) (handler : Thrown -> Act W E A)
  : Act W E A :=
  fun j =>
    match m j with
    | (Returned a, j') => (Returned a, j')
    | (Threw t, j') => handler t j'
    end.

(** An operation of the runtime that touches nothing outside. *)
Definition lift {W E A} (o : Outcome A) : Act W E A := fun j => (o, j).

Definition double_quote : ascii := ascii_of_nat 34.

Definition quoted (s : string) : string :=
  String double_quote (s +:+ String double_quote "").

Definition nl : string := String newline "".

Definition test_commit_marker : string := "Debug: Test commit to reproduce 500 error".

(** [ReferenceError: name is not defined] *)

Section Scripts.
Context {S Val : Type} (R : Runtime S Val).

Definition send (req : ScriptRequest Val) : Act S (ScriptEvent Val) (Response Val) :=
  fun j =>
    let '(res, s) := answer R (outside j) req in
    (res, {| outside := s; journal := journal j ++ [Sent req res] |}).

(** [console.log(line)] and [console.error(line)] *)
Definition console_log (line : string) : Act S (ScriptEvent Val) unit :=
  emit (Printed false line).

Definition console_error (line : string) : Act S (ScriptEvent Val) unit :=
  emit (Printed true line).

(** [fetch(url, { headers })] *)
Definition get_request (token url : string) : ScriptRequest Val :=
  {| sr_method := VGET; sr_url := url; sr_headers := base_headers token;
     sr_body := None |}.

(** [fetch(url, { method, headers: {...headers, "Content-Type": ...}, body })] *)
Definition json_request (verb : Verb) (token url : string) (body : ScriptBody Val)
  : ScriptRequest Val :=
  {| sr_method := verb; sr_url := url; sr_headers := json_headers token;
     sr_body := Some body |}.

(** ** [revert-test-commit.ts] *)

Definition revert_repo_url : string :=
  "https://api.github.com" +:+ "/repos/" +:+ "anthropics" +:+ "/" +:+ "anthropic".

Definition revert_refUrl : string :=
  revert_repo_url +:+ "/git/refs/heads/" +:+ "monty/fixing-pipeline-runner".

Definition revert_ref_request (token : string) : ScriptRequest Val :=
  get_request token revert_refUrl.

Definition revert_commit_request (token currentSha : string) : ScriptRequest Val :=
  get_request token (revert_repo_url +:+ "/git/commits/" +:+ currentSha).

Definition revert_reset_request (token : string) (parentSha : Val) : ScriptRequest Val :=
  json_request VPATCH token revert_refUrl (BReset parentSha true).

(** The [try] block of [revertTestCommit], lines 21-99. *)
Definition revertTestCommit_try (token : string) : Act S (ScriptEvent Val) unit :=
  (* Get current branch state *)
  do* _ := console_log "Getting current branch reference..." in
  do* refResponse := send (revert_ref_request token) in
  if negb (ok refResponse) then
    console_error ("Failed to get branch: " +:+ pretty (status refResponse))
  else
  do* refData := lift (json refResponse) in
  do* refObject := lift (prop R refData "object") in
  do* currentSha := lift (prop R refObject "sha") in
  do* currentShaText := lift (template R currentSha) in
  do* _ := console_log ("Current branch SHA: " +:+ currentShaText) in
  (* Get the current commit to find its parent *)
  do* _ := console_log (String newline "Getting current commit details...") in
  do* currentShaInUrl := lift (template R currentSha) in
  do* commitResponse := send (revert_commit_request token currentShaInUrl) in
  if negb (ok commitResponse) then
    console_error ("Failed to get commit: " +:+ pretty (status commitResponse))
  else
  do* commitData := lift (json commitResponse) in
  do* message := lift (prop R commitData "message") in
  do* messageText := lift (template R message) in
  do* _ := console_log ("Current commit message: " +:+ quoted messageText) in
  do* message' := lift (prop R commitData "message") in
  do* isTestCommit := lift (includes_call R message' test_commit_marker) in
  if negb isTestCommit then
    do* _ := console_log "⚠️  Current commit doesn't look like our test commit" in
    do* _ := console_log "Are you sure you want to revert this?" in
    do* message'' := lift (prop R commitData "message") in
    console_log ("Current message: " +:+ inspect R message'')
  else
  do* parents := lift (prop R commitData "parents") in
  do* parentsLength := lift (prop R parents "length") in
  if is_zero R parentsLength then
    console_error "Cannot revert: this appears to be the initial commit"
  else
  do* parents' := lift (prop R commitData "parents") in
  do* firstParent := lift (prop R parents' "0") in
  do* parentSha := lift (prop R firstParent "sha") in
  do* parentShaText := lift (template R parentSha) in
  do* _ := console_log ("Parent SHA: " +:+ parentShaText) in
  (* Reset the branch to the parent commit *)
  do* _ := console_log (String newline "Reverting branch to parent commit...") in
  do* updateRefResponse := send (revert_reset_request token parentSha) in
  if negb (ok updateRefResponse) then
    do* _ := console_error ("Failed to revert: " +:+ pretty (status updateRefResponse)) in
    do* error := lift (text updateRefResponse) in
    console_error error
  else
  do* _ := console_log "✅ Successfully reverted test commit!" in
  do* parentShaText' := lift (template R parentSha) in
  do* _ := console_log ("Branch " +:+ "monty/fixing-pipeline-runner"
                        +:+ " is now back to SHA: " +:+ parentShaText') in
  (* Verify the revert *)
  do* _ := console_log (String newline "Verifying revert...") in
  do* verifyResponse := send (revert_ref_request token) in
  do* verifyData := lift (json verifyResponse) in
  do* verifyObject := lift (prop R verifyData "object") in
  do* verifySha := lift (prop R verifyObject "sha") in
  if strictly_equal R verifySha parentSha then console_log "✅ Revert confirmed"
  else
    do* verifyObject' := lift (prop R verifyData "object") in
    do* verifySha' := lift (prop R verifyObject' "sha") in
    console_log ("⚠️  Unexpected SHA after revert: " +:+ inspect R verifySha').

(** [revertTestCommit(token)] *)
Definition revertTestCommit (token : string) : Act S (ScriptEvent Val) unit :=
  do* _ := console_log (String newline "=== Reverting test commit ===") in
  do* _ := console_log ("Repository: " +:+ "anthropics" +:+ "/" +:+ "anthropic") in
  do* _ := console_log ("Branch: " +:+ "monty/fixing-pipeline-runner" +:+ nl) in
  act_catch (revertTestCommit_try token)
    (fun error => console_error ("Error: " +:+ inspect_thrown R error)).

(** How the process ends after a call that is not awaited: normally, or
    with code 1 when the promise rejects and nothing handles it. *)
Definition settle (r : Outcome unit * Job S (ScriptEvent Val))
  : Ending * Job S (ScriptEvent Val) :=
  match r with
  | (Returned _, j') => (Resolved, j')
  | (Threw _, j') => (Exited 1, j')
  end.

(** The top level of the script, lines 104-110: [token] is
    [process.argv[2]]. *)
Definition revert_main (token : option string) (j : Job S (ScriptEvent Val))
  : Ending * Job S (ScriptEvent Val) :=
  if unset token then
    (Exited 1,
     {| outside := outside j;
        journal := journal j ++
          [Printed false "Usage: bun revert-test-commit.ts <github-pat>"] |})
  else settle (revertTestCommit (default "" token) j).

End Scripts.

(** ** A runtime for worked examples

    JSON values of the shapes the remote documents, and a remote that
    answers the n-th request with the n-th of a list of replies. *)

Inductive Json :=
| JUndefined
| JString (s : string)
| JNumber (n : nat)
(** [{"object": {"sha": sha}}] *)
| JReference (sha : string)
(** [{"sha": sha}] *)
| JPointer (sha : string)
(** [{"message": message, "parents": [{"sha": ...}, ...], "tree": {"sha": tree}}] *)
| JCommit (message : string) (parents : list string) (tree : string)
(** [[{"sha": ...}, ...]] *)
| JPointers (shas : list string)
(** anything else *)
| JOther.

Definition type_error (message : string) : Thrown :=
  {| instanceof_Error := true;
     err_message := Some message;
     err_stack := Some ("TypeError: " +:+ message);
     to_String := "TypeError: " +:+ message |}.

Definition demo_prop (v : Json) (name : string) : Outcome Json :=
  match v with
  | JUndefined =>
      Threw (type_error ("Cannot read properties of undefined (reading '"
                         +:+ name +:+ "')"))
  | JString s =>
      Returned (if String.eqb name "length" then JNumber (String.length s)
                else JUndefined)
  | JNumber _ => Returned JUndefined
  | JReference sha =>
      Returned (if String.eqb name "object" then JPointer sha else JUndefined)
  | JPointer sha =>
      Returned (if String.eqb name "sha" then JString sha else JUndefined)
  | JCommit message parents tree =>
      Returned (if String.eqb name "message" then JString message
                else if String.eqb name "parents" then JPointers parents
                else if String.eqb name "tree" then JPointer tree
                else JUndefined)
  | JPointers shas =>
      Returned (if String.eqb name "length" then JNumber (length shas)
                else if String.eqb name "0" then
                  match shas with
                  | sha :: _ => JPointer sha
                  | [] => JUndefined
                  end
                else JUndefined)
  | JOther => Returned JUndefined
  end.

Definition demo_template (v : Json) : Outcome string :=
  Returned match v with
           | JUndefined => "undefined"
           | JString s => s
           | JNumber n => pretty n
           | _ => "[object Object]"
           end.

Definition demo_includes (v : Json) (text : string) : Outcome bool :=
  match v with
  | JString s => Returned (includes s text)
  | JPointers _ => Returned false
  | _ => Threw (type_error "includes is not a function")
  end.

Definition demo_equal (a b : Json) : bool :=
  match a, b with
  | JUndefined, JUndefined => true
  | JString s, JString s' => String.eqb s s'
  | JNumber n, JNumber n' => Nat.eqb n n'
  | _, _ => false
  end.

Definition demo_text (v : Json) : string :=
  match demo_template v with
  | Returned s => s
  | Threw _ => EmptyString
  end.

Definition demo_runtime (replies : list (Outcome (Response Json))) : Runtime nat Json :=
  {| answer := fun n _ =>
       (nth n replies (Threw (library_error "socket hang up")), Datatypes.S n);
     prop := demo_prop;
     template := demo_template;
     includes_call := demo_includes;
     is_zero := fun v => demo_equal v (JNumber 0);
     strictly_equal := demo_equal;
     inspect := demo_text;
     inspect_thrown := to_String |}.

(** The branch is at the test commit [c2], whose parent is [c1]; the reset
    is accepted and the branch then reads [c1]. *)
Definition revert_goes_through : list (Outcome (Response Json)) :=
  [ Returned (reply 200 (JReference "c2"));
    Returned (reply 200 (JCommit "Debug: Test commit to reproduce 500 error" ["c1"] "t2"));
    Returned (reply 200 (JReference "c1"));
    Returned (reply 200 (JReference "c1")) ].

(** The tip of the branch is somebody's work, not the test commit. *)
Definition tip_is_real_work : list (Outcome (Response Json)) :=
  [ Returned (reply 200 (JReference "c7"));
    Returned (reply 200 (JCommit "Fix the pipeline runner" ["c6"] "t7")) ].

Definition fresh_desk : Job nat (ScriptEvent Json) := {| outside := 0; journal := [] |}.

(** ** How each step runs

    Every step makes exactly one exchange and then decides on its outcome
    alone. *)

Ltac step_inv :=
  unfold bind, try_catch, await, ret, throw;
  match goal with
  | |- context [fetch ?h ?e ?req ?w] =>
      let resp := fresh "resp" in
      let t := fresh "t" in
      destruct (fetch h e req w) as [[resp|t] ?] eqn:?;
      cbn [payload] in *; intros H;
      [ exists (Returned resp); revert H;
        destruct (ok resp); simpl;
        try destruct (json resp); try destruct (text resp)
      | exists (Threw t); revert H ];
      intros H; injection H as <- <-; auto
  end.

Section Steps.
Context {S : Type} (h : Host S).

Lemma fetch_inv e req (w : World S) res w' :
  fetch h e req w = (res, w') ->
  respond h e (remote w) req = (res, remote w') /\
  trace w' = trace w ++ [Exch e req res].
Proof.
  unfold fetch. destruct (respond h e (remote w) req) as [res0 s'] eqn:E.
  intros [= <- <-]. simpl. auto.
Qed.

Lemma bind_inv {A B} (m : M S A) (k : A -> M S B) w r w' :
  bind m k w = (r, w') ->
  (exists a w1, m w = (Returned a, w1) /\ k a w1 = (r, w')) \/
  (exists t, m w = (Threw t, w') /\ r = Threw t).
Proof.
  unfold bind. destruct (m w) as [[a|t] w1] eqn:E; intros H.
  - left. eauto.
  - right. inversion H; subst. eauto.
Qed.

Lemma bind_Returned_inv {A B} (m : M S A) (k : A -> M S B) w b w' :
  bind m k w = (Returned b, w') ->
  exists a w1, m w = (Returned a, w1) /\ k a w1 = (Returned b, w').
Proof.
  intros H. destruct (bind_inv _ _ _ _ _ H) as [?|[t [_ ?]]]; [done|discriminate].
Qed.

Lemma githubToken_required_inv (w : World S) r w' :
  githubToken_required h w = (r, w') ->
  w' = w /\
  ((exists githubToken,
      GITHUB_TOKEN (env h) = Some githubToken /\ githubToken <> "" /\
      r = Returned githubToken) \/
   r = Threw (new_Error h "GITHUB_TOKEN environment variable is required")).
Proof.
  unfold githubToken_required, ret, throw, truthy.
  destruct (GITHUB_TOKEN (env h)) as [tok|].
  - destruct (String.eqb tok "") eqn:E; simpl; intros [= <- <-]; split; auto.
    left. exists tok. repeat split. intros ->. discriminate.
  - intros [= <- <-]; auto.
Qed.

Lemma get_branch_reference_inv tok (w : World S) r w' :
  get_branch_reference h tok w = (r, w') ->
  exists res,
    fetch h EGetRef (ref_request h tok) w = (res, w') /\
    r = match res with
        | Threw t => Threw t
        | Returned refResponse =>
            if ok refResponse then
              match json refResponse with
              | Returned refData => Returned (ref_object_sha refData)
              | Threw t => Threw t
              end
            else Threw (new_Error h ("Failed to get branch reference: "
                                     +:+ pretty (status refResponse)))
        end.
Proof. unfold get_branch_reference. step_inv. Qed.

Lemma get_base_commit_inv tok baseSha (w : World S) r w' :
  get_base_commit h tok baseSha w = (r, w') ->
  exists res,
    fetch h EGetCommit (commit_request h tok baseSha) w = (res, w') /\
    r = match res with
        | Threw t => Threw t
        | Returned commitResponse =>
            if ok commitResponse then
              match json commitResponse with
              | Returned commitData => Returned (commit_tree_sha commitData)
              | Threw t => Threw t
              end
            else Threw (new_Error h ("Failed to get base commit: "
                                     +:+ pretty (status commitResponse)))
        end.
Proof. unfold get_base_commit. step_inv. Qed.

Lemma create_tree_inv tok baseTreeSha treeEntries (w : World S) r w' :
  create_tree h tok baseTreeSha treeEntries w = (r, w') ->
  exists res,
    fetch h EPostTree (tree_request h tok baseTreeSha treeEntries) w = (res, w') /\
    r = match res with
        | Threw t => Threw t
        | Returned treeResponse =>
            if ok treeResponse then json treeResponse
            else
              match text treeResponse with
              | Returned errorText =>
                  Threw (new_Error h ("Failed to create tree: "
                           +:+ pretty (status treeResponse) +:+ " - " +:+ errorText))
              | Threw t => Threw t
              end
        end.
Proof. unfold create_tree. step_inv. Qed.

Lemma create_commit_inv tok message treeSha baseSha (w : World S) r w' :
  create_commit h tok message treeSha baseSha w = (r, w') ->
  exists res,
    fetch h EPostCommit (new_commit_request h tok message treeSha baseSha) w = (res, w') /\
    r = match res with
        | Threw t => Threw t
        | Returned newCommitResponse =>
            if ok newCommitResponse then json newCommitResponse
            else
              match text newCommitResponse with
              | Returned errorText =>
                  Threw (new_Error h ("Failed to create commit: "
                           +:+ pretty (status newCommitResponse) +:+ " - " +:+ errorText))
              | Threw t => Threw t
              end
        end.
Proof. unfold create_commit. step_inv. Qed.

Lemma update_reference_inv tok newCommitSha (w : World S) r w' :
  update_reference h tok newCommitSha w = (r, w') ->
  exists res,
    fetch h EPatchRef (update_ref_request h tok newCommitSha) w = (res, w') /\
    r = match update_failure h res with
        | Some t => Threw t
        | None => Returned tt
        end.
Proof. unfold update_reference, update_failure. step_inv. Qed.

End Steps.

(** ** Runs that go through *)

Section Completed.
Context {S : Type} (h : Host S).

Lemma get_branch_reference_Returned tok (w : World S) sha w' :
  get_branch_reference h tok w = (Returned sha, w') ->
  exists resp data,
    fetch h EGetRef (ref_request h tok) w = (Returned resp, w') /\
    ok resp = true /\ json resp = Returned data /\ sha = ref_object_sha data.
Proof.
  intros H. apply get_branch_reference_inv in H as ([resp|t] & F & E); [|discriminate].
  cbn [payload] in *. destruct (ok resp) eqn:Hok; [|discriminate].
  destruct (json resp) as [data|] eqn:Hj; [|discriminate].
  injection E as ->. eauto 10.
Qed.

Lemma get_base_commit_Returned tok base (w : World S) sha w' :
  get_base_commit h tok base w = (Returned sha, w') ->
  exists resp data,
    fetch h EGetCommit (commit_request h tok base) w = (Returned resp, w') /\
    ok resp = true /\ json resp = Returned data /\ sha = commit_tree_sha data.
Proof.
  intros H. apply get_base_commit_inv in H as ([resp|t] & F & E); [|discriminate].
  cbn [payload] in *. destruct (ok resp) eqn:Hok; [|discriminate].
  destruct (json resp) as [data|] eqn:Hj; [|discriminate].
  injection E as ->. eauto 10.
Qed.

Lemma create_tree_Returned tok base entries (w : World S) data w' :
  create_tree h tok base entries w = (Returned data, w') ->
  exists resp,
    fetch h EPostTree (tree_request h tok base entries) w = (Returned resp, w') /\
    ok resp = true /\ json resp = Returned data.
Proof.
  intros H. apply create_tree_inv in H as ([resp|t] & F & E); [|discriminate].
  cbn [payload] in *. destruct (ok resp) eqn:Hok.
  - eauto.
  - destruct (text resp); discriminate.
Qed.

Lemma create_commit_Returned tok message tree base (w : World S) data w' :
  create_commit h tok message tree base w = (Returned data, w') ->
  exists resp,
    fetch h EPostCommit (new_commit_request h tok message tree base) w
      = (Returned resp, w') /\
    ok resp = true /\ json resp = Returned data.
Proof.
  intros H. apply create_commit_inv in H as ([resp|t] & F & E); [|discriminate].
  cbn [payload] in *. destruct (ok resp) eqn:Hok.
  - eauto.
  - destruct (text resp); discriminate.
Qed.

Lemma update_reference_Returned tok sha (w : World S) u w' :
  update_reference h tok sha w = (Returned u, w') ->
  exists resp,
    fetch h EPatchRef (update_ref_request h tok sha) w = (Returned resp, w') /\
    ok resp = true.
Proof.
  intros H. apply update_reference_inv in H as ([resp|t] & F & E); [|discriminate].
  unfold update_failure in E. cbn [payload] in *.
  destruct (ok resp) eqn:Hok; [eauto|discriminate].
Qed.

(** Steps 1, 2, 4, 5 and 6 in a row, as both tools run them once the tree
    entries are known. *)
Lemma protocol_Returned tok message entries (w w' : World S) w2 base baseTree
      treeD newCommitD u w1 w3 w4 :
  get_branch_reference h tok w = (Returned base, w1) ->
  get_base_commit h tok base w1 = (Returned baseTree, w2) ->
  create_tree h tok baseTree entries w2 = (Returned treeD, w3) ->
  create_commit h tok message (tree_sha treeD) base w3 = (Returned newCommitD, w4) ->
  update_reference h tok (nc_sha newCommitD) w4 = (Returned u, w') ->
  exists t : Transcript,
    acknowledged t /\
    treeEntries t = entries /\ treeData t = treeD /\ newCommitData t = newCommitD /\
    trace w' = trace w ++ exchanges h tok message t.
Proof.
  intros H1 H2 H3 H4 H5.
  apply get_branch_reference_Returned in H1 as (r1 & d1 & F1 & O1 & J1 & ->).
  apply get_base_commit_Returned in H2 as (r2 & d2 & F2 & O2 & J2 & ->).
  apply create_tree_Returned in H3 as (r3 & F3 & O3 & J3).
  apply create_commit_Returned in H4 as (r4 & F4 & O4 & J4).
  apply update_reference_Returned in H5 as (r5 & F5 & O5).
  apply fetch_inv in F1 as [_ T1]. apply fetch_inv in F2 as [_ T2].
  apply fetch_inv in F3 as [_ T3]. apply fetch_inv in F4 as [_ T4].
  apply fetch_inv in F5 as [_ T5].
  exists {| refResponse := r1; refData := d1; commitResponse := r2; commitData := d2;
            treeEntries := entries; treeResponse := r3; treeData := treeD;
            newCommitResponse := r4; newCommitData := newCommitD;
            updateRefResponse := r5 |}.
  unfold acknowledged, exchanges, baseSha, baseTreeSha; simpl.
  repeat split; try done.
  rewrite T5, T4, T3, T2, T1. by rewrite <- !app_assoc.
Qed.

End Completed.

(** ** [Promise.all], throwing maps and the outer [catch] *)

Section Combinators.
Context {S : Type} (h : Host S).

Lemma rejections_nil {A} (l : list (Outcome A)) :
  rejections l = [] -> l = map Returned (fulfilments l).
Proof.
  induction l as [|[a|t] l IH]; simpl; intros H; [done| |done].
  unfold rejections, fulfilments in *. simpl in *. f_equal. auto.
Qed.

Lemma rejections_elem {A} (l : list (Outcome A)) t :
  t ∈ rejections l <-> Threw t ∈ l.
Proof.
  unfold rejections. rewrite list_elem_of_omap. split.
  - intros ([a|t'] & Hin & Heq); [done|]. by injection Heq as ->.
  - intros Hin. exists (Threw t). auto.
Qed.

Lemma Promise_all_Returned {A} (l : list (Outcome A)) vs :
  Promise_all h l = Returned vs -> l = map Returned vs.
Proof.
  unfold Promise_all. destruct (rejections l) eqn:E; [|done].
  intros [= <-]. by apply rejections_nil.
Qed.

Lemma Promise_all_Threw {A} (l : list (Outcome A)) t :
  Promise_all h l = Threw t -> Threw t ∈ l.
Proof.
  unfold Promise_all. destruct (rejections l) as [|t0 ts] eqn:E; [done|].
  set (n := race h `mod` length (t0 :: ts)).
  assert (n < length (t0 :: ts)) as Hn by (apply Nat.mod_upper_bound; done).
  clearbody n. intros Heq.
  assert (t = nth n (t0 :: ts) t0) as -> by congruence.
  apply rejections_elem. rewrite E. apply list_elem_of_In. exact (nth_In _ _ Hn).
Qed.

Lemma Promise_all_rejects {A} (l : list (Outcome A)) t0 :
  Threw t0 ∈ l -> exists t, Promise_all h l = Threw t /\ Threw t ∈ l.
Proof.
  intros Hin. destruct (Promise_all h l) as [vs|t] eqn:E.
  - apply Promise_all_Returned in E. rewrite E in Hin.
    apply list_elem_of_fmap in Hin as (v & ? & _). done.
  - exists t. split; [done|]. by apply Promise_all_Threw.
Qed.

Lemma read_tree_entries_Returned (ps : list string) (es : list TreeEntry) :
  map (read_tree_entry h) ps = map Returned es ->
  Forall2 (fun p e => exists text,
             readFile h (fullPath h p) = Returned text /\ e = blob_entry p text) ps es.
Proof.
  revert es. induction ps as [|p ps IH]; intros [|e es]; simpl; try done.
  intros [= H1 H2]. constructor; [|by apply IH].
  unfold read_tree_entry in H1. destruct (readFile h (fullPath h p)) as [text|]; [|done].
  injection H1 as <-. by exists text.
Qed.

Lemma try_catch_Returned {A} (m : M S A) handler (w : World S) a w' :
  (forall t w0 r w1, handler t w0 = (r, w1) -> exists t', r = Threw t') ->
  try_catch m handler w = (Returned a, w') -> m w = (Returned a, w').
Proof.
  intros Hh. unfold try_catch. destruct (m w) as [[a0|t] w1]; [done|].
  intros H. apply Hh in H as [? ?]. done.
Qed.

(** The message the outer [catch] puts into the error it throws. *)
Lemma rethrow_normalized_inv {A} tool error (w : World S) (r : Outcome A) w' :
  rethrow_normalized h tool error w = (r, w') ->
  w' = w /\ exists msg, r = Threw (new_Error h msg) /\ msg <> "" /\
    (msg = (if instanceof_Error error then default "" (err_message error)
            else to_String error) \/
     exists rest, msg = "Failed to " +:+ tool +:+ " files: " +:+ rest).
Proof.
  unfold rethrow_normalized, throw.
  set (errorMessage := if instanceof_Error error then _ else _).
  destruct (negb (truthy errorMessage) || _ || _) eqn:E; intros [= <- <-]; split; try done.
  - destruct (instanceof_Error error), (err_stack error) as [stack|];
      try destruct (truthy stack); eexists; (split; [done|]);
      (split; [by destruct tool|]); right; eauto.
  - exists errorMessage. split; [done|]. split; [|by left].
    intros Heq. rewrite Heq in E. done.
Qed.

Lemma rethrow_normalized_same {A} tool msg (w : World S) :
  msg <> "" -> msg <> "undefined" -> msg <> "[object Object]" ->
  rethrow_normalized (A:=A) h tool (new_Error h msg) w = (Threw (new_Error h msg), w).
Proof.
  intros H1 H2 H3. unfold rethrow_normalized, throw, truthy. simpl.
  apply String.eqb_neq in H1, H2, H3. by rewrite H1, H2, H3.
Qed.

Lemma commit_files_Returned files message (w : World S) r w' :
  commit_files h files message w = (Returned r, w') ->
  exists tok (t : Transcript),
    GITHUB_TOKEN (env h) = Some tok /\ tok <> "" /\
    acknowledged t /\
    Forall2 (fun p e => exists text,
               readFile h (fullPath h p) = Returned text /\ e = blob_entry p text)
            (map processedFile files) (treeEntries t) /\
    trace w' = trace w ++ exchanges h tok message t /\
    r = {| cf_commit := summary t; cf_files := map processedFile files;
           cf_tree_sha := tree_sha (treeData t) |}.
Proof.
  intros H. apply try_catch_Returned in H.
  2:{ intros t w0 r0 w1 Hr. apply rethrow_normalized_inv in Hr as (_ & msg & -> & _).
      eauto. }
  unfold commit_files_try in H.
  apply bind_Returned_inv in H as (tok & w0 & Htok & H).
  apply githubToken_required_inv in Htok as [-> [(tok' & Henv & Hne & [= <-])|[=]]].
  apply bind_Returned_inv in H as (base & w1 & H1 & H).
  apply bind_Returned_inv in H as (baseTree & w2 & H2 & H).
  apply bind_Returned_inv in H as (entries & w2' & H3 & H).
  apply bind_Returned_inv in H as (treeD & w3 & H4 & H).
  apply bind_Returned_inv in H as (newCommitD & w4 & H5 & H).
  apply bind_Returned_inv in H as (u & w5 & H6 & H).
  unfold await in H3. injection H3 as H3 <-.
  unfold ret in H. injection H as <- <-.
  destruct (protocol_Returned h _ _ _ _ _ _ _ _ _ _ _ _ _ _ H1 H2 H4 H5 H6)
    as (t & Hack & <- & <- & <- & Htr).
  exists tok, t. do 3 (split; [done|]). split; [|done].
  by apply read_tree_entries_Returned, Promise_all_Returned.
Qed.

End Combinators.

(** ** The tree an overlay produces *)

Section Overlay.

Lemma overlay_cons base e es :
  overlay base (e :: es) = overlay (overlay_entry base e) es.
Proof. reflexivity. Qed.

Lemma overlay_lookup_other (base : gmap string string) es q :
  (forall e, e ∈ es -> entry_path e <> q) ->
  overlay base es !! q = base !! q.
Proof.
  revert base. induction es as [|e es IH]; intros base Hq; [done|].
  rewrite overlay_cons, IH.
  - unfold overlay_entry. specialize (Hq e (list_elem_of_here _ _)).
    destruct (entry_blob e); [by rewrite lookup_insert_ne|by rewrite lookup_delete_ne].
  - intros e' He'. apply Hq. by apply list_elem_of_further.
Qed.

Lemma overlay_lookup_written (base : gmap string string) es p text :
  (forall e, e ∈ es -> entry_path e = p -> entry_blob e = content text) ->
  (base !! p = Some text \/ exists e, e ∈ es /\ entry_path e = p) ->
  overlay base es !! p = Some text.
Proof.
  revert base. induction es as [|e es IH]; intros base Hall Hsome.
  - destruct Hsome as [?|(e & He & _)]; [done|]. by apply elem_of_nil in He.
  - rewrite overlay_cons. apply IH.
    + intros e' He'. apply Hall. by apply list_elem_of_further.
    + unfold overlay_entry. destruct (decide (entry_path e = p)) as [Hp|Hp].
      * left. rewrite (Hall e (list_elem_of_here _ _) Hp), Hp. apply lookup_insert_eq.
      * destruct Hsome as [Hb|(e' & He' & Hp')].
        -- left. destruct (entry_blob e);
             [by rewrite lookup_insert_ne|by rewrite lookup_delete_ne].
        -- apply elem_of_cons in He' as [->|He']; [done|]. right. eauto.
Qed.

Lemma overlay_lookup_deleted (base : gmap string string) es p :
  (forall e, e ∈ es -> entry_path e = p -> entry_blob e = sha_null) ->
  (base !! p = None \/ exists e, e ∈ es /\ entry_path e = p) ->
  overlay base es !! p = None.
Proof.
  revert base. induction es as [|e es IH]; intros base Hall Hsome.
  - destruct Hsome as [?|(e & He & _)]; [done|]. by apply elem_of_nil in He.
  - rewrite overlay_cons. apply IH.
    + intros e' He'. apply Hall. by apply list_elem_of_further.
    + unfold overlay_entry. destruct (decide (entry_path e = p)) as [Hp|Hp].
      * left. rewrite (Hall e (list_elem_of_here _ _) Hp), Hp. apply lookup_delete_eq.
      * destruct Hsome as [Hb|(e' & He' & Hp')].
        -- left. destruct (entry_blob e);
             [by rewrite lookup_insert_ne|by rewrite lookup_delete_ne].
        -- apply elem_of_cons in He' as [->|He']; [done|]. right. eauto.
Qed.

Lemma Forall2_elem_l {A B} (R : A -> B -> Prop) xs ys x :
  Forall2 R xs ys -> x ∈ xs -> exists y, y ∈ ys /\ R x y.
Proof.
  induction 1 as [|x0 y0 xs ys HR _ IH]; intros Hin.
  - by apply elem_of_nil in Hin.
  - apply elem_of_cons in Hin as [->|Hin].
    + exists y0. split; [apply list_elem_of_here|done].
    + destruct (IH Hin) as (y & ? & ?). exists y. split; [by apply list_elem_of_further|done].
Qed.

Lemma Forall2_elem_r {A B} (R : A -> B -> Prop) xs ys y :
  Forall2 R xs ys -> y ∈ ys -> exists x, x ∈ xs /\ R x y.
Proof.
  induction 1 as [|x0 y0 xs ys HR _ IH]; intros Hin.
  - by apply elem_of_nil in Hin.
  - apply elem_of_cons in Hin as [->|Hin].
    + exists x0. split; [apply list_elem_of_here|done].
    + destruct (IH Hin) as (x & ? & ?). exists x. split; [by apply list_elem_of_further|done].
Qed.

End Overlay.

(** ** The addresses of the five requests

    The source builds each address with a template literal over the
    configured API root, owner, repository and branch; the lemmas below
    spell the five addresses out. *)

Lemma string_app_assoc (a b c : string) : (a +:+ b) +:+ c = a +:+ (b +:+ c).
Proof.
  induction a as [|x a IH]; [done|].
  change (String x ((a +:+ b) +:+ c) = String x (a +:+ (b +:+ c))). by rewrite IH.
Qed.

Section Addresses.
Context {S : Type} (h : Host S).

Lemma refUrl_value :
  refUrl h =
  GITHUB_API_URL (env h) +:+ "/repos/" +:+ REPO_OWNER (env h) +:+ "/" +:+
  REPO_NAME (env h) +:+ "/git/refs/heads/" +:+ BRANCH_NAME (env h).
Proof. unfold refUrl, repo_url. by rewrite !string_app_assoc. Qed.

Lemma commitUrl_value baseSha :
  commitUrl h baseSha =
  GITHUB_API_URL (env h) +:+ "/repos/" +:+ REPO_OWNER (env h) +:+ "/" +:+
  REPO_NAME (env h) +:+ "/git/commits/" +:+ baseSha.
Proof. unfold commitUrl, repo_url. by rewrite !string_app_assoc. Qed.

Lemma treeUrl_value :
  treeUrl h =
  GITHUB_API_URL (env h) +:+ "/repos/" +:+ REPO_OWNER (env h) +:+ "/" +:+
  REPO_NAME (env h) +:+ "/git/trees".
Proof. unfold treeUrl, repo_url. by rewrite !string_app_assoc. Qed.

Lemma newCommitUrl_value :
  newCommitUrl h =
  GITHUB_API_URL (env h) +:+ "/repos/" +:+ REPO_OWNER (env h) +:+ "/" +:+
  REPO_NAME (env h) +:+ "/git/commits".
Proof. unfold newCommitUrl, repo_url. by rewrite !string_app_assoc. Qed.

End Addresses.

(** * Properties of the two tools *)

(** C4. A [commit_files] call that returns has made exactly the five
    exchanges of the protocol, all acknowledged.  The tree request carries
    the base commit's tree as [base_tree] and one entry
    [{path, mode "100644", type "blob", content}] per processed file, the
    content being what the file holds on disk.  The commit request carries
    the caller's message unchanged, the sha of the tree just created, and
    as its single parent the sha read from the branch reference in step 1.
    The final request moves the branch reference to the new commit's sha.
    Overlaid on any base tree, the submitted entries give each processed
    path its file's content and leave every other path as it was. *)
Theorem commit_files_creates_commit {S} (h : Host S) files message (w : World S) r w' :
  commit_files h files message w = (Returned r, w') ->
  exists githubToken (t : Transcript),
    acknowledged t /\
    Forall2 (fun p e => exists text,
               readFile h (fullPath h p) = Returned text /\
               e = {| entry_path := p; entry_mode := "100644"; entry_type := "blob";
                      entry_blob := content text |})
            (map processedFile files) (treeEntries t) /\
    trace w' = trace w ++
      [ Exch EGetRef
          {| method := GET;
             url := GITHUB_API_URL (env h) +:+ "/repos/" +:+ REPO_OWNER (env h) +:+ "/" +:+
                    REPO_NAME (env h) +:+ "/git/refs/heads/" +:+ BRANCH_NAME (env h);
             headers := [("Accept", "application/vnd.github+json");
                         ("Authorization", "Bearer " +:+ githubToken);
                         ("X-GitHub-Api-Version", "2022-11-28")];
             body := None |}
          (Returned (refResponse t));
        Exch EGetCommit
          {| method := GET;
             url := GITHUB_API_URL (env h) +:+ "/repos/" +:+ REPO_OWNER (env h) +:+ "/" +:+
                    REPO_NAME (env h) +:+ "/git/commits/" +:+ ref_object_sha (refData t);
             headers := [("Accept", "application/vnd.github+json");
                         ("Authorization", "Bearer " +:+ githubToken);
                         ("X-GitHub-Api-Version", "2022-11-28")];
             body := None |}
          (Returned (commitResponse t));
        Exch EPostTree
          {| method := POST;
             url := GITHUB_API_URL (env h) +:+ "/repos/" +:+ REPO_OWNER (env h) +:+ "/" +:+
                    REPO_NAME (env h) +:+ "/git/trees";
             headers := [("Accept", "application/vnd.github+json");
                         ("Authorization", "Bearer " +:+ githubToken);
                         ("X-GitHub-Api-Version", "2022-11-28");
                         ("Content-Type", "application/json")];
             body := Some (TreeBody (commit_tree_sha (commitData t)) (treeEntries t)) |}
          (Returned (treeResponse t));
        Exch EPostCommit
          {| method := POST;
             url := GITHUB_API_URL (env h) +:+ "/repos/" +:+ REPO_OWNER (env h) +:+ "/" +:+
                    REPO_NAME (env h) +:+ "/git/commits";
             headers := [("Accept", "application/vnd.github+json");
                         ("Authorization", "Bearer " +:+ githubToken);
                         ("X-GitHub-Api-Version", "2022-11-28");
                         ("Content-Type", "application/json")];
             body := Some (CommitBody message (tree_sha (treeData t))
                                      [ref_object_sha (refData t)]) |}
          (Returned (newCommitResponse t));
        Exch EPatchRef
          {| method := PATCH;
             url := GITHUB_API_URL (env h) +:+ "/repos/" +:+ REPO_OWNER (env h) +:+ "/" +:+
                    REPO_NAME (env h) +:+ "/git/refs/heads/" +:+ BRANCH_NAME (env h);
             headers := [("Accept", "application/vnd.github+json");
                         ("Authorization", "Bearer " +:+ githubToken);
                         ("X-GitHub-Api-Version", "2022-11-28");
                         ("Content-Type", "application/json")];
             body := Some (RefBody (nc_sha (newCommitData t)) false) |}
          (Returned (updateRefResponse t)) ] /\
    cs_sha (cf_commit r) = nc_sha (newCommitData t) /\
    cf_tree_sha r = tree_sha (treeData t) /\
    forall base : gmap string string,
      (forall p text, p ∈ map processedFile files ->
         readFile h (fullPath h p) = Returned text ->
         overlay base (treeEntries t) !! p = Some text) /\
      (forall q, q ∉ map processedFile files ->
         overlay base (treeEntries t) !! q = base !! q).
Proof.
  intros H. apply commit_files_Returned in H as (tok & t & _ & _ & Hack & Hent & Htr & ->).
  exists tok, t. do 2 (split; [done|]).
  split.
  { rewrite <- !refUrl_value, <- commitUrl_value, <- treeUrl_value, <- newCommitUrl_value.
    exact Htr. }
  simpl. do 2 (split; [done|]).
  intros base. split.
  - intros p text Hp Hread. apply overlay_lookup_written.
    + intros e He Hpath.
      destruct (Forall2_elem_r _ _ _ _ Hent He) as (p' & _ & text' & Hread' & ->).
      simpl in *. subst p'. congruence.
    + right. destruct (Forall2_elem_l _ _ _ _ Hent Hp) as (e & He & text' & _ & ->).
      eauto.
  - intros q Hq. apply overlay_lookup_other. intros e He <-.
    destruct (Forall2_elem_r _ _ _ _ Hent He) as (p' & Hp' & text' & _ & ->). done.
Qed.

Lemma commit_files_creates_commit_witness :
  exists r w',
    commit_files (demo_host happy demo_env) ["README.md"] "update docs" fresh
      = (Returned r, w') /\
    exists t : Transcript,
      treeEntries t = [blob_entry "README.md" "# demo"] /\
      length (trace w') = 5 /\
      overlay {["README.md" := "old"; "LICENSE" := "MIT"]} (treeEntries t)
        = {["README.md" := "# demo"; "LICENSE" := "MIT"]}.
Proof.
  eexists _, _. split; [vm_compute; reflexivity|].
  destruct (commit_files_creates_commit (demo_host happy demo_env)
              ["README.md"] "update docs" fresh _ _ eq_refl)
    as (tok & t & _ & Hent & Htr & _).
  exists t. simpl in Hent. apply Forall2_cons_inv_l in Hent as (e & es & He & Hes & Heq).
  apply Forall2_nil_inv_l in Hes as ->. destruct He as (text & Hread & ->).
  vm_compute in Hread. injection Hread as <-.
  split; [done|]. split.
  - vm_compute. reflexivity.
  - rewrite Heq. unfold overlay, blob_entry, overlay_entry; simpl.
    by rewrite insert_insert_eq.
Defined.

Section DeleteCompleted.
Context {S : Type} (h : Host S).

Lemma map_throwing_Returned {A B} (f : A -> Outcome B) l ys :
  map_throwing f l = Returned ys -> Forall2 (fun x y => f x = Returned y) l ys.
Proof.
  revert ys. induction l as [|x l IH]; simpl; intros ys.
  - intros [= <-]. constructor.
  - destruct (f x) as [y|] eqn:Hx; [|done].
    destruct (map_throwing f l) as [ys'|]; [|done].
    intros [= <-]. constructor; auto.
Qed.

Lemma map_throwing_Threw {A B} (f : A -> Outcome B) l t :
  map_throwing f l = Threw t ->
  exists pre x post,
    l = pre ++ x :: post /\ f x = Threw t /\
    Forall (fun x' => exists y, f x' = Returned y) pre.
Proof.
  induction l as [|x l IH]; simpl; [done|].
  destruct (f x) as [y|t'] eqn:Hx.
  - destruct (map_throwing f l) as [ys'|t'']; [done|].
    intros [= <-]. destruct IH as (pre & x' & post & -> & Hx' & Hpre); [done|].
    exists (x :: pre), x', post. repeat split; [done|]. constructor; eauto.
  - intros [= <-]. exists [], x, l. repeat split; [done|constructor].
Qed.


Lemma processedPath_relative p :
  startsWith p "/" = false -> processedPath h p = Returned p.
Proof. unfold processedPath. by intros ->. Qed.

Lemma delete_files_Returned paths message (w : World S) r w' :
  delete_files h paths message w = (Returned r, w') ->
  exists tok (t : Transcript) processedPaths,
    GITHUB_TOKEN (env h) = Some tok /\ tok <> "" /\
    acknowledged t /\
    Forall2 (fun p p' => processedPath h p = Returned p') paths processedPaths /\
    treeEntries t = map deletion_entry processedPaths /\
    trace w' = trace w ++ exchanges h tok message t /\
    r = {| df_commit := summary t; df_deletedFiles := processedPaths;
           df_tree_sha := tree_sha (treeData t) |}.
Proof.
  intros H. apply try_catch_Returned in H.
  2:{ intros t w0 r0 w1 Hr. apply rethrow_normalized_inv in Hr as (_ & msg & -> & _).
      eauto. }
  unfold delete_files_try in H.
  apply bind_Returned_inv in H as (tok & w0 & Htok & H).
  apply githubToken_required_inv in Htok as [-> [(tok' & Henv & Hne & [= <-])|[=]]].
  apply bind_Returned_inv in H as (processedPaths & w0 & Hp & H).
  apply bind_Returned_inv in H as (base & w1 & H1 & H).
  apply bind_Returned_inv in H as (baseTree & w2 & H2 & H).
  apply bind_Returned_inv in H as (treeD & w3 & H4 & H).
  apply bind_Returned_inv in H as (newCommitD & w4 & H5 & H).
  apply bind_Returned_inv in H as (u & w5 & H6 & H).
  unfold await in Hp. injection Hp as Hp <-.
  unfold ret in H. injection H as <- <-.
  destruct (protocol_Returned h _ _ _ _ _ _ _ _ _ _ _ _ _ _ H1 H2 H4 H5 H6)
    as (t & Hack & Hent & <- & <- & Htr).
  exists tok, t, processedPaths. do 3 (split; [done|]).
  split; [by apply map_throwing_Returned|]. done.
Qed.

End DeleteCompleted.

(** C5. A [delete_files] call on repository-relative paths that returns has
    made exactly the five exchanges of the protocol, all acknowledged.  The
    tree request carries the base commit's tree as [base_tree] and one
    entry [{path, mode "100644", type "blob", sha: null}] per path; the
    commit request carries the sha of the tree just created and, as its
    single parent, the sha read from the branch reference in step 1.
    Overlaid on any base tree, the submitted entries give a tree without
    any of the given paths and equal to the base tree everywhere else. *)
Theorem delete_files_removes_paths {S} (h : Host S) paths message (w : World S) r w' :
  Forall (fun p => startsWith p "/" = false) paths ->
  delete_files h paths message w = (Returned r, w') ->
  exists githubToken (t : Transcript),
    acknowledged t /\
    treeEntries t =
      map (fun p => {| entry_path := p; entry_mode := "100644"; entry_type := "blob";
                       entry_blob := sha_null |}) paths /\
    trace w' = trace w ++
      [ Exch EGetRef
          {| method := GET;
             url := GITHUB_API_URL (env h) +:+ "/repos/" +:+ REPO_OWNER (env h) +:+ "/" +:+
                    REPO_NAME (env h) +:+ "/git/refs/heads/" +:+ BRANCH_NAME (env h);
             headers := [("Accept", "application/vnd.github+json");
                         ("Authorization", "Bearer " +:+ githubToken);
                         ("X-GitHub-Api-Version", "2022-11-28")];
             body := None |}
          (Returned (refResponse t));
        Exch EGetCommit
          {| method := GET;
             url := GITHUB_API_URL (env h) +:+ "/repos/" +:+ REPO_OWNER (env h) +:+ "/" +:+
                    REPO_NAME (env h) +:+ "/git/commits/" +:+ ref_object_sha (refData t);
             headers := [("Accept", "application/vnd.github+json");
                         ("Authorization", "Bearer " +:+ githubToken);
                         ("X-GitHub-Api-Version", "2022-11-28")];
             body := None |}
          (Returned (commitResponse t));
        Exch EPostTree
          {| method := POST;
             url := GITHUB_API_URL (env h) +:+ "/repos/" +:+ REPO_OWNER (env h) +:+ "/" +:+
                    REPO_NAME (env h) +:+ "/git/trees";
             headers := [("Accept", "application/vnd.github+json");
                         ("Authorization", "Bearer " +:+ githubToken);
                         ("X-GitHub-Api-Version", "2022-11-28");
                         ("Content-Type", "application/json")];
             body := Some (TreeBody (commit_tree_sha (commitData t)) (treeEntries t)) |}
          (Returned (treeResponse t));
        Exch EPostCommit
          {| method := POST;
             url := GITHUB_API_URL (env h) +:+ "/repos/" +:+ REPO_OWNER (env h) +:+ "/" +:+
                    REPO_NAME (env h) +:+ "/git/commits";
             headers := [("Accept", "application/vnd.github+json");
                         ("Authorization", "Bearer " +:+ githubToken);
                         ("X-GitHub-Api-Version", "2022-11-28");
                         ("Content-Type", "application/json")];
             body := Some (CommitBody message (tree_sha (treeData t))
                                      [ref_object_sha (refData t)]) |}
          (Returned (newCommitResponse t));
        Exch EPatchRef
          {| method := PATCH;
             url := GITHUB_API_URL (env h) +:+ "/repos/" +:+ REPO_OWNER (env h) +:+ "/" +:+
                    REPO_NAME (env h) +:+ "/git/refs/heads/" +:+ BRANCH_NAME (env h);
             headers := [("Accept", "application/vnd.github+json");
                         ("Authorization", "Bearer " +:+ githubToken);
                         ("X-GitHub-Api-Version", "2022-11-28");
                         ("Content-Type", "application/json")];
             body := Some (RefBody (nc_sha (newCommitData t)) false) |}
          (Returned (updateRefResponse t)) ] /\
    cs_sha (df_commit r) = nc_sha (newCommitData t) /\
    df_deletedFiles r = paths /\
    forall base : gmap string string,
      (forall p, p ∈ paths -> overlay base (treeEntries t) !! p = None) /\
      (forall q, q ∉ paths -> overlay base (treeEntries t) !! q = base !! q).
Proof.
  intros Hrel H.
  apply delete_files_Returned in H
    as (tok & t & processed & _ & _ & Hack & Hproc & Hent & Htr & ->).
  assert (processed = paths) as ->.
  { clear -Hrel Hproc. induction Hproc as [|p p' ps ps' Hp _ IH]; [done|].
    apply Forall_cons in Hrel as [Hp0 Hrel].
    rewrite (processedPath_relative h p Hp0) in Hp. injection Hp as <-.
    f_equal. auto. }
  exists tok, t. split; [done|]. split; [done|].
  split.
  { rewrite <- !refUrl_value, <- commitUrl_value, <- treeUrl_value, <- newCommitUrl_value.
    exact Htr. }
  simpl. do 2 (split; [done|]).
  intros base. rewrite Hent. split.
  - intros p Hp. apply overlay_lookup_deleted.
    + intros e He _. apply list_elem_of_fmap in He as (p' & -> & _). done.
    + right. exists (deletion_entry p). split; [|done].
      apply list_elem_of_fmap. eauto.
  - intros q Hq. apply overlay_lookup_other. intros e He <-.
    apply list_elem_of_fmap in He as (p' & -> & Hp'). done.
Qed.

Lemma delete_files_removes_paths_witness :
  exists r w',
    delete_files (demo_host happy demo_env) ["docs/old.md"] "drop old docs" fresh
      = (Returned r, w') /\
    exists t : Transcript,
      treeEntries t = [deletion_entry "docs/old.md"] /\
      df_deletedFiles r = ["docs/old.md"] /\
      overlay {["docs/old.md" := "stale"; "LICENSE" := "MIT"]} (treeEntries t)
        = {["LICENSE" := "MIT"]}.
Proof.
  eexists _, _. split; [vm_compute; reflexivity|].
  destruct (delete_files_removes_paths (demo_host happy demo_env)
              ["docs/old.md"] "drop old docs" fresh _ _
              ltac:(repeat constructor) eq_refl)
    as (tok & t & _ & Hent & _).
  exists t. split; [done|]. split; [vm_compute; reflexivity|].
  rewrite Hent. unfold overlay, overlay_entry; simpl.
  apply map_eq. intros k. destruct (decide (k = "docs/old.md")) as [->|Hk].
  - by rewrite lookup_delete_eq.
  - rewrite lookup_delete_ne by done. rewrite lookup_insert_ne by done. done.
Defined.

(** ** Strings *)

Section Strings.



Lemma startsWith_append c rest : startsWith (c +:+ rest) c = true.
Proof.
  unfold startsWith. induction c as [|a c IH]; simpl; [by destruct rest|].
  destruct (ascii_dec a a); [done|congruence].
Qed.

End Strings.

(** ** Runs that stop before the first request *)

Section Validation.
Context {S : Type} (h : Host S).

Lemma githubToken_required_present tok (w : World S) :
  GITHUB_TOKEN (env h) = Some tok -> tok <> "" ->
  githubToken_required h w = (Returned tok, w).
Proof.
  intros Henv Hne. unfold githubToken_required, truthy. rewrite Henv.
  apply String.eqb_neq in Hne. by rewrite Hne.
Qed.



Lemma processedPath_Threw p t :
  processedPath h p = Threw t ->
  startsWith p "/" = true /\ startsWith p (cwd (env h)) = false /\ t = path_error h p.
Proof.
  unfold processedPath.
  destruct (startsWith p "/"); [|done].
  destruct (startsWith p (cwd (env h))); [done|]. by intros [= <-].
Qed.




End Validation.



(** C6. The source comments its shortening of an accepted path with
    "Strip CWD from absolute path", and the path is then used as a path
    relative to the repository root.  What the code removes is the first
    [cwd.length + 1] code units, whatever they are.  With the working
    directory ["/repo"], the path ["/repo//etc/passwd"] begins with a slash
    and with the working directory, so it is accepted; the call goes
    through, and the path submitted for deletion in the tree request and
    reported in the result is ["/etc/passwd"], which still begins with a
    slash and is not relative to the repository root. *)
Theorem delete_files_submits_absolute_path :
  cwd (env (demo_host happy demo_env)) = "/repo" /\
  startsWith "/repo//etc/passwd" "/" = true /\
  startsWith "/repo//etc/passwd" (cwd (env (demo_host happy demo_env))) = true /\
  processedPath (demo_host happy demo_env) "/repo//etc/passwd" = Returned "/etc/passwd" /\
  startsWith "/etc/passwd" "/" = true /\
  exists r w' res,
    delete_files (demo_host happy demo_env) ["/repo//etc/passwd"] "cleanup" fresh
      = (Returned r, w') /\
    df_deletedFiles r = ["/etc/passwd"] /\
    Exch EPostTree
      {| method := POST;
         url := "https://api.github.com/repos/octo/demo/git/trees";
         headers := [("Accept", "application/vnd.github+json");
                     ("Authorization", "Bearer ghs_secret");
                     ("X-GitHub-Api-Version", "2022-11-28");
                     ("Content-Type", "application/json")];
         body := Some (TreeBody "tree0"
                         [{| entry_path := "/etc/passwd"; entry_mode := "100644";
                             entry_type := "blob"; entry_blob := sha_null |}]) |}
      res ∈ trace w'.
Proof.
  do 5 (split; [vm_compute; reflexivity|]).
  eexists _, _, _. split; [vm_compute; reflexivity|].
  split; [reflexivity|].
  do 2 apply list_elem_of_further. apply list_elem_of_here.
Qed.



(** ** Where a run can stop *)

Section Stages.
Context {S : Type} (h : Host S).

Lemma step_trace e req (w : World S) res w' :
  fetch h e req w = (res, w') -> trace w' = trace w ++ [Exch e req res].
Proof. intros H. by apply fetch_inv in H as [_ ?]. Qed.

Lemma reads_inv {B} tok (k : string -> string -> M S B) (w : World S) r w' :
  (let* base := get_branch_reference h tok in
   let* baseTree := get_base_commit h tok base in
   k base baseTree) w = (r, w') ->
  exists xs reached,
    ReadsEnd h tok xs reached /\
    match reached with
    | None => is_Threw r /\ trace w' = trace w ++ xs
    | Some (base, baseTree) =>
        exists w2, trace w2 = trace w ++ xs /\ k base baseTree w2 = (r, w')
    end.
Proof.
  intros H. apply bind_inv in H as [(base & w1 & H1 & H)|(t & H1 & ->)].
  - apply get_branch_reference_Returned in H1 as (resp1 & d1 & F1 & O1 & J1 & ->).
    apply step_trace in F1.
    apply bind_inv in H as [(baseTree & w2 & H2 & H)|(t & H2 & ->)].
    + apply get_base_commit_Returned in H2 as (resp2 & d2 & F2 & O2 & J2 & ->).
      apply step_trace in F2.
      eexists _, _. split; [by apply (reads_done h tok resp1 d1 resp2 d2)|].
      exists w2. split; [|done]. rewrite F2, F1. by rewrite <- app_assoc.
    + apply get_base_commit_inv in H2 as (res2 & F2 & E2). apply step_trace in F2.
      eexists _, _. split; [apply (reads_commit_failed h tok resp1 d1 res2); try done|].
      * destruct res2 as [resp2|]; [|done]. cbn [payload declined] in *.
        destruct (ok resp2); [|by left]. right. by destruct (json resp2).
      * split; [done|]. rewrite F2, F1. by rewrite <- app_assoc.
  - apply get_branch_reference_inv in H1 as (res1 & F1 & E1). apply step_trace in F1.
    eexists _, _. split; [apply (reads_ref_failed h tok res1)|done].
    destruct res1 as [resp1|]; [|done]. cbn [payload declined] in *.
    destruct (ok resp1); [|by left]. right. by destruct (json resp1).
Qed.

Lemma writes_inv {B} tok message base baseTree entries
      (mk : GitHubTree -> GitHubNewCommit -> B) (w : World S) r w' :
  (let* treeData := create_tree h tok baseTree entries in
   let* newCommitData := create_commit h tok message (tree_sha treeData) base in
   let* _ := update_reference h tok (nc_sha newCommitData) in
   ret (mk treeData newCommitData)) w = (r, w') ->
  exists ys fin,
    WritesEnd h tok message base baseTree entries ys fin /\
    trace w' = trace w ++ ys /\
    match fin with
    | None => is_Threw r
    | Some (res5, treeD, newCommitD) =>
        r = match update_failure h res5 with
            | Some t => Threw t
            | None => Returned (mk treeD newCommitD)
            end
    end.
Proof.
  intros H. apply bind_inv in H as [(treeD & w3 & H3 & H)|(t & H3 & ->)].
  - apply create_tree_Returned in H3 as (resp3 & F3 & _ & _). apply step_trace in F3.
    apply bind_inv in H as [(newCommitD & w4 & H4 & H)|(t & H4 & ->)].
    + apply create_commit_Returned in H4 as (resp4 & F4 & _ & _). apply step_trace in F4.
      apply bind_inv in H as [(u & w5 & H5 & H)|(t & H5 & ->)].
      * unfold ret in H. injection H as <- <-.
        apply update_reference_inv in H5 as (res5 & F5 & E5).
        pose proof (step_trace _ _ _ _ _ F5) as T5.
        eexists _, _. split; [apply (writes_update h tok message base baseTree entries resp3 treeD resp4 newCommitD res5)|].
        split; [rewrite T5, F4, F3; by rewrite <- !app_assoc|].
        by destruct (update_failure h res5).
      * apply update_reference_inv in H5 as (res5 & F5 & E5).
        pose proof (step_trace _ _ _ _ _ F5) as T5.
        eexists _, _. split; [apply (writes_update h tok message base baseTree entries resp3 treeD resp4 newCommitD res5)|].
        split; [rewrite T5, F4, F3; by rewrite <- !app_assoc|].
        destruct (update_failure h res5); [by injection E5 as ->|done].
    + apply create_commit_inv in H4 as (res4 & F4 & E4). apply step_trace in F4.
      eexists _, _.
      split; [apply (writes_commit_failed h tok message base baseTree entries
                       resp3 treeD res4)|].
      * destruct res4 as [resp4|]; [|done]. cbn [payload declined] in *.
        destruct (ok resp4); [|by left]. right. by rewrite <- E4.
      * split; [|done]. rewrite F4, F3. by rewrite <- app_assoc.
  - apply create_tree_inv in H3 as (res3 & F3 & E3). apply step_trace in F3.
    eexists _, _.
    split; [apply (writes_tree_failed h tok message base baseTree entries res3)|done].
    destruct res3 as [resp3|]; [|done]. cbn [payload declined] in *.
    destruct (ok resp3); [|by left]. right. by rewrite <- E3.
Qed.

End Stages.

Section Failures.
Context {S : Type} (h : Host S).

Ltac literal_prefix := intros Heq; simpl in Heq; discriminate Heq.

(** What [Promise.all] over the file reads rejects with. *)
Lemma read_tree_entries_Threw ps t :
  Promise_all h (map (read_tree_entry h) ps) = Threw t ->
  exists p cause,
    p ∈ ps /\ readFile h (fullPath h p) = Threw cause /\
    t = new_Error h ("Failed to read file '" +:+ fullPath h p +:+ "': "
                     +:+ message_or_value cause).
Proof.
  intros H. apply Promise_all_Threw in H.
  apply list_elem_of_fmap in H as (p & Hp & Hin). exists p.
  unfold read_tree_entry in Hp.
  destruct (readFile h (fullPath h p)) as [|cause]; [done|].
  injection Hp as ->. eauto.
Qed.

Lemma try_catch_inv {A} (m : M S A) handler (w : World S) r w' :
  try_catch m handler w = (r, w') ->
  (exists a, m w = (Returned a, w') /\ r = Returned a) \/
  (exists t w1, m w = (Threw t, w1) /\ handler t w1 = (r, w')).
Proof.
  unfold try_catch. destruct (m w) as [[a|t] w1]; intros H.
  - injection H as <- <-. left. eauto.
  - right. eauto.
Qed.

(** The outer [catch] keeps the world and always throws. *)
Lemma rethrow_normalized_Threw {A} tool error (w : World S) (r : Outcome A) w' :
  rethrow_normalized h tool error w = (r, w') -> w' = w /\ exists t, r = Threw t.
Proof.
  intros H. apply rethrow_normalized_inv in H as (-> & msg & -> & _). eauto.
Qed.

Lemma update_failure_kept {A} tool res5 t (w : World S) :
  update_failure h res5 = Some t ->
  rethrow_normalized (A:=A) h tool t w = (Threw t, w).
Proof.
  unfold update_failure. destruct res5 as [resp|fe].
  - destruct (ok resp); [done|]. intros [= <-].
    apply rethrow_normalized_same; literal_prefix.
  - intros [= <-]. apply rethrow_normalized_same; literal_prefix.
Qed.

Lemma commit_files_try_stages files message (w : World S) r w' :
  commit_files_try h files message w = (r, w') ->
  (r = Threw (token_error h) /\ w' = w /\
   githubToken_required h w = (Threw (token_error h), w)) \/
  exists tok xs reached,
    GITHUB_TOKEN (env h) = Some tok /\ tok <> "" /\
    ReadsEnd h tok xs reached /\
    match reached with
    | None => is_Threw r /\ trace w' = trace w ++ xs
    | Some (base, baseTree) =>
        match Promise_all h (map (read_tree_entry h) (map processedFile files)) with
        | Threw t => r = Threw t /\ trace w' = trace w ++ xs
        | Returned entries =>
            exists ys fin,
              WritesEnd h tok message base baseTree entries ys fin /\
              trace w' = trace w ++ xs ++ ys /\
              match fin with
              | None => is_Threw r
              | Some (res5, treeD, newCommitD) =>
                  r = match update_failure h res5 with
                      | Some t => Threw t
                      | None =>
                          Returned
                            {| cf_commit :=
                                 {| cs_sha := nc_sha newCommitD;
                                    cs_message := nc_message newCommitD;
                                    cs_author := nc_author_name newCommitD;
                                    cs_date := nc_author_date newCommitD |};
                               cf_files := map processedFile files;
                               cf_tree_sha := tree_sha treeD |}
                      end
              end
        end
    end.
Proof.
  unfold commit_files_try. intros H.
  apply bind_inv in H as [(tok & w0 & Htok & H)|(t & Htok & ->)];
    pose proof Htok as Htok'; apply githubToken_required_inv in Htok as [-> Htok].
  2:{ left. destruct Htok as [(? & _ & _ & [=])|[= ->]]. done. }
  right. destruct Htok as [(tok' & Henv & Hne & [= <-])|[=]].
  apply reads_inv in H as (xs & reached & Hreads & H).
  exists tok, xs, reached. do 3 (split; [done|]).
  destruct reached as [[base baseTree]|]; [|done].
  destruct H as (w2 & T2 & H).
  apply bind_inv in H as [(entries & w2' & H3 & H)|(t & H3 & ->)];
    unfold await in H3; injection H3 as H3 <-; rewrite H3.
  - apply writes_inv in H as (ys & fin & Hwrites & T & H).
    exists ys, fin. split; [done|]. split; [|done].
    rewrite T, T2. by rewrite <- app_assoc.
  - done.
Qed.

Lemma commit_files_stages files message (w : World S) r w' :
  commit_files h files message w = (r, w') ->
  (r = Threw (token_error h) /\ w' = w /\
   githubToken_required h w = (Threw (token_error h), w)) \/
  exists tok xs reached,
    GITHUB_TOKEN (env h) = Some tok /\ tok <> "" /\
    ReadsEnd h tok xs reached /\
    match reached with
    | None => is_Threw r /\ trace w' = trace w ++ xs
    | Some (base, baseTree) =>
        match Promise_all h (map (read_tree_entry h) (map processedFile files)) with
        | Threw t => r = Threw t /\ trace w' = trace w ++ xs
        | Returned entries =>
            exists ys fin,
              WritesEnd h tok message base baseTree entries ys fin /\
              trace w' = trace w ++ xs ++ ys /\
              match fin with
              | None => is_Threw r
              | Some (res5, treeD, newCommitD) =>
                  r = match update_failure h res5 with
                      | Some t => Threw t
                      | None =>
                          Returned
                            {| cf_commit :=
                                 {| cs_sha := nc_sha newCommitD;
                                    cs_message := nc_message newCommitD;
                                    cs_author := nc_author_name newCommitD;
                                    cs_date := nc_author_date newCommitD |};
                               cf_files := map processedFile files;
                               cf_tree_sha := tree_sha treeD |}
                      end
              end
        end
    end.
Proof.
  unfold commit_files. intros H.
  apply try_catch_inv in H as [(a & H & ->)|(t & w1 & H & Hr)].
  { by apply commit_files_try_stages. }
  apply commit_files_try_stages in H as [([= ->] & -> & Htok)|H].
  { left. unfold token_error in Hr.
    rewrite rethrow_normalized_same in Hr by literal_prefix.
    by injection Hr as <- <-. }
  right. destruct H as (tok & xs & reached & Henv & Hne & Hreads & H).
  exists tok, xs, reached. do 3 (split; [done|]).
  pose proof (rethrow_normalized_Threw _ _ _ _ _ Hr) as [-> [t' ->]].
  destruct reached as [[base baseTree]|]; [|by destruct H].
  destruct (Promise_all h _) as [entries|t0] eqn:Hall.
  - destruct H as (ys & fin & Hwrites & T & H). exists ys, fin. do 2 (split; [done|]).
    destruct fin as [[[res5 treeD] newCommitD]|]; [|done].
    destruct (update_failure h res5) as [t5|] eqn:H5; [|done].
    injection H as ->. rewrite (update_failure_kept _ _ _ _ H5) in Hr.
    by injection Hr as <-.
  - destruct H as [[= ->] T]. split; [|done].
    apply read_tree_entries_Threw in Hall as (p & cause & _ & _ & ->).
    rewrite rethrow_normalized_same in Hr by literal_prefix. by injection Hr as <-.
Qed.

Lemma delete_files_try_stages paths message (w : World S) r w' :
  delete_files_try h paths message w = (r, w') ->
  (r = Threw (token_error h) /\ w' = w /\
   githubToken_required h w = (Threw (token_error h), w)) \/
  exists tok,
    GITHUB_TOKEN (env h) = Some tok /\ tok <> "" /\
    match map_throwing (processedPath h) paths with
    | Threw t => r = Threw t /\ w' = w
    | Returned processedPaths =>
        exists xs reached,
          ReadsEnd h tok xs reached /\
          match reached with
          | None => is_Threw r /\ trace w' = trace w ++ xs
          | Some (base, baseTree) =>
              exists ys fin,
                WritesEnd h tok message base baseTree
                  (map deletion_entry processedPaths) ys fin /\
                trace w' = trace w ++ xs ++ ys /\
                match fin with
                | None => is_Threw r
                | Some (res5, treeD, newCommitD) =>
                    r = match update_failure h res5 with
                        | Some t => Threw t
                        | None =>
                            Returned
                              {| df_commit :=
                                   {| cs_sha := nc_sha newCommitD;
                                      cs_message := nc_message newCommitD;
                                      cs_author := nc_author_name newCommitD;
                                      cs_date := nc_author_date newCommitD |};
                                 df_deletedFiles := processedPaths;
                                 df_tree_sha := tree_sha treeD |}
                        end
                end
          end
    end.
Proof.
  unfold delete_files_try. intros H.
  apply bind_inv in H as [(tok & w0 & Htok & H)|(t & Htok & ->)];
    pose proof Htok as Htok'; apply githubToken_required_inv in Htok as [-> Htok].
  2:{ left. destruct Htok as [(? & _ & _ & [=])|[= ->]]. done. }
  right. destruct Htok as [(tok' & Henv & Hne & [= <-])|[=]].
  exists tok. do 2 (split; [done|]).
  apply bind_inv in H as [(processed & w0 & Hp & H)|(t & Hp & ->)];
    unfold await in Hp; injection Hp as Hp <-; rewrite Hp; [|done].
  apply reads_inv in H as (xs & reached & Hreads & H).
  exists xs, reached. split; [done|].
  destruct reached as [[base baseTree]|]; [|done].
  destruct H as (w2 & T2 & H).
  apply writes_inv in H as (ys & fin & Hwrites & T & H).
  exists ys, fin. split; [done|]. split; [|done].
  rewrite T, T2. by rewrite <- app_assoc.
Qed.

Lemma delete_files_stages paths message (w : World S) r w' :
  delete_files h paths message w = (r, w') ->
  (r = Threw (token_error h) /\ w' = w /\
   githubToken_required h w = (Threw (token_error h), w)) \/
  exists tok,
    GITHUB_TOKEN (env h) = Some tok /\ tok <> "" /\
    match map_throwing (processedPath h) paths with
    | Threw t => r = Threw t /\ w' = w
    | Returned processedPaths =>
        exists xs reached,
          ReadsEnd h tok xs reached /\
          match reached with
          | None => is_Threw r /\ trace w' = trace w ++ xs
          | Some (base, baseTree) =>
              exists ys fin,
                WritesEnd h tok message base baseTree
                  (map deletion_entry processedPaths) ys fin /\
                trace w' = trace w ++ xs ++ ys /\
                match fin with
                | None => is_Threw r
                | Some (res5, treeD, newCommitD) =>
                    r = match update_failure h res5 with
                        | Some t => Threw t
                        | None =>
                            Returned
                              {| df_commit :=
                                   {| cs_sha := nc_sha newCommitD;
                                      cs_message := nc_message newCommitD;
                                      cs_author := nc_author_name newCommitD;
                                      cs_date := nc_author_date newCommitD |};
                                 df_deletedFiles := processedPaths;
                                 df_tree_sha := tree_sha treeD |}
                        end
                end
          end
    end.
Proof.
  unfold delete_files. intros H.
  apply try_catch_inv in H as [(a & H & ->)|(t & w1 & H & Hr)].
  { by apply delete_files_try_stages. }
  apply delete_files_try_stages in H as [([= ->] & -> & Htok)|H].
  { left. unfold token_error in Hr.
    rewrite rethrow_normalized_same in Hr by literal_prefix.
    by injection Hr as <- <-. }
  right. destruct H as (tok & Henv & Hne & H).
  exists tok. do 2 (split; [done|]).
  pose proof (rethrow_normalized_Threw _ _ _ _ _ Hr) as [-> [t' ->]].
  destruct (map_throwing (processedPath h) paths) as [processed|t0] eqn:Hmap.
  - destruct H as (xs & reached & Hreads & H). exists xs, reached. split; [done|].
    destruct reached as [[base baseTree]|]; [|by destruct H].
    destruct H as (ys & fin & Hwrites & T & H). exists ys, fin. do 2 (split; [done|]).
    destruct fin as [[[res5 treeD] newCommitD]|]; [|done].
    destruct (update_failure h res5) as [t5|] eqn:H5; [|done].
    injection H as ->. rewrite (update_failure_kept _ _ _ _ H5) in Hr.
    by injection Hr as <-.
  - destruct H as [[= ->] ->]. split; [|done].
    destruct (map_throwing_Threw _ _ _ Hmap) as (pre & p & post & _ & Hp & _).
    apply processedPath_Threw in Hp as (_ & _ & ->). unfold path_error in *.
    rewrite rethrow_normalized_same in Hr by literal_prefix. by injection Hr as <-.
Qed.

(** *** The shape of every run *)

Lemma ReadsEnd_quiet tok xs reached :
  ReadsEnd h tok xs reached -> Forall quiet xs.
Proof. destruct 1; repeat constructor; done. Qed.

Lemma ReadsEnd_GET tok xs reached :
  ReadsEnd h tok xs reached -> Forall (fun x => method (exch_request x) = GET) xs.
Proof. destruct 1; repeat constructor. Qed.

Lemma WritesEnd_shape {A} tok message base baseTree entries ys fin (r : Outcome A) :
  WritesEnd h tok message base baseTree entries ys fin ->
  match fin with
  | None => is_Threw r
  | Some (res5, _, _) =>
      match update_failure h res5 with
      | Some t => r = Threw t
      | None => exists a, r = Returned a
      end
  end ->
  RunShape h ys r /\
  forall xs, Forall quiet xs -> RunShape h (xs ++ ys) r.
Proof.
  assert (forall xs ys, Forall quiet xs -> RunShape h ys r -> RunShape h (xs ++ ys) r)
    as Hpre.
  { intros xs ys0 Hxs Hys. destruct Hys as [ys0 t Hys|pre tok' sha res5 r' Hq Hr].
    - constructor. by apply Forall_app.
    - rewrite app_assoc. constructor; [by apply Forall_app|done]. }
  intros Hw Hr. cut (RunShape h ys r); [by eauto|].
  destruct Hw as [res3|resp3 treeD res4|resp3 treeD resp4 newCommitD res5].
  - destruct r; [done|]. repeat constructor; done.
  - destruct r; [done|]. repeat constructor; done.
  - apply (shape_update h
             [Exch EPostTree (tree_request h tok baseTree entries) (Returned resp3);
              Exch EPostCommit (new_commit_request h tok message (tree_sha treeD) base)
                (Returned resp4)]); [|done].
    repeat constructor; done.
Qed.

Lemma commit_files_shape files message (w : World S) r w' :
  commit_files h files message w = (r, w') ->
  exists new, trace w' = trace w ++ new /\ RunShape h new r.
Proof.
  intros H. apply commit_files_stages in H as [(-> & -> & _)|H].
  { exists []. split; [by rewrite app_nil_r|]. by constructor. }
  destruct H as (tok & xs & reached & _ & _ & Hreads & H).
  pose proof (ReadsEnd_quiet _ _ _ Hreads) as Hq.
  destruct reached as [[base baseTree]|].
  - destruct (Promise_all h _) as [entries|t].
    + destruct H as (ys & fin & Hwrites & T & H). exists (xs ++ ys). split; [done|].
      eapply WritesEnd_shape; [exact Hwrites| |exact Hq].
      destruct fin as [[[res5 ?] ?]|]; [|done].
      destruct (update_failure h res5); [done|eauto].
    + destruct H as [-> T]. exists xs. split; [done|]. by constructor.
  - destruct H as [Hr T]. exists xs. split; [done|]. destruct r; [done|]. by constructor.
Qed.

Lemma delete_files_shape paths message (w : World S) r w' :
  delete_files h paths message w = (r, w') ->
  exists new, trace w' = trace w ++ new /\ RunShape h new r.
Proof.
  intros H. apply delete_files_stages in H as [(-> & -> & _)|H].
  { exists []. split; [by rewrite app_nil_r|]. by constructor. }
  destruct H as (tok & _ & _ & H).
  destruct (map_throwing (processedPath h) paths) as [processed|t].
  2:{ destruct H as [-> ->]. exists []. split; [by rewrite app_nil_r|]. by constructor. }
  destruct H as (xs & reached & Hreads & H).
  pose proof (ReadsEnd_quiet _ _ _ Hreads) as Hq.
  destruct reached as [[base baseTree]|].
  - destruct H as (ys & fin & Hwrites & T & H). exists (xs ++ ys). split; [done|].
    eapply WritesEnd_shape; [exact Hwrites| |exact Hq].
    destruct fin as [[[res5 ?] ?]|]; [|done].
    destruct (update_failure h res5); [done|eauto].
  - destruct H as [Hr T]. exists xs. split; [done|]. destruct r; [done|]. by constructor.
Qed.

Lemma RunShape_map {A B} (f : A -> B) new (r : Outcome A) :
  RunShape h new r ->
  RunShape h new (match r with Returned a => Returned (f a) | Threw t => Threw t end).
Proof.
  destruct 1 as [xs t Hq|pre tok sha res5 r Hq Hr].
  - by constructor.
  - constructor; [done|]. destruct (update_failure h res5).
    + by subst r.
    + destruct Hr as [a ->]. eauto.
Qed.

Lemma call_tool_inv call (w : World S) r w' :
  call_tool h call w = (r, w') ->
  match call with
  | commit_files_call files message =>
      exists r0, commit_files h files message w = (r0, w') /\
        r = match r0 with
            | Returned a => Returned (commit_files_output a)
            | Threw t => Threw t
            end
  | delete_files_call paths message =>
      exists r0, delete_files h paths message w = (r0, w') /\
        r = match r0 with
            | Returned a => Returned (delete_files_output a)
            | Threw t => Threw t
            end
  end.
Proof.
  destruct call as [files message|paths message]; unfold call_tool, bind, ret.
  - destruct (commit_files h files message w) as [[a|t] w1]; intros [= <- <-]; eauto.
  - destruct (delete_files h paths message w) as [[a|t] w1]; intros [= <- <-]; eauto.
Qed.

Lemma call_tool_shape call (w : World S) r w' :
  call_tool h call w = (r, w') ->
  exists new, trace w' = trace w ++ new /\ RunShape h new r.
Proof.
  intros H. apply call_tool_inv in H.
  destruct call as [files message|paths message]; destruct H as (r0 & H & ->).
  - apply commit_files_shape in H as (new & T & Hs). exists new. split; [done|].
    by apply RunShape_map.
  - apply delete_files_shape in H as (new & T & Hs). exists new. split; [done|].
    by apply RunShape_map.
Qed.

End Failures.

(** ** Consequences of the shape of a run *)

Section Shapes.
Context {S : Type} (h : Host S).

Lemma app_same_nil {A} (l new : list A) : l = l ++ new -> new = [].
Proof.
  intros H. symmetry. apply (app_inv_head l). by rewrite app_nil_r.
Qed.

Lemma RunShape_last_update {A} new (r : Outcome A) x res :
  RunShape h new r -> last new = Some x -> update_outcome x = Some res ->
  (exists pre tok sha,
     new = pre ++ [Exch EPatchRef (update_ref_request h tok sha) res] /\ Forall quiet pre) /\
  match update_failure h res with
  | Some t => r = Threw t
  | None => exists a, r = Returned a
  end.
Proof.
  intros Hs Hlast Hx. destruct Hs as [xs t Hq|pre tok sha res5 r Hq Hr].
  - apply last_Some_elem_of in Hlast.
    rewrite Forall_forall in Hq. destruct (Hq x Hlast) as (Hnone & _). congruence.
  - rewrite last_snoc in Hlast. injection Hlast as <-. simpl in Hx.
    injection Hx as <-. split; [|done]. eauto.
Qed.

Lemma RunShape_elem {A} new (r : Outcome A) x :
  RunShape h new r -> x ∈ new ->
  quiet x \/
  exists pre tok sha res,
    x = Exch EPatchRef (update_ref_request h tok sha) res /\
    new = pre ++ [x] /\ Forall quiet pre.
Proof.
  intros Hs Hin. destruct Hs as [xs t Hq|pre tok sha res5 r Hq Hr].
  - left. rewrite Forall_forall in Hq. auto.
  - apply elem_of_app in Hin as [Hin|Hin].
    + left. rewrite Forall_forall in Hq. auto.
    + apply list_elem_of_singleton in Hin as ->. right. eauto 10.
Qed.

(** What the outer [catch] throws for each caught value. *)
Lemma rethrow_normalized_spec {A} tool error (w : World S) :
  exists msg,
    rethrow_normalized (A:=A) h tool error w = (Threw (new_Error h msg), w) /\
    msg <> "" /\
    let errorMessage :=
      if instanceof_Error error then default "" (err_message error)
      else to_String error in
    if decide (errorMessage = "" \/ errorMessage = "undefined"
               \/ errorMessage = "[object Object]")
    then exists rest, msg = "Failed to " +:+ tool +:+ " files: " +:+ rest
    else msg = errorMessage.
Proof.
  unfold rethrow_normalized, throw, truthy. cbv zeta.
  set (errorMessage := if instanceof_Error error then _ else _).
  destruct (decide _) as [Hd|Hd].
  - assert (negb (negb (String.eqb errorMessage "")) || String.eqb errorMessage "undefined"
            || String.eqb errorMessage "[object Object]" = true) as ->.
    { clearbody errorMessage. destruct Hd as [-> | [-> | ->] ]; done. }
    destruct (instanceof_Error error), (err_stack error) as [stack|];
      try destruct (negb (String.eqb stack ""));
      eexists; (split; [done|]); (split; [by destruct tool|]); eauto.
  - assert (negb (negb (String.eqb errorMessage "")) || String.eqb errorMessage "undefined"
            || String.eqb errorMessage "[object Object]" = false) as ->.
    { destruct (String.eqb_spec errorMessage ""); [tauto|].
      destruct (String.eqb_spec errorMessage "undefined"); [tauto|].
      destruct (String.eqb_spec errorMessage "[object Object]"); [tauto|]. done. }
    exists errorMessage. split; [done|]. split; [|done]. tauto.
Qed.

Lemma call_tool_Threw call (w : World S) t w' :
  call_tool h call w = (Threw t, w') ->
  exists msg, t = new_Error h msg /\ msg <> "".
Proof.
  intros H. apply call_tool_inv in H.
  destruct call as [files message|paths message]; destruct H as ([a|t0] & H & [= <-]).
  - unfold commit_files in H. apply try_catch_inv in H as [(a & _ & [=])|(e & w1 & _ & H)].
    apply rethrow_normalized_inv in H as (_ & msg & [= ->] & Hne & _). eauto.
  - unfold delete_files in H. apply try_catch_inv in H as [(a & _ & [=])|(e & w1 & _ & H)].
    apply rethrow_normalized_inv in H as (_ & msg & [= ->] & Hne & _). eauto.
Qed.

End Shapes.

(** C1, as stated, fails: the remote answers the reference update with a
    500 after the tree [tree1] and the commit [c2] were created; the error
    returned to the caller mentions neither sha. *)
Lemma ref_update_error_omits_shas :
  let H := demo_host update_500 demo_env in
  let run := call_tool H (commit_files_call ["README.md"] "update docs") fresh in
  trace run.2 =
    [ Exch EGetRef (ref_request H "ghs_secret")
        (Returned (reply 200 {| ref_object_sha := "base1" |}));
      Exch EGetCommit (commit_request H "ghs_secret" "base1")
        (Returned (reply 200 {| commit_tree_sha := "tree0" |}));
      Exch EPostTree
        (tree_request H "ghs_secret" "tree0" [blob_entry "README.md" "# demo"])
        (Returned (reply 201 {| tree_sha := "tree1" |}));
      Exch EPostCommit (new_commit_request H "ghs_secret" "update docs" "tree1" "base1")
        (Returned (reply 201
           {| nc_sha := "c2"; nc_message := "update docs";
              nc_author_name := "bot"; nc_author_date := "2025-01-01T00:00:00Z" |}));
      Exch EPatchRef (update_ref_request H "ghs_secret" "c2")
        (Returned (refusal 500 "Internal Server Error")) ] /\
  exists err,
    run.1 = Threw err /\
    err_message err = Some "Failed to update reference: 500 - Internal Server Error" /\
    mentions err "tree1" = false /\
    mentions err "c2" = false.
Proof.
  split; [vm_compute; reflexivity|].
  eexists. split; [vm_compute; reflexivity|].
  split; [|split]; vm_compute; reflexivity.
Qed.

(** C1, amended.  When the last exchange of a [commit_files] or
    [delete_files] call is the reference update and it failed, the error
    returned to the caller is built from the outcome of that exchange
    alone: for a transport failure its message is
    ["Network error during reference update: "] followed by the cause's
    message (or ["Unknown fetch error"]), for a non-2xx reply it is
    ["Failed to update reference: <status> - <body>"] (with
    ["Unable to read error response"] when the body cannot be read).  The
    shas of the tree and commit created before are not part of it. *)
Theorem ref_update_error_payload {S} (h : Host S) call (w : World S) r w' new x res :
  call_tool h call w = (r, w') ->
  trace w' = trace w ++ new ->
  last new = Some x ->
  update_outcome x = Some res ->
  match res with
  | Threw fetchError =>
      r = Threw (new_Error h ("Network error during reference update: " +:+
                   match err_message fetchError with
                   | Some m => if truthy m then m else "Unknown fetch error"
                   | None => "Unknown fetch error"
                   end))
  | Returned updateRefResponse =>
      ok updateRefResponse = false ->
      r = Threw (new_Error h ("Failed to update reference: "
                   +:+ pretty (status updateRefResponse) +:+ " - " +:+
                   match text updateRefResponse with
                   | Returned errorText => errorText
                   | Threw _ => "Unable to read error response"
                   end))
  end.
Proof.
  intros Hrun Htr Hlast Hx.
  apply call_tool_shape in Hrun as (new' & Htr' & Hshape).
  rewrite Htr' in Htr. apply app_inv_head in Htr as ->.
  destruct (RunShape_last_update h _ _ _ _ Hshape Hlast Hx) as [_ Hr].
  unfold update_failure in Hr. destruct res as [resp|fetchError].
  - intros Hok. cbn [payload] in *. by rewrite Hok in Hr.
  - done.
Qed.

Lemma ref_update_error_payload_witness :
  (call_tool (demo_host update_unreachable demo_env)
     (commit_files_call ["README.md"] "update docs") fresh).1
  = Threw (new_Error (demo_host update_unreachable demo_env)
             "Network error during reference update: socket hang up").
Proof.
  set (H := demo_host update_unreachable demo_env).
  set (call := commit_files_call ["README.md"] "update docs").
  exact (ref_update_error_payload H call fresh
           (call_tool H call fresh).1 (call_tool H call fresh).2
           (trace (call_tool H call fresh).2)
           (Exch EPatchRef (update_ref_request H "ghs_secret" "c2")
              (Threw (library_error "socket hang up")))
           (Threw (library_error "socket hang up"))
           eq_refl eq_refl eq_refl eq_refl).
Defined.

(** C2, as stated, fails: a [commit_files] call against a remote on which
    every call succeeds returns its result after five exchanges, the last
    of which is the PATCH; no GET follows it. *)
Lemma no_read_back_performed :
  let run := call_tool (demo_host happy demo_env)
               (commit_files_call ["README.md"] "update docs") fresh in
  (exists out, run.1 = Returned out) /\
  map (fun x => method (exch_request x)) (trace run.2) = [GET; GET; POST; POST; PATCH] /\
  reads_back (trace run.2) = false.
Proof.
  split; [eexists; vm_compute; reflexivity|].
  split; vm_compute; reflexivity.
Qed.

(** C2, amended.  In every [commit_files] or [delete_files] call that
    returns a result, the acknowledged reference update is the last
    exchange of the call: it asks for the sha of the commit the result
    reports, nothing is read back after it, and no earlier exchange is a
    reference update. *)
Theorem update_is_last_exchange {S} (h : Host S) call (w : World S) out w' new :
  call_tool h call w = (Returned out, w') ->
  trace w' = trace w ++ new ->
  reads_back new = false /\
  exists pre githubToken updateRefResponse,
    new = pre ++ [ Exch EPatchRef
                     {| method := PATCH; url := refUrl h;
                        headers := json_headers githubToken;
                        body := Some (RefBody (output_sha out) false) |}
                     (Returned updateRefResponse) ] /\
    ok updateRefResponse = true /\
    Forall (fun x => is_PATCH (method (exch_request x)) = false) pre.
Proof.
  intros Hrun Htr. apply call_tool_inv in Hrun.
  assert (exists tok message (t : Transcript),
             acknowledged t /\ new = exchanges h tok message t /\
             output_sha out = nc_sha (newCommitData t)) as (tok & message & t & Hack & -> & Hsha).
  { destruct call as [files message|paths message];
      destruct Hrun as ([a|t0] & H & [= ->]).
    - apply commit_files_Returned in H as (tok & t & _ & _ & Hack & _ & Htr' & ->).
      rewrite Htr' in Htr. apply app_inv_head in Htr. eauto 10.
    - apply delete_files_Returned in H as (tok & t & ps & _ & _ & Hack & _ & _ & Htr' & ->).
      rewrite Htr' in Htr. apply app_inv_head in Htr. eauto 10. }
  split; [reflexivity|].
  destruct Hack as (_ & _ & _ & _ & Hok).
  exists (take 4 (exchanges h tok message t)), tok, (updateRefResponse t).
  rewrite Hsha. split; [reflexivity|]. split; [done|]. repeat constructor.
Qed.

Lemma update_is_last_exchange_witness :
  let run := call_tool (demo_host happy demo_env)
               (delete_files_call ["docs/old.md"] "drop old docs") fresh in
  reads_back (trace run.2) = false.
Proof.
  set (H := demo_host happy demo_env).
  set (call := delete_files_call ["docs/old.md"] "drop old docs").
  exact (proj1 (update_is_last_exchange H call fresh _ (call_tool H call fresh).2
                  (trace (call_tool H call fresh).2) eq_refl eq_refl)).
Defined.

(** ** Against a remote that only fast-forwards *)

Section FastForward.
Context {S : Type} (tip : S -> string) (parents : S -> string -> list string).
Context (h : Host S).

Lemma update_reference_refused tok newSha base (w : World S) :
  fast_forward_only tip parents h ->
  parents (remote w) newSha = [base] ->
  tip (remote w) <> newSha ->
  ~ in_history parents (remote w) (tip (remote w)) base ->
  exists resp w',
    update_reference h tok newSha w = (Threw (update_rejected_error h resp), w') /\
    ok resp = false /\ remote w' = remote w.
Proof.
  intros Hrule Hparents Hfresh Hmoved.
  destruct (Hrule (remote w) (update_ref_request h tok newSha) newSha eq_refl)
    as (resp & Hresp & Hok).
  { intros Hin. inversion Hin as [|c p Hp Hrest]; subst; [done|].
    rewrite Hparents in Hp. apply list_elem_of_singleton in Hp as ->. done. }
  exists resp. eexists. unfold update_reference, bind, try_catch, fetch.
  rewrite Hresp. cbn [payload] in *. rewrite Hok. simpl. unfold throw. done.
Qed.

End FastForward.

Lemma reachable_in_history fuel s a c :
  reachable fuel s a c = true -> in_history parents_of s a c.
Proof.
  revert c. induction fuel as [|n IH]; intros c; simpl; intros H.
  - rewrite orb_false_r in H. apply String.eqb_eq in H as ->. constructor.
  - apply orb_true_iff in H as [H|H].
    + apply String.eqb_eq in H as ->. constructor.
    + apply existsb_exists in H as (p & Hp & Hr).
      apply (history_parent _ _ _ c p); [by apply list_elem_of_In|by apply IH].
Qed.

Lemma repo_host_fast_forward_only sc e :
  fast_forward_only repo_tip parents_of (repo_host sc e).
Proof.
  intros s req sha Hbody Hnot. simpl. unfold repo_respond. rewrite Hbody. simpl.
  destruct (reachable _ s (repo_tip s) sha) eqn:E.
  - destruct Hnot. by eapply reachable_in_history.
  - eauto.
Qed.

(** C7. In every [commit_files] or [delete_files] call, whatever the remote
    answers: no request carries [force: true]; a PATCH, if one is made, is
    the last exchange of the call and the only PATCH, goes to the branch
    reference and carries [force: false]; and when that PATCH is refused
    or fails in transport the call throws, so nothing is sent after a
    refusal and a refused update is never repeated with force.  Against a
    remote that only fast-forwards, step 6 therefore throws and leaves the
    remote as it is whenever the branch reference has moved to a commit
    outside the history of the new commit, whose single parent is the tip
    read in step 1. *)
Theorem reference_update_never_forced {S} (h : Host S) call (w : World S) r w' new :
  call_tool h call w = (r, w') ->
  trace w' = trace w ++ new ->
  (forall x sha force,
     x ∈ new -> body (exch_request x) = Some (RefBody sha force) -> force = false) /\
  (forall x,
     x ∈ new -> method (exch_request x) = PATCH ->
     exists pre sha,
       new = pre ++ [x] /\
       Forall (fun y => is_PATCH (method (exch_request y)) = false) pre /\
       url (exch_request x) = refUrl h /\
       body (exch_request x) = Some (RefBody sha false)) /\
  (forall x res,
     last new = Some x -> update_outcome x = Some res ->
     match res with Threw _ => True | Returned resp => ok resp = false end ->
     is_Threw r) /\
  (forall tip parents,
     fast_forward_only tip parents h ->
     forall githubToken newCommitSha baseSha (w0 : World S),
       parents (remote w0) newCommitSha = [baseSha] ->
       tip (remote w0) <> newCommitSha ->
       ~ in_history parents (remote w0) (tip (remote w0)) baseSha ->
       exists t w1,
         update_reference h githubToken newCommitSha w0 = (Threw t, w1) /\
         remote w1 = remote w0).
Proof.
  intros Hrun Htr.
  apply call_tool_shape in Hrun as (new' & Htr' & Hshape).
  rewrite Htr' in Htr. apply app_inv_head in Htr as ->.
  split; [|split; [|split]].
  - intros x sha force Hin Hbody.
    destruct (RunShape_elem h _ _ _ Hshape Hin)
      as [(_ & _ & Hq)|(pre & tok & sha' & res & -> & _ & _)].
    + by destruct (Hq sha force).
    + simpl in Hbody. by injection Hbody as _ <-.
  - intros x Hin Hm.
    destruct (RunShape_elem h _ _ _ Hshape Hin)
      as [(_ & Hq & _)|(pre & tok & sha' & res & -> & -> & Hpre)].
    + rewrite Hm in Hq. done.
    + exists pre, sha'. split; [done|]. split; [|done].
      eapply Forall_impl; [exact Hpre|]. by intros y (_ & ? & _).
  - intros x res Hlast Hx Hres.
    destruct (RunShape_last_update h _ _ _ _ Hshape Hlast Hx) as [_ Hr].
    unfold update_failure in Hr. destruct res as [resp|].
    + cbn [payload] in *. rewrite Hres in Hr. by subst r.
    + by subst r.
  - intros tip parents Hrule tok newSha base w0 Hparents Hfresh Hmoved.
    destruct (update_reference_refused tip parents h tok newSha base w0
                Hrule Hparents Hfresh Hmoved) as (resp & w1 & Hrun & _ & Hsame).
    eauto.
Qed.

Lemma reference_update_never_forced_witness :
  let H := repo_host happy demo_env in
  let run := call_tool H (commit_files_call ["README.md"] "update docs") moved_on in
  (is_Threw run.1 /\
   repo_tip (remote run.2) = "x9" /\
   forall x sha force,
     x ∈ trace run.2 -> body (exch_request x) = Some (RefBody sha force) -> force = false) /\
  exists t w1,
    update_reference H "ghs_secret" "c2" moved_on_with_commit = (Threw t, w1) /\
    remote w1 = remote moved_on_with_commit.
Proof.
  set (H := repo_host happy demo_env).
  set (call := commit_files_call ["README.md"] "update docs").
  destruct (reference_update_never_forced H call moved_on
              (call_tool H call moved_on).1 (call_tool H call moved_on).2
              (trace (call_tool H call moved_on).2) eq_refl eq_refl)
    as (Hforce & _ & Hthrows & Hrule).
  split; [split; [|split; [vm_compute; reflexivity|exact Hforce]]|].
  - apply (Hthrows (Exch EPatchRef (update_ref_request H "ghs_secret" "c2")
                      (Returned (refusal 422 "Update is not a fast forward")))
             (Returned (refusal 422 "Update is not a fast forward")));
      [vm_compute; reflexivity|reflexivity|reflexivity].
  - apply (Hrule repo_tip parents_of (repo_host_fast_forward_only happy demo_env)
             "ghs_secret" "c2" "base1" moved_on_with_commit).
    + vm_compute. reflexivity.
    + vm_compute. discriminate.
    + intros Hin. inversion Hin as [|c p Hp _]; subst.
      vm_compute in Hp. inversion Hp.
Defined.

(** C8. Whenever [commit_files] or [delete_files] fails, the value thrown to
    the caller is an [Error] whose message is a non-empty string.  The
    outer [catch] passes the caught message on unless it is empty,
    ["undefined"] or ["[object Object]"]; in those cases it substitutes a
    message that begins with ["Failed to commit files: "] (or
    ["Failed to delete files: "]). *)
Theorem errors_have_messages {S} (h : Host S) call (w : World S) t w' :
  call_tool h call w = (Threw t, w') ->
  (instanceof_Error t = true /\ exists msg, err_message t = Some msg /\ msg <> "") /\
  forall tool error (w0 : World S),
    exists msg,
      rethrow_normalized (A:=ToolOutput) h tool error w0 = (Threw (new_Error h msg), w0) /\
      msg <> "" /\
      let errorMessage :=
        if instanceof_Error error then default "" (err_message error)
        else to_String error in
      if decide (errorMessage = "" \/ errorMessage = "undefined"
                 \/ errorMessage = "[object Object]")
      then exists rest, msg = "Failed to " +:+ tool +:+ " files: " +:+ rest
      else msg = errorMessage.
Proof.
  intros Hrun. split.
  - apply call_tool_Threw in Hrun as (msg & -> & Hne). simpl. eauto.
  - intros tool error w0. apply rethrow_normalized_spec.
Qed.

Lemma errors_have_messages_witness :
  exists t,
    (call_tool (demo_host silent_failure demo_env)
       (commit_files_call ["README.md"] "update docs") fresh).1 = Threw t /\
    err_message t = Some "Failed to commit files: FetchError" /\
    instanceof_Error t = true.
Proof.
  set (H := demo_host silent_failure demo_env).
  set (call := commit_files_call ["README.md"] "update docs").
  eexists. split; [vm_compute; reflexivity|]. split; [reflexivity|].
  exact (proj1 (proj1 (errors_have_messages H call fresh _ (call_tool H call fresh).2
                         eq_refl))).
Defined.

(** ** Reading the files *)

Section Reading.
Context {S : Type} (h : Host S).

Lemma unreadable_rejects files f cause :
  f ∈ files -> readFile h (fullPath h (processedFile f)) = Threw cause ->
  exists p cause',
    p ∈ map processedFile files /\ readFile h (fullPath h p) = Threw cause' /\
    Promise_all h (map (read_tree_entry h) (map processedFile files))
    = Threw (new_Error h ("Failed to read file '" +:+ fullPath h p +:+ "': "
                          +:+ message_or_value cause')).
Proof.
  intros Hin Hread.
  destruct (Promise_all_rejects h (map (read_tree_entry h) (map processedFile files))
              (new_Error h ("Failed to read file '" +:+ fullPath h (processedFile f)
                            +:+ "': " +:+ message_or_value cause)))
    as (t & Hall & _).
  { apply list_elem_of_fmap. exists (processedFile f). split.
    - unfold read_tree_entry. by rewrite Hread.
    - apply list_elem_of_fmap. eauto. }
  destruct (read_tree_entries_Threw h _ _ Hall) as (p & cause' & Hp & Hr & ->).
  eauto 10.
Qed.

Lemma readable_fulfils files :
  (forall f, f ∈ files ->
     exists text, readFile h (fullPath h (processedFile f)) = Returned text) ->
  exists entries,
    Promise_all h (map (read_tree_entry h) (map processedFile files)) = Returned entries.
Proof.
  intros Hall.
  destruct (Promise_all h (map (read_tree_entry h) (map processedFile files)))
    as [entries|t] eqn:E; [eauto|].
  apply read_tree_entries_Threw in E as (p & cause & Hp & Hr & _).
  apply list_elem_of_fmap in Hp as (f & -> & Hf).
  destruct (Hall f Hf) as (text & Ht). congruence.
Qed.

Lemma ReadsEnd_None_declined tok xs :
  ReadsEnd h tok xs None -> Exists exch_declined xs.
Proof.
  inversion 1; subst.
  - by apply Exists_cons_hd.
  - by apply Exists_cons_tl, Exists_cons_hd.
Qed.

Lemma WritesEnd_None_declined tok message base baseTree entries ys :
  WritesEnd h tok message base baseTree entries ys None -> Exists exch_declined ys.
Proof.
  inversion 1; subst.
  - by apply Exists_cons_hd.
  - by apply Exists_cons_tl, Exists_cons_hd.
Qed.

Lemma not_declined_all xs :
  Forall (fun x => ~ exch_declined x) xs -> Exists exch_declined xs -> False.
Proof.
  intros Hall Hex. apply Exists_exists in Hex as (x & Hin & Hx).
  rewrite Forall_forall in Hall. by apply (Hall x).
Qed.

End Reading.

(** C3, as stated, fails: the input file is missing on disk, but the branch
    does not exist either; the call fails at step 1 and its error names
    the failed request, not the file. *)
Lemma unreadable_file_not_named :
  let H := demo_host no_branch demo_env in
  let run := commit_files H ["missing.txt"] "update docs" fresh in
  is_Threw (readFile H (fullPath H (processedFile "missing.txt"))) /\
  exists err,
    run.1 = Threw err /\
    err_message err = Some "Failed to get branch reference: 404" /\
    mentions err "missing.txt" = false.
Proof.
  split; [exact I|].
  eexists. split; [vm_compute; reflexivity|].
  split; vm_compute; reflexivity.
Qed.

(** C3, amended.  When some input file of a [commit_files] call cannot be
    read, the call fails and every exchange it makes is a GET: no tree, no
    commit and no reference update is requested.  When moreover the
    credential is present and no exchange was declined (the two reads of
    steps 1 and 2 succeeded), the error is
    ["Failed to read file '<full path>': <cause>"] for one of the files that
    cannot be read. *)
Theorem unreadable_file_aborts_before_writes {S} (h : Host S) files message
        (w : World S) r w' new f cause :
  f ∈ files ->
  readFile h (fullPath h (processedFile f)) = Threw cause ->
  commit_files h files message w = (r, w') ->
  trace w' = trace w ++ new ->
  is_Threw r /\
  Forall (fun x => method (exch_request x) = GET) new /\
  (forall githubToken,
     GITHUB_TOKEN (env h) = Some githubToken -> githubToken <> "" ->
     Forall (fun x => ~ exch_declined x) new ->
     exists p cause',
       p ∈ map processedFile files /\
       readFile h (fullPath h p) = Threw cause' /\
       r = Threw (new_Error h ("Failed to read file '" +:+ fullPath h p +:+ "': " +:+
                    match err_message cause' with
                    | Some m => if truthy m then m else to_String cause'
                    | None => to_String cause'
                    end))).
Proof.
  intros Hin Hread Hrun Htr.
  destruct (unreadable_rejects h files f cause Hin Hread) as (p & cause' & Hp & Hr & Hall).
  apply commit_files_stages in Hrun as [(-> & -> & Htok)|H].
  { apply app_same_nil in Htr as ->. split; [done|]. split; [constructor|].
    intros tok Henv Hne _.
    rewrite (githubToken_required_present h tok w Henv Hne) in Htok. done. }
  destruct H as (tok & xs & reached & Henv & Hne & Hreads & H).
  destruct reached as [[base baseTree]|].
  - rewrite Hall in H. destruct H as [-> T].
    rewrite T in Htr. apply app_inv_head in Htr as <-.
    split; [done|]. split; [by eapply ReadsEnd_GET|]. eauto 10.
  - destruct H as [Hthrew T]. rewrite T in Htr. apply app_inv_head in Htr as <-.
    split; [done|]. split; [by eapply ReadsEnd_GET|].
    intros tok' _ _ Hnone. exfalso.
    eapply not_declined_all; [exact Hnone|]. by eapply ReadsEnd_None_declined.
Qed.

Lemma unreadable_file_aborts_before_writes_witness :
  let H := demo_host happy demo_env in
  let run := commit_files H ["README.md"; "missing.txt"] "update docs" fresh in
  is_Threw run.1 /\
  Forall (fun x => method (exch_request x) = GET) (trace run.2).
Proof.
  set (H := demo_host happy demo_env).
  set (files := ["README.md"; "missing.txt"]).
  destruct (unreadable_file_aborts_before_writes H files "update docs" fresh
              (commit_files H files "update docs" fresh).1
              (commit_files H files "update docs" fresh).2
              (trace (commit_files H files "update docs" fresh).2)
              "missing.txt"
              (library_error "ENOENT: no such file or directory, open '/repo/missing.txt'")
              ltac:(apply list_elem_of_further, list_elem_of_here)
              eq_refl eq_refl eq_refl) as (Hthrew & Hget & _).
  split; [exact Hthrew|exact Hget].
Defined.

(** C9, as stated, fails: for a path that begins with two slashes, stripping
    one slash leaves an absolute path; step 3 takes its absolute-path
    branch and reads the file at that location, outside the repository
    root, and its content is submitted in the tree. *)
Lemma absolute_path_is_read_directly :
  let H := demo_host happy demo_env in
  processedFile "//etc/hosts" = "/etc/hosts" /\
  fullPath H (processedFile "//etc/hosts") = "/etc/hosts" /\
  join H (REPO_DIR (env H)) (slice 1 "//etc/hosts") = "/repo/etc/hosts" /\
  readFile H "/repo/etc/hosts"
    = Threw (library_error "ENOENT: no such file or directory, open '/repo/etc/hosts'") /\
  exists r w',
    commit_files H ["//etc/hosts"] "update docs" fresh = (Returned r, w') /\
    Exch EPostTree
      (tree_request H "ghs_secret" "tree0" [blob_entry "/etc/hosts" "127.0.0.1 localhost"])
      (Returned (reply 201 {| tree_sha := "tree1" |})) ∈ trace w'.
Proof.
  do 4 (split; [vm_compute; reflexivity|]).
  eexists _, _. split; [vm_compute; reflexivity|].
  do 2 apply list_elem_of_further. apply list_elem_of_here.
Qed.

(** C9, amended.  [commit_files] strips exactly one leading slash from a
    path that begins with a slash and leaves other paths as they are.  When
    what remains does not begin with a slash, the file is read from the
    repository root directory joined with it; when it still begins with a
    slash (the path began with two slashes), step 3 reads it as an
    absolute path.  No path is rejected: with the credential present the
    first request is made whatever the paths are, and when every file can
    be read where step 3 looks for it and the remote declines nothing, the
    call returns a result. *)
Theorem commit_files_path_resolution {S} (h : Host S) p :
  (startsWith p "/" = true ->
   processedFile p = slice 1 p /\
   (startsWith (slice 1 p) "/" = false ->
    fullPath h (processedFile p) = join h (REPO_DIR (env h)) (slice 1 p)) /\
   (startsWith (slice 1 p) "/" = true ->
    fullPath h (processedFile p) = slice 1 p)) /\
  (startsWith p "/" = false ->
   processedFile p = p /\
   fullPath h (processedFile p) = join h (REPO_DIR (env h)) p) /\
  (forall files message (w : World S) r w' new githubToken,
     p ∈ files ->
     GITHUB_TOKEN (env h) = Some githubToken -> githubToken <> "" ->
     commit_files h files message w = (r, w') ->
     trace w' = trace w ++ new ->
     (exists res1 rest, new = Exch EGetRef (ref_request h githubToken) res1 :: rest) /\
     ((forall f, f ∈ files ->
         exists text, readFile h (fullPath h (processedFile f)) = Returned text) ->
      Forall (fun x => ~ exch_declined x) new ->
      exists a, r = Returned a)).
Proof.
  split; [|split].
  - intros Hs. unfold processedFile, fullPath. rewrite Hs.
    split; [done|]. split; by intros ->.
  - intros Hs. unfold processedFile, fullPath. by rewrite !Hs.
  - intros files message w r w' new tok _ Henv Hne Hrun Htr.
    apply commit_files_stages in Hrun as [(-> & -> & Htok)|H].
    { rewrite (githubToken_required_present h tok w Henv Hne) in Htok. done. }
    destruct H as (tok' & xs & reached & Henv' & _ & Hreads & H).
    assert (tok' = tok) as -> by congruence.
    assert (exists res1 rest, xs = Exch EGetRef (ref_request h tok) res1 :: rest)
      as (res1 & rest & Hxs) by (inversion Hreads; eauto).
    destruct reached as [[base baseTree]|].
    + destruct (Promise_all h _) as [entries|t] eqn:Hall.
      * destruct H as (ys & fin & Hwrites & T & H).
        rewrite T in Htr. apply app_inv_head in Htr as <-.
        split; [rewrite Hxs; simpl; eauto|].
        intros _ Hnone. apply Forall_app in Hnone as [_ Hnone].
        destruct fin as [[[res5 treeD] newCommitD]|].
        -- inversion Hwrites; subst.
           apply Forall_cons in Hnone as [_ Hnone].
           apply Forall_cons in Hnone as [_ Hnone].
           apply Forall_cons in Hnone as [Hnone _]. simpl in Hnone.
           unfold update_failure. destruct res5 as [resp5|]; [|by destruct Hnone].
           cbn [payload declined] in *.
           destruct (ok resp5); [eauto|]. destruct Hnone. by left.
        -- exfalso. eapply not_declined_all; [exact Hnone|].
           by eapply WritesEnd_None_declined.
      * destruct H as [-> T]. rewrite T in Htr. apply app_inv_head in Htr as <-.
        split; [eauto|]. intros Hread _.
        destruct (readable_fulfils h files Hread) as (entries & He). congruence.
    + destruct H as [Hthrew T]. rewrite T in Htr. apply app_inv_head in Htr as <-.
      split; [eauto|]. intros _ Hnone. exfalso.
      eapply not_declined_all; [exact Hnone|]. by eapply ReadsEnd_None_declined.
Qed.

Lemma commit_files_path_resolution_witness :
  let H := demo_host happy demo_env in
  processedFile "/README.md" = "README.md" /\
  fullPath H (processedFile "/README.md") = "/repo/README.md" /\
  fullPath H (processedFile "//etc/hosts") = "/etc/hosts".
Proof.
  set (H := demo_host happy demo_env).
  destruct (commit_files_path_resolution H "/README.md") as (Habs & _ & _).
  destruct (Habs eq_refl) as (Hstrip & Hjoin & _).
  destruct (commit_files_path_resolution H "//etc/hosts") as (Habs' & _ & _).
  destruct (Habs' eq_refl) as (_ & _ & Hdirect).
  split; [exact Hstrip|]. split; [exact (Hjoin eq_refl)|exact (Hdirect eq_refl)].
Defined.

(** * Further properties *)

(** ** The order of the exchanges *)

Section Order.
Context {S : Type} (h : Host S) (P : Exchange -> Prop).

Lemma orderly_still {A} (m : M S A) :
  (forall w r w', m w = (r, w') -> w' = w) -> orderly_run h P [] m.
Proof.
  intros Hm w r w' H. apply Hm in H as ->. exists []. split; [by rewrite app_nil_r|].
  repeat split.
  - exists 0. done.
  - constructor.
  - intros i x Hx. by rewrite lookup_nil in Hx.
  - done.
  - constructor.
Qed.

Lemma orderly_bind {A B} es1 es2 (m : M S A) (k : A -> M S B) :
  orderly_run h P es1 m -> (forall a, orderly_run h P es2 (k a)) ->
  orderly_run h P (es1 ++ es2) (bind m k).
Proof.
  intros Hm Hk w r w' H.
  apply bind_inv in H as [(a & w1 & H1 & H2)|(t & H1 & ->)].
  - destruct (Hm _ _ _ H1) as (new1 & T1 & (_ & HP1 & _ & _ & Hret1)).
    destruct (Hret1 a eq_refl) as (Hes1 & Hans1).
    destruct (Hk a _ _ _ H2) as (new2 & T2 & ((n2 & Hn2 & Hes2) & HP2 & Hin2 & Hlast2 & Hret2)).
    exists (new1 ++ new2). split; [rewrite T2, T1; by rewrite <- app_assoc|].
    repeat split.
    + exists (length es1 + n2). split; [rewrite length_app; lia|].
      rewrite map_app, Hes1, Hes2. by rewrite take_app_add.
    + by apply Forall_app.
    + intros i x Hx Hi. rewrite length_app in Hi.
      apply lookup_app_Some in Hx as [Hx|[Hge Hx]].
      * rewrite Forall_forall in Hans1. apply Hans1.
        by eapply list_elem_of_lookup_2.
      * apply (Hin2 _ _ Hx). lia.
    + intros x t Hlast Hx. rewrite last_app in Hlast.
      destruct (last new2) as [y|] eqn:E.
      * injection Hlast as ->. by apply (Hlast2 x t).
      * apply last_Some_elem_of in Hlast. rewrite Forall_forall in Hans1.
        rewrite (Hans1 x Hlast) in Hx. done.
    + destruct (Hret2 a0 H) as (Hes & _). by rewrite map_app, Hes1, Hes.
    + destruct (Hret2 a0 H) as (_ & Hans). by apply Forall_app.
  - destruct (Hm _ _ _ H1) as (new1 & T1 & ((n & Hn & Hes) & HP1 & Hin & Hlast & _)).
    exists new1. split; [done|]. repeat split; try done.
    + exists n. split; [rewrite length_app; lia|]. by rewrite take_app_le.
    + intros x t0 Hl Hx. by injection (Hlast x t0 Hl Hx) as ->.
Qed.

Lemma orderly_step {A} e req (m : M S A) :
  (forall w r w', m w = (r, w') ->
     exists res, fetch h e req w = (res, w') /\
       match exch_failure h (Exch e req res) with
       | Some t => r = Threw t
       | None => exists a, r = Returned a
       end) ->
  (forall res, P (Exch e req res)) ->
  orderly_run h P [e] m.
Proof.
  intros Hm HP w r w' H. destruct (Hm _ _ _ H) as (res & F & Hr).
  apply fetch_inv in F as [_ T]. exists [Exch e req res]. split; [done|].
  repeat split.
  - exists 1. done.
  - by constructor.
  - intros [|i] x Hx Hi; simpl in Hi; lia.
  - intros x t [= <-] Hx. by rewrite Hx in Hr.
  - constructor; [|constructor]. destruct (exch_failure h _); [by subst r|done].
Qed.

End Order.

Section ProtocolOrder.
Context {S : Type} (h : Host S).

Lemma git_url_prefix rest :
  startsWith (repo_url h +:+ "/git/" +:+ rest)
    (GITHUB_API_URL (env h) +:+ "/repos/" +:+ REPO_OWNER (env h) +:+ "/"
     +:+ REPO_NAME (env h) +:+ "/git/") = true.
Proof.
  assert (GITHUB_API_URL (env h) +:+ "/repos/" +:+ REPO_OWNER (env h) +:+ "/"
          +:+ REPO_NAME (env h) +:+ "/git/" = repo_url h +:+ "/git/") as ->.
  { unfold repo_url. by rewrite !string_app_assoc. }
  rewrite <- string_app_assoc. apply startsWith_append.
Qed.

Lemma proper_ref_request tok res :
  proper_request h tok (Exch EGetRef (ref_request h tok) res).
Proof.
  unfold proper_request, ref_request, base_headers; simpl.
  repeat split; try (repeat constructor; fail).
  apply (git_url_prefix ("refs/heads/" +:+ BRANCH_NAME (env h))).
Qed.

Lemma proper_commit_request tok sha res :
  proper_request h tok (Exch EGetCommit (commit_request h tok sha) res).
Proof.
  unfold proper_request, commit_request, base_headers; simpl.
  repeat split; try (repeat constructor; fail).
  apply (git_url_prefix ("commits/" +:+ sha)).
Qed.

Lemma proper_tree_request tok base entries res :
  proper_request h tok (Exch EPostTree (tree_request h tok base entries) res).
Proof.
  unfold proper_request, tree_request, json_headers, base_headers; simpl.
  repeat split; try (repeat constructor; fail); try done.
  apply (git_url_prefix "trees").
Qed.

Lemma proper_new_commit_request tok message tree base res :
  proper_request h tok
    (Exch EPostCommit (new_commit_request h tok message tree base) res).
Proof.
  unfold proper_request, new_commit_request, json_headers, base_headers; simpl.
  repeat split; try (repeat constructor; fail); try done.
  apply (git_url_prefix "commits").
Qed.

Lemma proper_update_ref_request tok sha res :
  proper_request h tok (Exch EPatchRef (update_ref_request h tok sha) res).
Proof.
  unfold proper_request, update_ref_request, json_headers, base_headers; simpl.
  repeat split; try (repeat constructor; fail); try done.
  apply (git_url_prefix ("refs/heads/" +:+ BRANCH_NAME (env h))).
Qed.

Lemma get_branch_reference_orderly tok :
  orderly_run h (proper_request h tok) [EGetRef] (get_branch_reference h tok).
Proof.
  apply (orderly_step h _ EGetRef (ref_request h tok)); [|apply proper_ref_request].
  intros w r w' H. apply get_branch_reference_inv in H as (res & F & ->).
  exists res. split; [done|]. simpl. unfold read_failure.
  destruct res as [resp|]; [|done]. cbn [payload] in *.
  destruct (ok resp); [|done]. destruct (json resp); eauto.
Qed.

Lemma get_base_commit_orderly tok base :
  orderly_run h (proper_request h tok) [EGetCommit] (get_base_commit h tok base).
Proof.
  apply (orderly_step h _ EGetCommit (commit_request h tok base));
    [|apply proper_commit_request].
  intros w r w' H. apply get_base_commit_inv in H as (res & F & ->).
  exists res. split; [done|]. simpl. unfold read_failure.
  destruct res as [resp|]; [|done]. cbn [payload] in *.
  destruct (ok resp); [|done]. destruct (json resp); eauto.
Qed.

Lemma create_tree_orderly tok base entries :
  orderly_run h (proper_request h tok) [EPostTree] (create_tree h tok base entries).
Proof.
  apply (orderly_step h _ EPostTree (tree_request h tok base entries));
    [|apply proper_tree_request].
  intros w r w' H. apply create_tree_inv in H as (res & F & ->).
  exists res. split; [done|]. simpl. unfold write_failure.
  destruct res as [resp|]; [|done]. cbn [payload] in *.
  destruct (ok resp); [destruct (json resp); eauto|]. by destruct (text resp).
Qed.

Lemma create_commit_orderly tok message tree base :
  orderly_run h (proper_request h tok) [EPostCommit]
    (create_commit h tok message tree base).
Proof.
  apply (orderly_step h _ EPostCommit (new_commit_request h tok message tree base));
    [|apply proper_new_commit_request].
  intros w r w' H. apply create_commit_inv in H as (res & F & ->).
  exists res. split; [done|]. simpl. unfold write_failure.
  destruct res as [resp|]; [|done]. cbn [payload] in *.
  destruct (ok resp); [destruct (json resp); eauto|]. by destruct (text resp).
Qed.

Lemma update_reference_orderly tok sha :
  orderly_run h (proper_request h tok) [EPatchRef] (update_reference h tok sha).
Proof.
  apply (orderly_step h _ EPatchRef (update_ref_request h tok sha));
    [|apply proper_update_ref_request].
  intros w r w' H. apply update_reference_inv in H as (res & F & ->).
  exists res. split; [done|]. simpl. destruct (update_failure h res); eauto.
Qed.

Lemma await_still {A} (o : Outcome A) (w : World S) r w' :
  await o w = (r, w') -> w' = w.
Proof. by intros [= _ <-]. Qed.

Lemma ret_still {A} (a : A) (w : World S) r w' : ret a w = (r, w') -> w' = w.
Proof. by intros [= _ <-]. Qed.

Lemma writes_orderly {B} tok message base baseTree entries
      (mk : GitHubTree -> GitHubNewCommit -> B) :
  orderly_run h (proper_request h tok) [EPostTree; EPostCommit; EPatchRef]
    (let* treeData := create_tree h tok baseTree entries in
     let* newCommitData := create_commit h tok message (tree_sha treeData) base in
     let* _ := update_reference h tok (nc_sha newCommitData) in
     ret (mk treeData newCommitData)).
Proof.
  change [EPostTree; EPostCommit; EPatchRef]
    with ([EPostTree] ++ ([EPostCommit] ++ ([EPatchRef] ++ []))).
  apply orderly_bind; [apply create_tree_orderly|intros treeData].
  apply orderly_bind; [apply create_commit_orderly|intros newCommitData].
  apply orderly_bind; [apply update_reference_orderly|intros _].
  apply orderly_still. apply ret_still.
Qed.

Lemma commit_steps_orderly tok files message :
  orderly_run h (proper_request h tok) protocol
    (let* baseSha := get_branch_reference h tok in
     let* baseTreeSha := get_base_commit h tok baseSha in
     let* treeEntries :=
       await (Promise_all h (map (read_tree_entry h) (map processedFile files))) in
     let* treeData := create_tree h tok baseTreeSha treeEntries in
     let* newCommitData := create_commit h tok message (tree_sha treeData) baseSha in
     let* _ := update_reference h tok (nc_sha newCommitData) in
     ret {| cf_commit := {| cs_sha := nc_sha newCommitData;
                            cs_message := nc_message newCommitData;
                            cs_author := nc_author_name newCommitData;
                            cs_date := nc_author_date newCommitData |};
            cf_files := map processedFile files;
            cf_tree_sha := tree_sha treeData |}).
Proof.
  change protocol
    with ([EGetRef] ++ ([EGetCommit] ++ ([] ++ [EPostTree; EPostCommit; EPatchRef]))).
  apply orderly_bind; [apply get_branch_reference_orderly|intros baseSha].
  apply orderly_bind; [apply get_base_commit_orderly|intros baseTreeSha].
  apply orderly_bind; [apply orderly_still, await_still|intros treeEntries].
  apply (writes_orderly tok message baseSha baseTreeSha treeEntries
           (fun treeData newCommitData =>
              {| cf_commit := {| cs_sha := nc_sha newCommitData;
                                 cs_message := nc_message newCommitData;
                                 cs_author := nc_author_name newCommitData;
                                 cs_date := nc_author_date newCommitData |};
                 cf_files := map processedFile files;
                 cf_tree_sha := tree_sha treeData |})).
Qed.

Lemma delete_steps_orderly tok processedPaths message :
  orderly_run h (proper_request h tok) protocol
    (let* baseSha := get_branch_reference h tok in
     let* baseTreeSha := get_base_commit h tok baseSha in
     let treeEntries := map deletion_entry processedPaths in
     let* treeData := create_tree h tok baseTreeSha treeEntries in
     let* newCommitData := create_commit h tok message (tree_sha treeData) baseSha in
     let* _ := update_reference h tok (nc_sha newCommitData) in
     ret {| df_commit := {| cs_sha := nc_sha newCommitData;
                            cs_message := nc_message newCommitData;
                            cs_author := nc_author_name newCommitData;
                            cs_date := nc_author_date newCommitData |};
            df_deletedFiles := processedPaths;
            df_tree_sha := tree_sha treeData |}).
Proof.
  change protocol
    with ([EGetRef] ++ ([EGetCommit] ++ [EPostTree; EPostCommit; EPatchRef])).
  apply orderly_bind; [apply get_branch_reference_orderly|intros baseSha].
  apply orderly_bind; [apply get_base_commit_orderly|intros baseTreeSha].
  apply (writes_orderly tok message baseSha baseTreeSha
           (map deletion_entry processedPaths)
           (fun treeData newCommitData =>
              {| df_commit := {| cs_sha := nc_sha newCommitData;
                                 cs_message := nc_message newCommitData;
                                 cs_author := nc_author_name newCommitData;
                                 cs_date := nc_author_date newCommitData |};
                 df_deletedFiles := processedPaths;
                 df_tree_sha := tree_sha treeData |})).
Qed.

End ProtocolOrder.

(** ** Whole calls *)

Section ToolRuns.
Context {S : Type} (h : Host S).

Lemma Orderly_impl (P Q : Exchange -> Prop) es new {A} (r : Outcome A) :
  (forall x, P x -> Q x) -> Orderly h P es new r -> Orderly h Q es new r.
Proof.
  intros HPQ (Hpre & HP & Hint & Hlast & Hret).
  split; [done|]. split; [by eapply Forall_impl|]. by split; [|split].
Qed.

Lemma Orderly_retype P es new {A B} (r : Outcome A) (r' : Outcome B) :
  (forall t, r = Threw t -> r' = Threw t) ->
  (forall b, r' = Returned b -> exists a, r = Returned a) ->
  Orderly h P es new r -> Orderly h P es new r'.
Proof.
  intros HT HR (Hpre & HP & Hint & Hlast & Hret).
  split; [done|]. split; [done|]. split; [done|]. split.
  - intros x t Hl Hx. apply HT. by apply (Hlast x t).
  - intros b Hb. destruct (HR b Hb) as [a Ha]. by apply (Hret a).
Qed.

Lemma Orderly_none P es {A} t : Orderly h P es [] (Threw t : Outcome A).
Proof.
  split; [exists 0; split; [lia|done]|]. split; [constructor|].
  split; [by intros i x Hx|]. split; [by intros x t0 Hl|done].
Qed.

Lemma commit_files_try_orderly files message (w : World S) r w' :
  commit_files_try h files message w = (r, w') ->
  exists new,
    trace w' = trace w ++ new /\
    Orderly h (fun x => forall tok, GITHUB_TOKEN (env h) = Some tok ->
                                    proper_request h tok x) protocol new r.
Proof.
  intros H. unfold commit_files_try in H.
  apply bind_inv in H as [(tok & w1 & Htok & H)|(t & Htok & ->)].
  - apply githubToken_required_inv in Htok as (-> & [(tok' & Henv & Hne & [= <-])|[=]]).
    destruct (commit_steps_orderly h tok files message _ _ _ H) as (new & Htr & Ho).
    exists new. split; [done|]. eapply Orderly_impl; [|exact Ho].
    intros x Hx tok' Henv'. rewrite Henv in Henv'. by injection Henv' as <-.
  - apply githubToken_required_inv in Htok as (-> & _).
    exists []. split; [by rewrite app_nil_r|]. apply Orderly_none.
Qed.

Lemma delete_files_try_orderly paths message (w : World S) r w' :
  delete_files_try h paths message w = (r, w') ->
  exists new,
    trace w' = trace w ++ new /\
    Orderly h (fun x => forall tok, GITHUB_TOKEN (env h) = Some tok ->
                                    proper_request h tok x) protocol new r.
Proof.
  intros H. unfold delete_files_try in H.
  apply bind_inv in H as [(tok & w1 & Htok & H)|(t & Htok & ->)].
  - apply githubToken_required_inv in Htok as (-> & [(tok' & Henv & Hne & [= <-])|[=]]).
    apply bind_inv in H as [(processedPaths & w1 & Hmap & H)|(t & Hmap & ->)].
    + apply await_still in Hmap as ->.
      destruct (delete_steps_orderly h tok processedPaths message _ _ _ H)
        as (new & Htr & Ho).
      exists new. split; [done|]. eapply Orderly_impl; [|exact Ho].
      intros x Hx tok' Henv'. rewrite Henv in Henv'. by injection Henv' as <-.
    + apply await_still in Hmap as ->.
      exists []. split; [by rewrite app_nil_r|]. apply Orderly_none.
  - apply githubToken_required_inv in Htok as (-> & _).
    exists []. split; [by rewrite app_nil_r|]. apply Orderly_none.
Qed.

Lemma rethrow_normalized_retype {A B} tool error (w : World S) t' w' :
  rethrow_normalized (A:=A) h tool error w = (Threw t', w') ->
  rethrow_normalized (A:=B) h tool error w = (Threw t', w').
Proof.
  unfold rethrow_normalized, throw.
  by destruct (_ || _); intros [= <- <-].
Qed.

(** Every call: the exchanges it adds to the trace are orderly for the
    outcome of the handler's [try] block, and the caller gets that outcome
    after the outer [catch]. *)
Lemma call_tool_orderly call (w : World S) r w' :
  call_tool h call w = (r, w') ->
  exists new (r0 : Outcome ToolOutput),
    trace w' = trace w ++ new /\
    Orderly h (fun x => forall tok, GITHUB_TOKEN (env h) = Some tok ->
                                    proper_request h tok x) protocol new r0 /\
    match r0 with
    | Returned out => r = Returned out
    | Threw t =>
        exists t', r = Threw t' /\
          rethrow_normalized (A:=ToolOutput) h (tool_name call) t w' = (Threw t', w')
    end.
Proof.
  intros H. apply call_tool_inv in H.
  destruct call as [files message|paths message]; destruct H as (r1 & H & ->).
  - unfold commit_files in H.
    apply try_catch_inv in H as [(a & H & ->)|(t & w1 & H & Hc)].
    + apply commit_files_try_orderly in H as (new & Htr & Ho).
      exists new, (Returned (commit_files_output a)). split; [done|]. split; [|done].
      eapply Orderly_retype; [| |exact Ho]; [done|eauto].
    + apply commit_files_try_orderly in H as (new & Htr & Ho).
      destruct (rethrow_normalized_Threw h _ _ _ _ _ Hc) as (-> & t' & ->).
      exists new, (Threw t). split; [done|]. split.
      * eapply Orderly_retype; [| |exact Ho]; [by intros ? [= ->]|done].
      * exists t'. split; [done|]. by apply (rethrow_normalized_retype _ _ _ _ _ Hc).
  - unfold delete_files in H.
    apply try_catch_inv in H as [(a & H & ->)|(t & w1 & H & Hc)].
    + apply delete_files_try_orderly in H as (new & Htr & Ho).
      exists new, (Returned (delete_files_output a)). split; [done|]. split; [|done].
      eapply Orderly_retype; [| |exact Ho]; [done|eauto].
    + apply delete_files_try_orderly in H as (new & Htr & Ho).
      destruct (rethrow_normalized_Threw h _ _ _ _ _ Hc) as (-> & t' & ->).
      exists new, (Threw t). split; [done|]. split.
      * eapply Orderly_retype; [| |exact Ho]; [by intros ? [= ->]|done].
      * exists t'. split; [done|]. by apply (rethrow_normalized_retype _ _ _ _ _ Hc).
Qed.

(** The failure of the last exchange is the failure of the call, after the
    outer [catch]. *)
Lemma last_failure_decides call (w : World S) r w' new x t :
  call_tool h call w = (r, w') ->
  trace w' = trace w ++ new ->
  last new = Some x ->
  exch_failure h x = Some t ->
  exists t', r = Threw t' /\
    rethrow_normalized (A:=ToolOutput) h (tool_name call) t w' = (Threw t', w').
Proof.
  intros Hrun Htr Hlast Hx.
  apply call_tool_orderly in Hrun as (new' & r0 & Htr' & Ho & Hr).
  rewrite Htr' in Htr. apply app_inv_head in Htr as ->.
  destruct Ho as (_ & _ & _ & Hl & _).
  rewrite (Hl x t Hlast Hx) in Hr. done.
Qed.


Lemma last_failure_foreign call (w : World S) r w' new x cause msg :
  call_tool h call w = (r, w') ->
  trace w' = trace w ++ new ->
  last new = Some x ->
  exch_failure h x = Some cause ->
  instanceof_Error cause = true -> err_message cause = Some msg ->
  msg <> "" -> msg <> "undefined" -> msg <> "[object Object]" ->
  r = Threw (new_Error h msg).
Proof.
  intros Hrun Htr Hlast Hx Hi Hm H1 H2 H3.
  destruct (last_failure_decides _ _ _ _ _ _ _ Hrun Htr Hlast Hx) as (t' & -> & Hc).
  unfold rethrow_normalized, throw in Hc. rewrite Hi, Hm in Hc. simpl in Hc.
  destruct (String.eqb_spec msg ""); [done|].
  destruct (String.eqb_spec msg "undefined"); [done|].
  destruct (String.eqb_spec msg "[object Object]"); [done|].
  unfold truthy in Hc. destruct (String.eqb_spec msg ""); [done|].
  simpl in Hc. by injection Hc as <-.
Qed.

End ToolRuns.

Section CallProperties.
Context {S : Type} (h : Host S).

Lemma interior_not_update new n i x :
  map exch_endpoint new = take n protocol ->
  new !! i = Some x -> i + 1 < length new ->
  exch_endpoint x <> EPatchRef.
Proof.
  intros Hmap Hx Hi.
  assert (length new <= 5) as Hlen.
  { rewrite <- (length_map exch_endpoint new), Hmap, length_take. simpl. lia. }
  assert (take n protocol !! i = Some (exch_endpoint x)) as Hl.
  { rewrite <- Hmap. change (map exch_endpoint new) with (exch_endpoint <$> new).
    by rewrite list_lookup_fmap, Hx. }
  apply lookup_take_Some in Hl as [Hl _].
  destruct i as [|[|[|[|i]]]]; simpl in Hl; try (injection Hl as <-; done). lia.
Qed.

Lemma answered_not_declined x :
  exch_failure h x = None -> exch_endpoint x <> EPatchRef -> ~ exch_declined x.
Proof.
  destruct x as [e req res]. simpl. intros Hf He Hd.
  destruct e; try done; unfold read_failure, write_failure in Hf;
    (destruct res as [resp|]; [|done]); cbn [payload declined] in *;
    (destruct (ok resp); [|by destruct (text resp)]);
    (destruct (json resp); [|done]); by destruct Hd.
Qed.

End CallProperties.

(** X1. Every request a [commit_files] or [delete_files] call sends, in runs
    that fail as well as in runs that return, carries the headers
    [Accept: application/vnd.github+json], [Authorization: Bearer <token>]
    with the configured token and [X-GitHub-Api-Version: 2022-11-28]; its
    URL lies under [<GITHUB_API_URL>/repos/<owner>/<repo>/git/]; a GET has
    no body, and every other request has a JSON body and the header
    [Content-Type: application/json]. *)
Theorem requests_are_authenticated {S} (h : Host S) call (w : World S) r w' new tok :
  call_tool h call w = (r, w') ->
  trace w' = trace w ++ new ->
  GITHUB_TOKEN (env h) = Some tok ->
  Forall (proper_request h tok) new.
Proof.
  intros Hrun Htr Henv.
  apply call_tool_orderly in Hrun as (new' & r0 & Htr' & Ho & _).
  rewrite Htr' in Htr. apply app_inv_head in Htr as ->.
  destruct Ho as (_ & HP & _).
  eapply Forall_impl; [exact HP|]. intros x Hx. by apply Hx.
Qed.

Lemma requests_are_authenticated_witness :
  Forall (proper_request (demo_host tree_refused demo_env) "ghs_secret")
    (trace (call_tool (demo_host tree_refused demo_env)
              (commit_files_call ["README.md"] "update docs") fresh).2).
Proof.
  set (H := demo_host tree_refused demo_env).
  set (call := commit_files_call ["README.md"] "update docs").
  exact (requests_are_authenticated H call fresh
           (call_tool H call fresh).1 (call_tool H call fresh).2
           (trace (call_tool H call fresh).2) "ghs_secret"
           eq_refl eq_refl eq_refl).
Defined.

(** X2. The exchanges of a [commit_files] or [delete_files] call are an
    initial segment of the protocol, in its order: get reference, get
    commit, create tree, create commit, update reference; no call is made
    twice.  Every exchange that is followed by another one was answered
    with a 2xx status and a body that decoded.  When the step that made
    the last exchange fails on it, the call fails.  A call that returns
    has made all five. *)
Theorem exchanges_follow_protocol {S} (h : Host S) call (w : World S) r w' new :
  call_tool h call w = (r, w') ->
  trace w' = trace w ++ new ->
  (exists n, n <= 5 /\
     map exch_endpoint new =
       take n [EGetRef; EGetCommit; EPostTree; EPostCommit; EPatchRef]) /\
  (forall i x, new !! i = Some x -> i + 1 < length new -> ~ exch_declined x) /\
  (forall x, last new = Some x -> exch_failure h x <> None -> is_Threw r) /\
  (forall out, r = Returned out ->
     map exch_endpoint new = [EGetRef; EGetCommit; EPostTree; EPostCommit; EPatchRef]).
Proof.
  intros Hrun Htr.
  pose proof Hrun as Hrun'.
  apply call_tool_orderly in Hrun as (new' & r0 & Htr' & Ho & Hr).
  rewrite Htr' in Htr. apply app_inv_head in Htr as ->.
  destruct Ho as ((n & Hn & Hmap) & _ & Hint & Hlast & Hret).
  split; [by exists n|]. split; [|split].
  - intros i x Hx Hi. apply (answered_not_declined h).
    + by apply (Hint i x).
    + by apply (interior_not_update new n i x).
  - intros x Hl Hx. destruct (exch_failure h x) as [t|] eqn:Hf; [|done].
    destruct (last_failure_decides h _ _ _ _ _ _ _ Hrun' Htr' Hl Hf) as (t' & -> & _).
    done.
  - intros out ->. destruct r0 as [out0|t].
    + by destruct (Hret out0 eq_refl).
    + by destruct Hr as (t' & [=] & _).
Qed.

Lemma exchanges_follow_protocol_witness :
  let run := call_tool (demo_host tree_refused demo_env)
               (commit_files_call ["README.md"] "update docs") fresh in
  map exch_endpoint (trace run.2) = [EGetRef; EGetCommit; EPostTree] /\
  is_Threw run.1.
Proof.
  set (H := demo_host tree_refused demo_env).
  set (call := commit_files_call ["README.md"] "update docs").
  destruct (exchanges_follow_protocol H call fresh
              (call_tool H call fresh).1 (call_tool H call fresh).2
              (trace (call_tool H call fresh).2) eq_refl eq_refl)
    as (_ & _ & Hlast & _).
  split; [reflexivity|].
  apply (Hlast (Exch EPostTree
                  (tree_request H "ghs_secret" "tree0"
                     [{| entry_path := "README.md"; entry_mode := "100644";
                         entry_type := "blob"; entry_blob := content "# demo" |}])
                  (Returned (refusal 422 "Unprocessable Entity")))); [reflexivity|done].
Defined.



(** X4. When one of the first four calls does not produce a reply at all
    ([fetch] rejects), or produces a 2xx reply whose body does not decode,
    and the cause is an [Error] with a message other than the empty string,
    ["undefined"] and ["[object Object]"], the call fails with an error
    whose message is the cause's message, unchanged: the step is not
    named. *)
Theorem foreign_errors_pass_through {S} (h : Host S) call (w : World S) r w' new
        e req cause msg :
  call_tool h call w = (r, w') ->
  trace w' = trace w ++ new ->
  e <> EPatchRef ->
  (last new = Some (Exch e req (Threw cause)) \/
   exists resp, last new = Some (Exch e req (Returned resp)) /\
                ok resp = true /\ json resp = Threw cause) ->
  instanceof_Error cause = true ->
  err_message cause = Some msg ->
  msg <> "" -> msg <> "undefined" -> msg <> "[object Object]" ->
  r = Threw (new_Error h msg).
Proof.
  intros Hrun Htr He Hl Hi Hm H1 H2 H3.
  destruct Hl as [Hl|(resp & Hl & Hok & Hjson)].
  - eapply (last_failure_foreign h _ _ _ _ _ _ _ _ Hrun Htr Hl); try done.
    by destruct e.
  - eapply (last_failure_foreign h _ _ _ _ _ _ _ _ Hrun Htr Hl); try done.
    destruct e; try done; simpl; unfold read_failure, write_failure;
      cbn [payload] in *; by rewrite Hok, Hjson.
Qed.

Lemma foreign_errors_pass_through_witness :
  (call_tool (demo_host offline demo_env)
     (delete_files_call ["docs/a.md"] "cleanup") fresh).1
  = Threw (new_Error (demo_host offline demo_env)
             "getaddrinfo ENOTFOUND api.github.com").
Proof.
  set (H := demo_host offline demo_env).
  set (call := delete_files_call ["docs/a.md"] "cleanup").
  apply (foreign_errors_pass_through H call fresh
           (call_tool H call fresh).1 (call_tool H call fresh).2
           (trace (call_tool H call fresh).2)
           EGetRef (ref_request H "ghs_secret")
           (library_error "getaddrinfo ENOTFOUND api.github.com")
           "getaddrinfo ENOTFOUND api.github.com"); try reflexivity; try done.
  left. reflexivity.
Defined.

(** X5. Without a token in the environment, or with an empty one, both
    tools fail with ["GITHUB_TOKEN environment variable is required"]
    before anything else happens: no request is sent and no file is read,
    whatever the arguments of the call. *)
Theorem missing_token_stops_call {S} (h : Host S) call (w : World S) :
  GITHUB_TOKEN (env h) = None \/ GITHUB_TOKEN (env h) = Some "" ->
  call_tool h call w
  = (Threw (new_Error h "GITHUB_TOKEN environment variable is required"), w).
Proof.
  intros Henv.
  assert (githubToken_required h w = (Threw (token_error h), w)) as Htok.
  { unfold githubToken_required. by destruct Henv as [-> | ->]. }
  destruct call as [files message|paths message]; unfold call_tool, bind.
  - unfold commit_files, try_catch, commit_files_try, bind. rewrite Htok.
    unfold token_error. by rewrite rethrow_normalized_same.
  - unfold delete_files, try_catch, delete_files_try, bind. rewrite Htok.
    unfold token_error. by rewrite rethrow_normalized_same.
Qed.

Lemma missing_token_stops_call_witness :
  call_tool (demo_host happy anonymous_env)
    (commit_files_call ["README.md"] "update docs") fresh
  = (Threw (new_Error (demo_host happy anonymous_env)
              "GITHUB_TOKEN environment variable is required"), fresh).
Proof.
  apply (missing_token_stops_call (demo_host happy anonymous_env)). by left.
Defined.

(** ** The prepare entrypoint *)

Section PrepareSteps.
Context {W Octokit GitHubContext GitHubData : Type}.
Context (I : Imports W Octokit GitHubContext GitHubData).

Lemma act_bind_inv {E A B} (m : Act W E A) (k : A -> Act W E B) j r j' :
  act_bind m k j = (r, j') ->
  (exists a j1, m j = (Returned a, j1) /\ k a j1 = (r, j')) \/
  (exists t, m j = (Threw t, j') /\ r = Threw t).
Proof.
  unfold act_bind. destruct (m j) as [[a|t] j1]; intros H.
  - left. by exists a, j1.
  - right. injection H as <- <-. by exists t.
Qed.

Lemma invoke_inv {A} c shown (f : W -> Outcome A * W) j r j' :
  invoke c shown f j = (r, j') ->
  exists s,
    f (outside j) = (r, s) /\
    j' = {| outside := s;
            journal := journal j ++
              [Called c match r with
                        | Returned a => Returned (shown a)
                        | Threw t => Threw t
                        end] |}.
Proof.
  unfold invoke. destruct (f (outside j)) as [res s]. intros [= <- <-]. by exists s.
Qed.

Lemma emit_inv {E} (e : E) (j : Job W E) r j' :
  emit e j = (r, j') ->
  r = Returned tt /\ j' = {| outside := outside j; journal := journal j ++ [e] |}.
Proof. by intros [= <- <-]. Qed.

Lemma truthy_true s : truthy s = true <-> s <> "".
Proof. unfold truthy. by destruct (String.eqb_spec s ""). Qed.

Lemma truthy_false s : truthy s = false <-> s = "".
Proof. unfold truthy. by destruct (String.eqb_spec s ""). Qed.

Lemma env_is_true penv name value :
  env_is penv name value = true <-> penv !! name = Some value.
Proof.
  unfold env_is. destruct (penv !! name) as [s|]; [|done].
  destruct (String.eqb_spec s value) as [->|Hne]; [done|].
  split; [done|]. intros [= ->]. done.
Qed.

Lemma env_is_false penv name value :
  env_is penv name value = false <-> penv !! name <> Some value.
Proof.
  rewrite <- env_is_true. by destruct (env_is penv name value).
Qed.

Lemma several_providers_count :
  several_providers I <->
  (1 <? length (List.filter (fun b : bool => b)
                  [env_is (process_env I) "USE_BEDROCK" "true";
                   env_is (process_env I) "USE_VERTEX" "true";
                   env_is (process_env I) "USE_MAX_PLAN" "true"])) = true.
Proof.
  unfold several_providers. rewrite <- !env_is_true.
  destruct (env_is _ "USE_BEDROCK" _), (env_is _ "USE_VERTEX" _),
    (env_is _ "USE_MAX_PLAN" _); simpl; intuition congruence.
Qed.

Lemma validateProviderSelection_several (j : Job W Event) :
  several_providers I ->
  validateProviderSelection I j = (Threw (Error_of I multiple_providers_message), j).
Proof.
  intros H. apply several_providers_count in H.
  unfold validateProviderSelection. by rewrite H.
Qed.

Lemma validateProviderSelection_single (j : Job W Event) :
  ~ several_providers I ->
  exists line,
    validateProviderSelection I j
    = (Returned tt, {| outside := outside j; journal := journal j ++ [Log line] |}) /\
    (process_env I !! "USE_MAX_PLAN" = Some "true" ->
     line = "Using Max plan authentication. Ensure Claude Code is pre-authenticated on this self-hosted runner.") /\
    (process_env I !! "USE_BEDROCK" = Some "true" ->
     line = "Using AWS Bedrock authentication.") /\
    (process_env I !! "USE_VERTEX" = Some "true" ->
     line = "Using Google Vertex AI authentication.") /\
    (process_env I !! "USE_MAX_PLAN" <> Some "true" ->
     process_env I !! "USE_BEDROCK" <> Some "true" ->
     process_env I !! "USE_VERTEX" <> Some "true" ->
     line = "Using direct Anthropic API authentication.").
Proof.
  intros H. rewrite several_providers_count in H.
  unfold validateProviderSelection.
  destruct (env_is _ "USE_BEDROCK" _) eqn:HB, (env_is _ "USE_VERTEX" _) eqn:HV,
    (env_is _ "USE_MAX_PLAN" _) eqn:HM; simpl in *; try done;
    repeat match goal with
           | E : env_is _ _ _ = true |- _ => apply env_is_true in E
           | E : env_is _ _ _ = false |- _ => apply env_is_false in E
           end;
    eexists; (split; [reflexivity|]); intuition congruence.
Qed.

Lemma validateProviderSelection_inv (j : Job W Event) r j' :
  validateProviderSelection I j = (r, j') ->
  (r = Threw (Error_of I (multiple_providers_message)) /\ j' = j /\
   several_providers I) \/
  (exists line,
     r = Returned tt /\
     j' = {| outside := outside j; journal := journal j ++ [Log line] |} /\
     ~ several_providers I).
Proof.
  intros H.
  destruct (decide ((1 <? length (List.filter (fun b : bool => b)
                  [env_is (process_env I) "USE_BEDROCK" "true";
                   env_is (process_env I) "USE_VERTEX" "true";
                   env_is (process_env I) "USE_MAX_PLAN" "true"])) = true)) as [Hc|Hc];
    rewrite <- several_providers_count in Hc.
  - rewrite validateProviderSelection_several in H by done.
    injection H as <- <-. by left.
  - destruct (validateProviderSelection_single j Hc) as (line & Hv & _).
    rewrite Hv in H. injection H as <- <-. right. by exists line.
Qed.

Lemma validateMaxPlanRunner_inv (j : Job W Event) r j' :
  validateMaxPlanRunner I j = (r, j') ->
  (r = Threw (Error_of I github_hosted_message) /\ j' = j /\ isUsingMaxPlan I = true) \/
  (r = Returned tt /\ j' = j /\ isUsingMaxPlan I = false) \/
  (r = Returned tt /\ isUsingMaxPlan I = true /\
   j' = {| outside := outside j;
           journal := journal j ++
             [Log "Running on self-hosted runner with Max plan authentication."] |}).
Proof.
  unfold validateMaxPlanRunner.
  destruct (isUsingMaxPlan I); simpl; [|intros [= <- <-]; by right; left].
  destruct (env_is _ _ _); intros [= <- <-]; [by left|by right; right].
Qed.

End PrepareSteps.

(** Inverts a run of the prepare entrypoint, one step after the other. *)
Ltac prepare_step H :=
  let Hs := fresh "Hs" in
  lazymatch type of H with
  | act_bind (validateProviderSelection _) _ _ = _ =>
      apply act_bind_inv in H as [(? & ? & Hs & H)|(? & Hs & ?)];
      apply validateProviderSelection_inv in Hs as [(? & ? & ?)|(? & ? & ? & ?)];
      simplify_eq; cbn [outside journal] in *
  | act_bind (validateMaxPlanRunner _) _ _ = _ =>
      apply act_bind_inv in H as [(? & ? & Hs & H)|(? & Hs & ?)];
      apply validateMaxPlanRunner_inv in Hs as [(? & ? & ?)|[(? & ? & ?)|(? & ? & ?)]];
      simplify_eq; cbn [outside journal] in *
  | act_bind (invoke _ _ _) _ _ = _ =>
      apply act_bind_inv in H as [(? & ? & Hs & H)|(? & Hs & ?)];
      apply invoke_inv in Hs as (? & ? & ?); simplify_eq; cbn [outside journal] in *
  | act_bind (if ?b then _ else _) _ _ = _ =>
      destruct b eqn:?
  | act_bind (act_throw _) _ _ = _ =>
      apply act_bind_inv in H as [(? & ? & Hs & H)|(? & Hs & ?)];
      unfold act_throw in Hs; simplify_eq
  | act_bind (act_ret _) _ _ = _ =>
      apply act_bind_inv in H as [(? & ? & Hs & H)|(? & Hs & ?)];
      unfold act_ret in Hs; simplify_eq
  | act_bind (match ?x with Some _ => _ | None => _ end) _ _ = _ =>
      destruct x eqn:?
  | (if negb ?b then _ else _) _ = _ => destruct b; cbn [negb] in H
  | act_throw _ _ = _ => unfold act_throw in H; simplify_eq
  | emit _ _ = _ => apply emit_inv in H as [? ?]; simplify_eq; cbn [outside journal] in *
  end.

(** Every way a run can go, with the events it adds to the journal. *)
Ltac prepare_paths Hrun Htr :=
  let H := fresh "Htry" in
  unfold run in Hrun;
  match type of Hrun with
  | context [run_try ?I ?j] => destruct (run_try I j) as [? ?] eqn:H
  end;
  unfold run_try in H; repeat prepare_step H;
  try (simpl in Hrun; injection Hrun as <- <-);
  simpl in Htr; rewrite <- ?app_assoc in Htr; apply app_inv_head in Htr as <-;
  simpl in *.

(** Membership in a list that is written out. *)
Ltac listed :=
  solve [repeat first [apply list_elem_of_here | apply list_elem_of_further]].

Ltac among H :=
  repeat (apply elem_of_cons in H as [H|H]; [try discriminate H|]);
  try (by apply elem_of_nil in H).

Ltac ends := solve [repeat first [done | apply suffix_cons_r]].

(** X6. [validateProviderSelection] throws exactly when at least two of
    [USE_BEDROCK], [USE_VERTEX] and [USE_MAX_PLAN] are the string ["true"],
    and then has logged nothing.  Otherwise it logs one line and returns,
    and the line names the provider that is switched on: Max plan, AWS
    Bedrock or Google Vertex AI, or the direct Anthropic API when none
    is. *)
Theorem provider_selection_exclusive {W Octokit GitHubContext GitHubData}
        (I : Imports W Octokit GitHubContext GitHubData) (j : Job W Event) :
  (several_providers I ->
   validateProviderSelection I j
   = (Threw (Error_of I "Cannot use multiple authentication methods simultaneously. Please set only one of: use_bedrock, use_vertex, or use_max_plan."),
      j)) /\
  (~ several_providers I ->
   exists line,
     validateProviderSelection I j
     = (Returned tt, {| outside := outside j; journal := journal j ++ [Log line] |}) /\
     (process_env I !! "USE_MAX_PLAN" = Some "true" ->
      line = "Using Max plan authentication. Ensure Claude Code is pre-authenticated on this self-hosted runner.") /\
     (process_env I !! "USE_BEDROCK" = Some "true" ->
      line = "Using AWS Bedrock authentication.") /\
     (process_env I !! "USE_VERTEX" = Some "true" ->
      line = "Using Google Vertex AI authentication.") /\
     (process_env I !! "USE_MAX_PLAN" <> Some "true" ->
      process_env I !! "USE_BEDROCK" <> Some "true" ->
      process_env I !! "USE_VERTEX" <> Some "true" ->
      line = "Using direct Anthropic API authentication.")).
Proof.
  split.
  - apply validateProviderSelection_several.
  - apply validateProviderSelection_single.
Qed.

Lemma provider_selection_exclusive_witness :
  validateProviderSelection (scripted_imports two_providers_env smooth) fresh_job
  = (Threw (Error_of (scripted_imports two_providers_env smooth)
              "Cannot use multiple authentication methods simultaneously. Please set only one of: use_bedrock, use_vertex, or use_max_plan."),
     fresh_job).
Proof.
  apply (provider_selection_exclusive (scripted_imports two_providers_env smooth)).
  right. left. split; reflexivity.
Defined.

(** X7. A run whose set-up is invalid fails before any imported function
    is called: with several providers switched on, with the Max plan on a
    GitHub-hosted runner, and with the Max plan and neither
    [OVERRIDE_GITHUB_TOKEN] nor [GITHUB_TOKEN] set to a non-empty string.
    In each case the failure is reported with the message of the check
    that failed, and the process exits with code 1. *)
Theorem invalid_setup_fails_before_any_call {W Octokit GitHubContext GitHubData}
        (I : Imports W Octokit GitHubContext GitHubData) (j : Job W Event) :
  (several_providers I ->
   run I j =
   (Exited 1,
    {| outside := outside j;
       journal := journal j ++
         [SetFailed "Prepare step failed with error: Error: Cannot use multiple authentication methods simultaneously. Please set only one of: use_bedrock, use_vertex, or use_max_plan.";
          Exit 1] |})) /\
  (~ several_providers I ->
   process_env I !! "USE_MAX_PLAN" = Some "true" ->
   process_env I !! "RUNNER_ENVIRONMENT" = Some "github-hosted" ->
   run I j =
   (Exited 1,
    {| outside := outside j;
       journal := journal j ++
         [Log "Using Max plan authentication. Ensure Claude Code is pre-authenticated on this self-hosted runner.";
          SetFailed "Prepare step failed with error: Error: Max plan authentication requires a self-hosted runner. GitHub-hosted runners do not have persistent authentication state. Please set up a self-hosted runner with pre-authenticated Claude Code.";
          Exit 1] |})) /\
  (~ several_providers I ->
   process_env I !! "USE_MAX_PLAN" = Some "true" ->
   process_env I !! "RUNNER_ENVIRONMENT" <> Some "github-hosted" ->
   or_else (process_env I !! "OVERRIDE_GITHUB_TOKEN")
           (or_else (process_env I !! "GITHUB_TOKEN") "") = "" ->
   run I j =
   (Exited 1,
    {| outside := outside j;
       journal := journal j ++
         [Log "Using Max plan authentication. Ensure Claude Code is pre-authenticated on this self-hosted runner.";
          Log "Running on self-hosted runner with Max plan authentication.";
          SetFailed "Prepare step failed with error: Error: GitHub token is required when using Max plan authentication";
          Exit 1] |})).
Proof.
  split; [|split].
  - intros H. unfold run, run_try, act_bind.
    by rewrite validateProviderSelection_several.
  - intros H Hmax Hrunner.
    destruct (validateProviderSelection_single I j H) as (line & Hv & Hline & _).
    rewrite (Hline Hmax) in Hv.
    unfold run, run_try, act_bind. rewrite Hv.
    unfold validateMaxPlanRunner, isUsingMaxPlan.
    apply env_is_true in Hmax, Hrunner. rewrite Hmax, Hrunner. simpl.
    by rewrite <- app_assoc.
  - intros H Hmax Hrunner Htoken.
    destruct (validateProviderSelection_single I j H) as (line & Hv & Hline & _).
    rewrite (Hline Hmax) in Hv.
    unfold run, run_try, act_bind. rewrite Hv.
    unfold validateMaxPlanRunner, isUsingMaxPlan.
    apply env_is_true in Hmax. apply env_is_false in Hrunner.
    rewrite Hmax, Hrunner. simpl. rewrite Htoken. simpl.
    by rewrite <- !app_assoc.
Qed.

Lemma invalid_setup_fails_before_any_call_witness :
  run (scripted_imports max_plan_hosted_env smooth) fresh_job =
  (Exited 1,
   {| outside := tt;
      journal :=
        [Log "Using Max plan authentication. Ensure Claude Code is pre-authenticated on this self-hosted runner.";
         SetFailed "Prepare step failed with error: Error: Max plan authentication requires a self-hosted runner. GitHub-hosted runners do not have persistent authentication state. Please set up a self-hosted runner with pre-authenticated Claude Code.";
         Exit 1] |}).
Proof.
  destruct (invalid_setup_fails_before_any_call
              (scripted_imports max_plan_hosted_env smooth) fresh_job)
    as (_ & Hhosted & _).
  apply Hhosted; [|reflexivity|reflexivity].
  intros [[H _]|[[H _]|[H _]]]; vm_compute in H; discriminate H.
Defined.

(** X8. With the Max plan, the token exchange [setupGitHubToken] is never
    called.  The token handed to [createOctokit] and to [prepareMcpConfig]
    is [OVERRIDE_GITHUB_TOKEN] when that is set and not empty, otherwise
    [GITHUB_TOKEN], and it is not the empty string. *)
Theorem max_plan_uses_given_token {W Octokit GitHubContext GitHubData}
        (I : Imports W Octokit GitHubContext GitHubData) (j : Job W Event) fin j' new :
  run I j = (fin, j') ->
  journal j' = journal j ++ new ->
  process_env I !! "USE_MAX_PLAN" = Some "true" ->
  (SetupGitHubToken ∉ calls new) /\
  (forall githubToken,
     CreateOctokit githubToken ∈ calls new ->
     githubToken <> "" /\
     githubToken = or_else (process_env I !! "OVERRIDE_GITHUB_TOKEN")
                           (or_else (process_env I !! "GITHUB_TOKEN") "")) /\
  (forall githubToken owner repo branch,
     PrepareMcpConfig githubToken owner repo branch ∈ calls new ->
     CreateOctokit githubToken ∈ calls new).
Proof.
  intros Hrun Htr Hmax. apply env_is_true in Hmax. fold (isUsingMaxPlan I) in Hmax.
  prepare_paths Hrun Htr; try congruence.
  all: split; [intros Hc; among Hc|].
  all: split; [intros tok Hc; among Hc; simplify_eq;
               (split; [|done]); by apply truthy_true, negb_false_iff
              |intros tok owner repo branch Hc; among Hc; simplify_eq; listed].
Qed.

Lemma max_plan_uses_given_token_witness :
  CreateOctokit "ghp_workflow"
    ∈ calls (journal (run (scripted_imports max_plan_env smooth) fresh_job).2) /\
  (SetupGitHubToken
     ∉ calls (journal (run (scripted_imports max_plan_env smooth) fresh_job).2)).
Proof.
  set (I := scripted_imports max_plan_env smooth).
  destruct (max_plan_uses_given_token I fresh_job (run I fresh_job).1 (run I fresh_job).2
              (journal (run I fresh_job).2) eq_refl eq_refl eq_refl) as (Hno & _).
  split; [|exact Hno].
  vm_compute. listed.
Defined.

(** X9. Without the Max plan, the token handed to [createOctokit] and to
    [prepareMcpConfig] is the one [setupGitHubToken] resolved to, and
    [setupGitHubToken] is the first imported function called. *)
Theorem exchanged_token_is_used {W Octokit GitHubContext GitHubData}
        (I : Imports W Octokit GitHubContext GitHubData) (j : Job W Event) fin j' new :
  run I j = (fin, j') ->
  journal j' = journal j ++ new ->
  process_env I !! "USE_MAX_PLAN" <> Some "true" ->
  (forall c, head (calls new) = Some c -> c = SetupGitHubToken) /\
  (forall githubToken,
     CreateOctokit githubToken ∈ calls new ->
     Called SetupGitHubToken (Returned (AString githubToken)) ∈ new) /\
  (forall githubToken owner repo branch,
     PrepareMcpConfig githubToken owner repo branch ∈ calls new ->
     Called SetupGitHubToken (Returned (AString githubToken)) ∈ new).
Proof.
  intros Hrun Htr Hmax. apply env_is_false in Hmax. fold (isUsingMaxPlan I) in Hmax.
  prepare_paths Hrun Htr; try congruence.
  all: split; [by intros c [= <-]|].
  all: split; [intros tok Hc|intros tok owner repo branch Hc];
         among Hc; simplify_eq; listed.
Qed.

Lemma exchanged_token_is_used_witness :
  Called SetupGitHubToken (Returned (AString "ghs_exchanged"))
    ∈ journal (run (scripted_imports direct_api_env smooth) fresh_job).2.
Proof.
  set (I := scripted_imports direct_api_env smooth).
  destruct (exchanged_token_is_used I fresh_job (run I fresh_job).1 (run I fresh_job).2
              (journal (run I fresh_job).2) eq_refl eq_refl) as (_ & Htok & _).
  - vm_compute. discriminate.
  - apply Htok. vm_compute. listed.
Defined.

(** X10. The tracking comment is created only after the three checks have
    passed: whenever [createInitialComment] is called, the journal holds
    [checkWritePermissions] answering [true], [checkTriggerAction]
    answering [true] and [checkHumanActor] resolving. *)
Theorem comment_requires_checks {W Octokit GitHubContext GitHubData}
        (I : Imports W Octokit GitHubContext GitHubData) (j : Job W Event) fin j' new :
  run I j = (fin, j') ->
  journal j' = journal j ++ new ->
  CreateInitialComment ∈ calls new ->
  Called CheckWritePermissions (Returned (ABool true)) ∈ new /\
  Called CheckTriggerAction (Returned (ABool true)) ∈ new /\
  Called CheckHumanActor (Returned AUnit) ∈ new.
Proof.
  intros Hrun Htr Hc.
  prepare_paths Hrun Htr; among Hc; (split; [|split]); listed.
Qed.

Lemma comment_requires_checks_witness :
  Called CheckWritePermissions (Returned (ABool true))
    ∈ journal (run (scripted_imports direct_api_env smooth) fresh_job).2.
Proof.
  set (I := scripted_imports direct_api_env smooth).
  refine (proj1 (comment_requires_checks I fresh_job (run I fresh_job).1
                   (run I fresh_job).2 (journal (run I fresh_job).2)
                   eq_refl eq_refl _)).
  vm_compute. listed.
Defined.

(** X11. When [checkWritePermissions] answers [false], the run fails with
    ["Actor does not have write permissions to the repository"] and exits
    with code 1; the permission check is the last imported function
    called, so the trigger is not examined and nothing is created. *)
Theorem permission_denied_stops {W Octokit GitHubContext GitHubData}
        (I : Imports W Octokit GitHubContext GitHubData) (j : Job W Event) fin j' new :
  run I j = (fin, j') ->
  journal j' = journal j ++ new ->
  Called CheckWritePermissions (Returned (ABool false)) ∈ new ->
  fin = Exited 1 /\
  [Called CheckWritePermissions (Returned (ABool false));
   SetFailed "Prepare step failed with error: Error: Actor does not have write permissions to the repository";
   Exit 1] `suffix_of` new /\
  last (calls new) = Some CheckWritePermissions.
Proof.
  intros Hrun Htr Hc.
  prepare_paths Hrun Htr; among Hc; (split; [done|]); (split; [ends|done]).
Qed.

Lemma permission_denied_stops_witness :
  (run (scripted_imports direct_api_env read_only_actor) fresh_job).1 = Exited 1.
Proof.
  set (I := scripted_imports direct_api_env read_only_actor).
  refine (proj1 (permission_denied_stops I fresh_job (run I fresh_job).1
                   (run I fresh_job).2 (journal (run I fresh_job).2)
                   eq_refl eq_refl _)).
  vm_compute. listed.
Defined.



(** X13. When an imported function rejects, nothing else is called: the
    rejected call is followed in the journal only by the failure report
    ["Prepare step failed with error: "] with the rejection converted to a
    string, and by the exit of the process with code 1. *)
Theorem rejection_is_reported {W Octokit GitHubContext GitHubData}
        (I : Imports W Octokit GitHubContext GitHubData) (j : Job W Event) fin j' new c t :
  run I j = (fin, j') ->
  journal j' = journal j ++ new ->
  (c, t) ∈ rejected new ->
  fin = Exited 1 /\
  [Called c (Threw t);
   SetFailed ("Prepare step failed with error: " +:+ to_String t);
   Exit 1] `suffix_of` new.
Proof.
  intros Hrun Htr Hc.
  prepare_paths Hrun Htr; among Hc; simplify_eq; (split; [done|ends]).
Qed.

Lemma rejection_is_reported_witness :
  [Called (FetchGitHubData "octo/demo" "7" false)
     (Threw (library_error "Bad credentials"));
   SetFailed "Prepare step failed with error: Error: Bad credentials";
   Exit 1]
  `suffix_of` journal (run (scripted_imports direct_api_env data_unavailable) fresh_job).2.
Proof.
  set (I := scripted_imports direct_api_env data_unavailable).
  refine (proj2 (rejection_is_reported I fresh_job (run I fresh_job).1
                   (run I fresh_job).2 (journal (run I fresh_job).2)
                   (FetchGitHubData "octo/demo" "7" false)
                   (library_error "Bad credentials")
                   eq_refl eq_refl _)).
  vm_compute. listed.
Defined.

(** X14. How a run ends.  It ends normally in two cases only: after the
    trigger check answered [false], or after [prepareMcpConfig] resolved,
    and then the last thing it does is to set the output [mcp_config] to
    what [prepareMcpConfig] resolved to.  Otherwise it reports a failure
    whose message begins with ["Prepare step failed with error: "] and
    exits with code 1.  An output is set only in a run in which no call
    rejected, and its name is [mcp_config]. *)
Theorem prepare_endings {W Octokit GitHubContext GitHubData}
        (I : Imports W Octokit GitHubContext GitHubData) (j : Job W Event) fin j' new :
  run I j = (fin, j') ->
  journal j' = journal j ++ new ->
  match fin with
  | Resolved =>
      [Called CheckTriggerAction (Returned (ABool false));
       Log "No trigger found, skipping remaining steps"] `suffix_of` new \/
      exists githubToken owner repo branch mcpConfig,
        [Called (PrepareMcpConfig githubToken owner repo branch)
           (Returned (AString mcpConfig));
         SetOutput "mcp_config" mcpConfig] `suffix_of` new
  | Exited code =>
      code = 1 /\
      exists reason,
        [SetFailed ("Prepare step failed with error: " +:+ reason); Exit 1]
        `suffix_of` new
  end /\
  (forall name value,
     SetOutput name value ∈ new ->
     fin = Resolved /\ name = "mcp_config" /\ rejected new = []) /\
  (forall message, SetFailed message ∈ new -> fin = Exited 1).
Proof.
  intros Hrun Htr.
  prepare_paths Hrun Htr.
  all: split;
    [first [ left; ends
           | right; do 5 eexists; ends
           | split; [done|]; eexists; ends ]
    |split; [intros name value Hc|intros message Hc]; among Hc; by simplify_eq].
Qed.

Lemma prepare_endings_witness :
  let I := scripted_imports direct_api_env smooth in
  (run I fresh_job).1 = Resolved /\
  SetOutput "mcp_config" "{}" ∈ journal (run I fresh_job).2.
Proof.
  intros I.
  destruct (prepare_endings I fresh_job (run I fresh_job).1 (run I fresh_job).2
              (journal (run I fresh_job).2) eq_refl eq_refl) as (_ & Hout & _).
  split; [|vm_compute; listed].
  apply (Hout "mcp_config" "{}"). vm_compute. listed.
Defined.

(** X15. The tracking comment is updated exactly when [setupBranch]
    reports a branch of its own: [updateTrackingComment] is called only
    with the id [createInitialComment] resolved to and the non-empty
    [claudeBranch] of the branch information; and when the branch
    information has no [claudeBranch], or an empty one, it is not called.
    [createPrompt] receives the same comment id and the default and
    Claude branches of the branch information. *)
Theorem tracking_comment_follows_branch {W Octokit GitHubContext GitHubData}
        (I : Imports W Octokit GitHubContext GitHubData) (j : Job W Event) fin j' new :
  run I j = (fin, j') ->
  journal j' = journal j ++ new ->
  (forall commentId branch,
     UpdateTrackingComment commentId branch ∈ calls new ->
     branch <> "" /\
     Called CreateInitialComment (Returned (ANumber commentId)) ∈ new /\
     exists info,
       Called SetupBranch (Returned (ABranch info)) ∈ new /\
       claudeBranch info = Some branch) /\
  (forall info,
     Called SetupBranch (Returned (ABranch info)) ∈ new ->
     match claudeBranch info with
     | Some branch =>
         if truthy branch
         then exists commentId, UpdateTrackingComment commentId branch ∈ calls new
         else forall commentId b, UpdateTrackingComment commentId b ∉ calls new
     | None => forall commentId b, UpdateTrackingComment commentId b ∉ calls new
     end) /\
  (forall commentId default branch,
     CreatePrompt commentId default branch ∈ calls new ->
     Called CreateInitialComment (Returned (ANumber commentId)) ∈ new /\
     exists info,
       Called SetupBranch (Returned (ABranch info)) ∈ new /\
       default = defaultBranch info /\ branch = claudeBranch info).
Proof.
  intros Hrun Htr.
  prepare_paths Hrun Htr.
  all: split; [intros commentId branch Hc; among Hc; simplify_eq;
               (split; [by apply truthy_true|]; split; [listed|];
                eexists; split; [listed|done])|].
  all: split; [intros info Hc; among Hc; simplify_eq;
               repeat match goal with
                      | E : claudeBranch _ = _ |- _ => rewrite E
                      | E : truthy _ = _ |- _ => rewrite E
                      end;
               first [eexists; listed | intros commentId b Hb; among Hb]|].
  all: intros commentId default branch Hc; among Hc; simplify_eq;
       (split; [listed|]; eexists; split; [listed|]; by split).
Qed.

Lemma tracking_comment_follows_branch_witness :
  UpdateTrackingComment 42 "claude/issue-7"
    ∈ calls (journal (run (scripted_imports direct_api_env smooth) fresh_job).2).
Proof.
  set (I := scripted_imports direct_api_env smooth).
  destruct (tracking_comment_follows_branch I fresh_job (run I fresh_job).1
              (run I fresh_job).2 (journal (run I fresh_job).2) eq_refl eq_refl)
    as (_ & Hinfo & _).
  destruct (Hinfo {| claudeBranch := Some "claude/issue-7"; defaultBranch := "main";
                     currentBranch := "claude/issue-7" |}) as [commentId Hc].
  - vm_compute. listed.
  - vm_compute. listed.
Defined.

(** X16. The imported functions are called in one fixed order, each at most
    once: token exchange, client, context, permission check, trigger
    check, actor check, tracking comment, data, branch, comment update,
    prompt, MCP configuration.  The client and the MCP configuration get
    the same token; the comment update and the prompt get the same comment
    id. *)
Theorem prepare_calls_in_order {W Octokit GitHubContext GitHubData}
        (I : Imports W Octokit GitHubContext GitHubData) (j : Job W Event) fin j' new :
  run I j = (fin, j') ->
  journal j' = journal j ++ new ->
  exists githubToken repository prNumber isPR commentId branch default claude
         owner repo current,
    calls new `sublist_of`
      [SetupGitHubToken; CreateOctokit githubToken; ParseGitHubContext;
       CheckWritePermissions; CheckTriggerAction; CheckHumanActor;
       CreateInitialComment; FetchGitHubData repository prNumber isPR;
       SetupBranch; UpdateTrackingComment commentId branch;
       CreatePrompt commentId default claude;
       PrepareMcpConfig githubToken owner repo current].
Proof.
  intros Hrun Htr.
  prepare_paths Hrun Htr.
  all: do 11 eexists.
  all: repeat first [apply sublist_nil_l | apply sublist_skip | apply sublist_cons].
  Unshelve.
  all: first [exact "" | exact 0 | exact false | exact None].
Qed.

Lemma prepare_calls_in_order_witness :
  exists githubToken repository prNumber isPR commentId branch default claude
         owner repo current,
    calls (journal (run (scripted_imports direct_api_env smooth) fresh_job).2)
    `sublist_of`
      [SetupGitHubToken; CreateOctokit githubToken; ParseGitHubContext;
       CheckWritePermissions; CheckTriggerAction; CheckHumanActor;
       CreateInitialComment; FetchGitHubData repository prNumber isPR;
       SetupBranch; UpdateTrackingComment commentId branch;
       CreatePrompt commentId default claude;
       PrepareMcpConfig githubToken owner repo current].
Proof.
  set (I := scripted_imports direct_api_env smooth).
  exact (prepare_calls_in_order I fresh_job (run I fresh_job).1 (run I fresh_job).2
           (journal (run I fresh_job).2) eq_refl eq_refl).
Defined.

(** ** Start-up of the server *)

Lemma unset_true value : unset value = true <-> value = None \/ value = Some "".
Proof.
  destruct value as [s|]; simpl; [|by intuition].
  unfold truthy. destruct (String.eqb_spec s "") as [->|Hne]; simpl; [by intuition|].
  split; [done|]. by intros [|[= ->]].
Qed.

Lemma unset_false value : unset value = false <-> exists s, value = Some s /\ s <> "".
Proof.
  destruct value as [s|]; simpl.
  - unfold truthy. destruct (String.eqb_spec s "") as [->|Hne]; simpl.
    + split; [done|]. by intros (s & [= <-] & Hs).
    + split; [|done]. intros _. by exists s.
  - split; [done|]. by intros (s & [=] & _).
Qed.

Lemma or_else_unset a b : unset a = true -> or_else a b = b.
Proof.
  intros [-> | ->]%unset_true; done.
Qed.

(** X17. The server does not start without a repository: when
    [REPO_OWNER], [REPO_NAME] or [BRANCH_NAME] is missing or empty, the
    process writes one line to the error stream and exits with code 1.
    Otherwise it serves with exactly those three values; a missing
    [GITHUB_TOKEN] does not keep it from starting, [GITHUB_API_URL]
    defaults to [https://api.github.com] and [REPO_DIR] to the working
    directory, each also when it is set to the empty string. *)
Theorem start_server_requires_repository penv process_cwd :
  (forall name,
     name ∈ ["REPO_OWNER"; "REPO_NAME"; "BRANCH_NAME"] ->
     penv !! name = None \/ penv !! name = Some "" ->
     start_server penv process_cwd
     = Stopped 1
         "Error: REPO_OWNER, REPO_NAME, and BRANCH_NAME environment variables are required") /\
  (forall owner name branch,
     penv !! "REPO_OWNER" = Some owner -> owner <> "" ->
     penv !! "REPO_NAME" = Some name -> name <> "" ->
     penv !! "BRANCH_NAME" = Some branch -> branch <> "" ->
     start_server penv process_cwd
     = Serving {| GITHUB_API_URL :=
                    match penv !! "GITHUB_API_URL" with
                    | Some url => if decide (url = "") then "https://api.github.com" else url
                    | None => "https://api.github.com"
                    end;
                  GITHUB_TOKEN := penv !! "GITHUB_TOKEN";
                  REPO_OWNER := owner;
                  REPO_NAME := name;
                  BRANCH_NAME := branch;
                  REPO_DIR :=
                    match penv !! "REPO_DIR" with
                    | Some dir => if decide (dir = "") then process_cwd else dir
                    | None => process_cwd
                    end;
                  cwd := process_cwd |}) /\
  (forall e,
     start_server penv process_cwd = Serving e ->
     REPO_OWNER e <> "" /\ REPO_NAME e <> "" /\ BRANCH_NAME e <> "" /\
     GITHUB_API_URL e <> "" /\ (process_cwd <> "" -> REPO_DIR e <> "")).
Proof.
  split; [|split].
  - intros name Hname Hmissing. apply unset_true in Hmissing.
    unfold start_server.
    among Hname; subst name; rewrite Hmissing; by rewrite ?orb_true_r.
  - intros owner name branch Ho Hone Hn Hnne Hb Hbne.
    unfold start_server. rewrite Ho, Hn, Hb. simpl.
    apply truthy_true in Hone, Hnne, Hbne. rewrite Hone, Hnne, Hbne. simpl.
    do 2 f_equal.
    + destruct (penv !! "GITHUB_API_URL") as [url|]; simpl; [|done].
      destruct (decide (url = "")) as [->|Hu]; [done|].
      by apply truthy_true in Hu as ->.
    + destruct (penv !! "REPO_DIR") as [dir|]; simpl; [|done].
      destruct (decide (dir = "")) as [->|Hd]; [done|].
      by apply truthy_true in Hd as ->.
  - intros e. unfold start_server.
    destruct (unset (penv !! "REPO_OWNER")) eqn:Ho; [done|].
    destruct (unset (penv !! "REPO_NAME")) eqn:Hn; [done|].
    destruct (unset (penv !! "BRANCH_NAME")) eqn:Hb; [done|].
    apply unset_false in Ho as (o & -> & Ho), Hn as (n & -> & Hn), Hb as (b & -> & Hb).
    intros [= <-]. simpl. do 3 (split; [done|]). split.
    + destruct (penv !! "GITHUB_API_URL") as [url|]; simpl; [|done].
      destruct (truthy url) eqn:Hu; [by apply truthy_true|done].
    + intros Hcwd. destruct (penv !! "REPO_DIR") as [dir|]; simpl; [|done].
      destruct (truthy dir) eqn:Hd; [by apply truthy_true|done].
Qed.

Lemma start_server_requires_repository_witness :
  start_server (<["BRANCH_NAME" := ""]> minimal_env) "/repo"
  = Stopped 1
      "Error: REPO_OWNER, REPO_NAME, and BRANCH_NAME environment variables are required".
Proof.
  destruct (start_server_requires_repository (<["BRANCH_NAME" := ""]> minimal_env) "/repo")
    as (Hstop & _).
  apply (Hstop "BRANCH_NAME"); [listed|right; reflexivity].
Defined.

(** X18. What the defaults mean for the tools of a server that started.
    Without [REPO_DIR], [commit_files] reads a relative path from the
    working directory of the process.  Without [GITHUB_API_URL], the branch
    reference both tools read and update is
    [https://api.github.com/repos/<owner>/<repo>/git/refs/heads/<branch>].
    Without [GITHUB_TOKEN], every call of either tool fails with
    ["GITHUB_TOKEN environment variable is required"] and sends nothing. *)
Theorem started_server_defaults {S} (h : Host S) penv process_cwd :
  start_server penv process_cwd = Serving (env h) ->
  (unset (penv !! "REPO_DIR") = true ->
   forall p, startsWith p "/" = false ->
     fullPath h (processedFile p) = join h process_cwd p) /\
  (unset (penv !! "GITHUB_API_URL") = true ->
   refUrl h = "https://api.github.com" +:+ "/repos/" +:+ REPO_OWNER (env h) +:+ "/"
              +:+ REPO_NAME (env h) +:+ "/git/refs/heads/" +:+ BRANCH_NAME (env h)) /\
  (unset (penv !! "GITHUB_TOKEN") = true ->
   forall call (w : World S),
     call_tool h call w
     = (Threw (new_Error h "GITHUB_TOKEN environment variable is required"), w)).
Proof.
  unfold start_server.
  destruct (_ || _); [done|]. intros [= He].
  split; [|split].
  - intros Hdir p Hp. unfold processedFile, fullPath. rewrite Hp, Hp.
    rewrite <- He. simpl. by rewrite or_else_unset.
  - intros Hurl. unfold refUrl, repo_url. rewrite <- He. simpl.
    rewrite or_else_unset by done. by rewrite !string_app_assoc.
  - intros Htok call w. apply unset_true in Htok.
    assert (githubToken_required h w = (Threw (token_error h), w)) as Hreq.
    { unfold githubToken_required. rewrite <- He. simpl. by destruct Htok as [-> | ->]. }
    destruct call as [files message|paths message]; unfold call_tool, bind.
    + unfold commit_files, try_catch, commit_files_try, bind. rewrite Hreq.
      unfold token_error. by rewrite rethrow_normalized_same.
    + unfold delete_files, try_catch, delete_files_try, bind. rewrite Hreq.
      unfold token_error. by rewrite rethrow_normalized_same.
Qed.

Lemma started_server_defaults_witness :
  let h := demo_host happy
             {| GITHUB_API_URL := "https://api.github.com"; GITHUB_TOKEN := None;
                REPO_OWNER := "octo"; REPO_NAME := "demo"; BRANCH_NAME := "main";
                REPO_DIR := "/repo"; cwd := "/repo" |} in
  fullPath h (processedFile "docs/a.md") = "/repo/docs/a.md" /\
  refUrl h = "https://api.github.com/repos/octo/demo/git/refs/heads/main".
Proof.
  intros h.
  destruct (started_server_defaults h minimal_env "/repo" eq_refl) as (Hdir & Hurl & _).
  split.
  - exact (Hdir eq_refl "docs/a.md" eq_refl).
  - exact (Hurl eq_refl).
Defined.


(** ** The revert script *)

Section ScriptSteps.
Context {S Val : Type} (R : Runtime S Val).

Lemma send_inv req (j : Job S (ScriptEvent Val)) r j' :
  send R req j = (r, j') ->
  exists s,
    answer R (outside j) req = (r, s) /\
    j' = {| outside := s; journal := journal j ++ [Sent req r] |}.
Proof.
  unfold send. destruct (answer R (outside j) req) as [res s].
  intros [= <- <-]. by exists s.
Qed.

Lemma act_bind_lift {W E A B} (o : Outcome A) (k : A -> Act W E B) j :
  act_bind (lift o) k j =
  match o with
  | Returned a => k a j
  | Threw t => (Threw t, j)
  end.
Proof. by destruct o. Qed.

Lemma act_catch_inv {W E A} (m : Act W E A) handler (j : Job W E) r j' :
  act_catch m handler j = (r, j') ->
  (exists a, m j = (Returned a, j') /\ r = Returned a) \/
  (exists t j1, m j = (Threw t, j1) /\ handler t j1 = (r, j')).
Proof.
  unfold act_catch. destruct (m j) as [[a|t] j1]; intros H.
  - left. injection H as <- <-. by exists a.
  - right. by exists t, j1.
Qed.

Lemma act_bind_lift_inv {W E A B} (o : Outcome A) (k : A -> Act W E B) j r j' :
  act_bind (lift o) k j = (r, j') ->
  (exists a, o = Returned a /\ k a j = (r, j')) \/
  (exists t, o = Threw t /\ r = Threw t /\ j' = j).
Proof.
  rewrite act_bind_lift. destruct o as [a|t]; [left; by exists a|].
  intros [= <- <-]. right. by exists t.
Qed.

Lemma if_inv {W E A} (b : bool) (m1 m2 : Act W E A) j v :
  (if b then m1 else m2) j = v ->
  (b = true /\ m1 j = v) \/ (b = false /\ m2 j = v).
Proof. destruct b; [by left|by right]. Qed.

Lemma if_negb_inv {W E A} (b : bool) (m1 m2 : Act W E A) j v :
  (if negb b then m1 else m2) j = v ->
  (b = false /\ m1 j = v) \/ (b = true /\ m2 j = v).
Proof. destruct b; [by right|by left]. Qed.

Lemma act_bind_ret {W E A B} (a : A) (k : A -> Act W E B) j :
  act_bind (act_ret a) k j = k a j.
Proof. done. Qed.

Lemma act_bind_throw {W E A B} t (k : A -> Act W E B) j :
  act_bind (act_throw t) k j = (Threw t, j).
Proof. done. Qed.

End ScriptSteps.

(** Inverts a run of a script, one step after the other. *)
Ltac agree :=
  repeat match goal with
         | H1 : ?o = Returned ?x, H2 : ?o = Returned ?y |- _ =>
             assert (y = x) as -> by congruence; clear H2
         | H1 : ?o = Returned _, H2 : ?o = Threw _ |- _ => congruence
         | H1 : ?o = true, H2 : ?o = false |- _ => congruence
         end.

Ltac script_step H :=
  let Hs := fresh "Hs" in
  lazymatch type of H with
  | act_bind (emit _) _ _ = _ =>
      apply act_bind_inv in H as [(? & ? & Hs & H)|(? & Hs & ?)];
      apply emit_inv in Hs as [? ?]; simplify_eq; cbn [outside journal] in *
  | act_bind (send _ _) _ _ = _ =>
      apply act_bind_inv in H as [(? & ? & Hs & H)|(? & Hs & ?)];
      apply send_inv in Hs as (? & ? & ?); simplify_eq; cbn [outside journal] in *
  | act_bind (lift _) _ _ = _ =>
      apply act_bind_lift_inv in H as [(? & ? & H)|(? & ? & ? & ?)];
      [cbn beta in H; agree|agree; simplify_eq]
  | act_bind (act_ret _) _ _ = _ => rewrite act_bind_ret in H; cbn beta in H
  | act_bind (act_throw _) _ _ = _ => rewrite act_bind_throw in H; simplify_eq
  | (if negb _ then _ else _) _ = _ =>
      apply if_negb_inv in H as [[? H]|[? H]]; agree
  | (if _ then _ else _) _ = _ =>
      apply if_inv in H as [[? H]|[? H]]; agree
  | emit _ _ = _ => apply emit_inv in H as [? ?]; simplify_eq; cbn [outside journal] in *
  | act_ret _ _ = _ => unfold act_ret in H; simplify_eq
  | (_, _) = _ => simplify_eq
  end.

(** Every way a run of a script can go: [Hrun] is the run of the function,
    with its [try] block unfolded. *)
Ltac script_paths Hrun Htr :=
  let H := fresh "Htry" in
  let Hc := fresh "Hcatch" in
  repeat script_step Hrun;
  apply act_catch_inv in Hrun as [(? & H & ?)|(? & ? & H & Hc)];
  [|apply emit_inv in Hc as [? ?]];
  repeat script_step H; simplify_eq; cbn [outside journal] in *;
  simpl in Htr; rewrite <- ?app_assoc in Htr; apply app_inv_head in Htr as <-;
  simpl in *.

Ltac revert_paths Hrun Htr :=
  unfold revertTestCommit, revertTestCommit_try, console_log, console_error in Hrun;
  script_paths Hrun Htr.

Section RevertRuns.
Context {S Val : Type} (R : Runtime S Val).

(** The [catch] of [revertTestCommit] only prints: the function returns
    whatever happens inside its [try] block. *)
Lemma revertTestCommit_returns token (j : Job S (ScriptEvent Val)) r j' :
  revertTestCommit R token j = (r, j') -> r = Returned tt.
Proof.
  intros Hrun. unfold revertTestCommit, console_log, console_error in Hrun.
  repeat script_step Hrun.
  apply act_catch_inv in Hrun as [([] & _ & ->)|(t & j1 & _ & Hc)]; [done|].
  by apply emit_inv in Hc as [-> _].
Qed.

End RevertRuns.

(** X20. The revert script moves the branch by force, and only under its
    own test.  Whenever it sends a PATCH, that request is the third one,
    after the branch reference and the commit at its tip were both read
    with a 2xx status; the commit passed the test (its message includes
    the marker of the test commit and it has a parent); and the request
    resets the hard-coded branch to the sha of the first parent with
    [force: true]. *)
Theorem revert_resets_only_test_commit {S Val} (R : Runtime S Val) token
        (j : Job S (ScriptEvent Val)) r j' new req res :
  revertTestCommit R token j = (r, j') ->
  journal j' = journal j ++ new ->
  (req, res) ∈ sent new ->
  sr_method req = VPATCH ->
  exists refResponse refData refObject currentSha currentShaText
         commitResponse commitData message parents parentsLength firstParent
         parentSha rest,
    sent new =
      ({| sr_method := VGET;
          sr_url := "https://api.github.com/repos/anthropics/anthropic/git/refs/heads/monty/fixing-pipeline-runner";
          sr_headers := [("Accept", "application/vnd.github+json");
                         ("Authorization", "Bearer " +:+ token);
                         ("X-GitHub-Api-Version", "2022-11-28")];
          sr_body := None |}, Returned refResponse)
      :: ({| sr_method := VGET;
             sr_url := "https://api.github.com/repos/anthropics/anthropic/git/commits/"
                       +:+ currentShaText;
             sr_headers := [("Accept", "application/vnd.github+json");
                            ("Authorization", "Bearer " +:+ token);
                            ("X-GitHub-Api-Version", "2022-11-28")];
             sr_body := None |}, Returned commitResponse)
      :: (req, res) :: rest /\
    ok refResponse = true /\ json refResponse = Returned refData /\
    prop R refData "object" = Returned refObject /\
    prop R refObject "sha" = Returned currentSha /\
    template R currentSha = Returned currentShaText /\
    ok commitResponse = true /\ json commitResponse = Returned commitData /\
    prop R commitData "message" = Returned message /\
    includes_call R message "Debug: Test commit to reproduce 500 error" = Returned true /\
    prop R commitData "parents" = Returned parents /\
    prop R parents "length" = Returned parentsLength /\
    is_zero R parentsLength = false /\
    prop R parents "0" = Returned firstParent /\
    prop R firstParent "sha" = Returned parentSha /\
    req = {| sr_method := VPATCH;
             sr_url := "https://api.github.com/repos/anthropics/anthropic/git/refs/heads/monty/fixing-pipeline-runner";
             sr_headers := [("Accept", "application/vnd.github+json");
                            ("Authorization", "Bearer " +:+ token);
                            ("X-GitHub-Api-Version", "2022-11-28");
                            ("Content-Type", "application/json")];
             sr_body := Some (BReset parentSha true) |}.
Proof.
  intros Hrun Htr Hin Hm.
  revert_paths Hrun Htr; among Hin; injection Hin as -> ->;
    try discriminate Hm.
  all: do 13 eexists; (split; [reflexivity|]).
  all: repeat first [eassumption | reflexivity | split].
Qed.

Lemma revert_resets_only_test_commit_witness :
  exists rest,
    sent (journal (revertTestCommit (demo_runtime revert_goes_through) "ghp_pat"
                     fresh_desk).2)
    = (revert_ref_request "ghp_pat", Returned (reply 200 (JReference "c2")))
      :: (revert_commit_request "ghp_pat" "c2",
          Returned (reply 200 (JCommit "Debug: Test commit to reproduce 500 error" ["c1"] "t2")))
      :: (revert_reset_request "ghp_pat" (JString "c1"),
          Returned (reply 200 (JReference "c1")))
      :: rest.
Proof.
  set (R := demo_runtime revert_goes_through).
  destruct (revert_resets_only_test_commit R "ghp_pat" fresh_desk
              (revertTestCommit R "ghp_pat" fresh_desk).1
              (revertTestCommit R "ghp_pat" fresh_desk).2
              (journal (revertTestCommit R "ghp_pat" fresh_desk).2)
              (revert_reset_request "ghp_pat" (JString "c1"))
              (Returned (reply 200 (JReference "c1")))
              eq_refl eq_refl)
    as (refResponse & refData & refObject & currentSha & currentShaText
        & commitResponse & commitData & message & parents & parentsLength
        & firstParent & parentSha & rest & Hsent & _).
  - vm_compute. listed.
  - reflexivity.
  - exists rest. rewrite Hsent. vm_compute in Hsent.
    injection Hsent as <- <- <- _. reflexivity.
Defined.

(** X21. The revert script never fails and never retries.  Without a token
    argument it prints its usage and exits with code 1 before sending
    anything.  With one, it ends normally whatever the remote answers and
    whatever the replies hold; its requests are an initial segment of: read
    the reference, read the commit, reset the reference, read the
    reference again; each carries the token as bearer credential and goes
    to the hard-coded repository; and every request that is followed by
    another was answered with a 2xx status. *)
Theorem revert_script_is_orderly {S Val} (R : Runtime S Val) argument
        (j : Job S (ScriptEvent Val)) fin j' new :
  revert_main R argument j = (fin, j') ->
  journal j' = journal j ++ new ->
  (argument = None \/ argument = Some "" ->
   fin = Exited 1 /\
   new = [Printed false "Usage: bun revert-test-commit.ts <github-pat>"]) /\
  (forall token,
     argument = Some token -> token <> "" ->
     fin = Resolved /\
     (exists n currentShaText,
        map (fun x => (sr_method x.1, sr_url x.1)) (sent new) =
        take n
          [(VGET, "https://api.github.com/repos/anthropics/anthropic/git/refs/heads/monty/fixing-pipeline-runner");
           (VGET, "https://api.github.com/repos/anthropics/anthropic/git/commits/"
                  +:+ currentShaText);
           (VPATCH, "https://api.github.com/repos/anthropics/anthropic/git/refs/heads/monty/fixing-pipeline-runner");
           (VGET, "https://api.github.com/repos/anthropics/anthropic/git/refs/heads/monty/fixing-pipeline-runner")]) /\
     Forall (fun x => ("Authorization", "Bearer " +:+ token) ∈ sr_headers x.1) (sent new) /\
     (forall i x, sent new !! i = Some x -> i + 1 < length (sent new) ->
        exists resp, x.2 = Returned resp /\ ok resp = true)).
Proof.
  intros Hrun Htr. split.
  - intros Harg. apply unset_true in Harg. unfold revert_main in Hrun.
    rewrite Harg in Hrun. injection Hrun as <- <-. simpl in Htr.
    apply app_inv_head in Htr as <-. done.
  - intros token -> Htoken. unfold revert_main in Hrun. simpl in Hrun.
    apply truthy_true in Htoken. rewrite Htoken in Hrun. simpl in Hrun.
    destruct (revertTestCommit R token j) as [r j1] eqn:Hscript.
    pose proof (revertTestCommit_returns R _ _ _ _ Hscript) as ->.
    injection Hrun as <- <-. split; [done|].
    revert_paths Hscript Htr.
    all: split;
      [first [by exists 0, "" | by exists 1, ""
             | by exists 2; eexists | by exists 3; eexists | by exists 4; eexists]|].
    all: split; [repeat constructor; simpl; listed|].
    all: intros idx exch Hi Hlen; simpl in Hlen.
    all: repeat (destruct idx as [|idx]; [injection Hi as <-; simpl; try lia; eauto|]);
         try lia.
Qed.

Lemma revert_script_is_orderly_witness :
  let R := demo_runtime tip_is_real_work in
  (revert_main R (Some "ghp_pat") fresh_desk).1 = Resolved /\
  map (fun x => sr_method x.1) (sent (journal (revert_main R (Some "ghp_pat") fresh_desk).2))
  = [VGET; VGET].
Proof.
  intros R.
  destruct (revert_script_is_orderly R (Some "ghp_pat") fresh_desk
              (revert_main R (Some "ghp_pat") fresh_desk).1
              (revert_main R (Some "ghp_pat") fresh_desk).2
              (journal (revert_main R (Some "ghp_pat") fresh_desk).2)
              eq_refl eq_refl) as (_ & Hgiven).
  destruct (Hgiven "ghp_pat" eq_refl) as (Hfin & _); [done|].
  split; [exact Hfin|reflexivity].
Defined.

(** X22. What the script's success lines mean.  It prints that the commit
    was reverted only after the reset was answered with a 2xx status.  It
    prints that the revert is confirmed only after it read the reference
    once more and the sha in that reply is strictly equal to the parent
    sha it had asked for; the status of that last reply is not looked
    at. *)
Theorem revert_success_lines {S Val} (R : Runtime S Val) token
        (j : Job S (ScriptEvent Val)) r j' new :
  revertTestCommit R token j = (r, j') ->
  journal j' = journal j ++ new ->
  (Printed false "✅ Successfully reverted test commit!" ∈ new ->
   exists parentSha resp,
     ({| sr_method := VPATCH;
         sr_url := "https://api.github.com/repos/anthropics/anthropic/git/refs/heads/monty/fixing-pipeline-runner";
         sr_headers := [("Accept", "application/vnd.github+json");
                        ("Authorization", "Bearer " +:+ token);
                        ("X-GitHub-Api-Version", "2022-11-28");
                        ("Content-Type", "application/json")];
         sr_body := Some (BReset parentSha true) |}, Returned resp) ∈ sent new /\
     ok resp = true) /\
  (Printed false "✅ Revert confirmed" ∈ new ->
   exists parentSha resp verifyResponse verifyData verifyObject verifySha,
     ({| sr_method := VPATCH;
         sr_url := "https://api.github.com/repos/anthropics/anthropic/git/refs/heads/monty/fixing-pipeline-runner";
         sr_headers := [("Accept", "application/vnd.github+json");
                        ("Authorization", "Bearer " +:+ token);
                        ("X-GitHub-Api-Version", "2022-11-28");
                        ("Content-Type", "application/json")];
         sr_body := Some (BReset parentSha true) |}, Returned resp) ∈ sent new /\
     ok resp = true /\
     last (sent new)
       = Some ({| sr_method := VGET;
              sr_url := "https://api.github.com/repos/anthropics/anthropic/git/refs/heads/monty/fixing-pipeline-runner";
              sr_headers := [("Accept", "application/vnd.github+json");
                             ("Authorization", "Bearer " +:+ token);
                             ("X-GitHub-Api-Version", "2022-11-28")];
              sr_body := None |}, Returned verifyResponse) /\
     json verifyResponse = Returned verifyData /\
     prop R verifyData "object" = Returned verifyObject /\
     prop R verifyObject "sha" = Returned verifySha /\
     strictly_equal R verifySha parentSha = true).
Proof.
  intros Hrun Htr.
  revert_paths Hrun Htr.
  all: split; intros Hin; among Hin.
  all: try (do 2 eexists; split; [listed|done]).
  all: do 6 eexists; (split; [listed|]); repeat (split; [done|]); done.
Qed.

Lemma revert_success_lines_witness :
  let R := demo_runtime revert_goes_through in
  exists parentSha resp,
    (revert_reset_request "ghp_pat" parentSha, Returned resp)
      ∈ sent (journal (revertTestCommit R "ghp_pat" fresh_desk).2) /\
    ok resp = true.
Proof.
  intros R.
  destruct (revert_success_lines R "ghp_pat" fresh_desk
              (revertTestCommit R "ghp_pat" fresh_desk).1
              (revertTestCommit R "ghp_pat" fresh_desk).2
              (journal (revertTestCommit R "ghp_pat" fresh_desk).2)
              eq_refl eq_refl) as (Hdone & _).
  apply Hdone. vm_compute. listed.
Defined.
